(** * contented: session lifecycle and YouTube API gateway

    A shallow embedding of [src/lib/oauth.ts], [src/lib/youtube-api.ts],
    [src/lib/auth-middleware.ts], the routes [src/routes/api/auth/login.ts],
    [src/routes/api/auth/callback.ts] and [src/routes/api/auth/logout.ts],
    and the usage route ([src/unnamed/part_008]), followed by the
    properties of the specification that concern them and by further
    properties of the same code.

    Conventions of the embedding:
    - instants ([Date], [Date.now()]) are milliseconds since the epoch, in [Z];
    - JavaScript numbers that the code only uses as integers are in [Z];
    - strings are byte strings (the UTF-8 encoding of the JavaScript string),
      which is what [TextEncoder.encode] hands to [hashToken];
    - an [async] method is a computation in the monad [M]: it reads and
      writes the world (durable store, clock, log of outbound HTTP calls)
      and either returns a value or throws a JavaScript error;
    - the runtime is part of the world: Deno KV is a finite map whose
      entries may carry an expiry instant.  Deno KV stops returning an
      entry at some instant from its expiry on; the embedding stops at
      that very instant, and what is stated of the cache past its time to
      live is stated for every later removal as well ([kept]).  The operations
      of the store take no time and do not fail, so a [catch] that only
      guards store operations has nothing to catch; [fetch] is answered by
      the remote services, which may depend on the request and on how many
      calls came before, and takes time;
    - a handler runs without interruption from one [await] to the next.
      The embedding runs a method, and each lookup of a [Promise.all], to
      its end before the next one starts; where the order matters, the
      method is cut at its [await] ([callback_read], [usageRead]) and the
      two runs are interleaved;
    - replies have the TypeScript type the code casts them to. *)

From Stdlib Require Import ZArith Lia Ascii String.
From stdpp Require Import gmap strings list fin_maps pretty sorting.

Local Open Scope Z_scope.

(** ** JSON payloads and HTTP *)

(** The items of an upstream response are never inspected by the gateway;
    they are carried as JSON values. *)
#[warnings="-register-all"]
Inductive json : Type :=
  | JNull
  | JBool (b : bool)
  | JNum (n : Z)
  | JStr (s : string)
  | JArr (l : list json)
  | JObj (fields : list (string * json)).

Record PageInfo := { totalResults : Z; resultsPerPage : Z }.

(** [SubscriptionResponse], [VideoResponse] and [VideoDetailsResponse] are
    the same object at run time: a list of items, with an optional
    continuation token and page information. *)
Record ApiResponse := {
  items : list json;
  nextPageToken : option string;
  pageInfo : option PageInfo
}.

(** [TokenResponse]; [refresh_token] may be missing from a refresh reply. *)
Record TokenJson := {
  access_token : string;
  tj_refresh_token : option string;
  expires_in : Z;
  token_type : string;
  scope : string
}.

Record TokenResponse := {
  tr_access_token : string;
  tr_refresh_token : string;
  tr_expires_in : Z;
  tr_token_type : string;
  tr_scope : string
}.

(** What [response.json()] yields, as far as the code looks at it. *)
Inductive Parsed : Type :=
  | PInvalid                                                   (* not JSON *)
  | PApi (d : ApiResponse)
  | PApiError (code : option string) (reason : option string) (* error.code, error.errors[0].reason *)
  | PTokens (t : TokenJson)
  | PUserInfo (id : string).

Record HttpResponse := {
  status : Z;
  statusText : string;
  text : string;
  parsed : Parsed
}.

Definition ok (r : HttpResponse) : bool := (200 <=? status r) && (status r <=? 299).

Record HttpRequest := {
  method : string;
  url : string;
  query : list (string * string);   (* URLSearchParams of the URL *)
  bearer : option string;           (* Authorization: Bearer ... *)
  form : list (string * string)     (* URLSearchParams of the body *)
}.

(** A [fetch] either rejects (network failure) or resolves with a response;
    it takes [took] milliseconds. *)
Inductive NetReply : Type :=
  | NetFail (msg : string)
  | NetOk (r : HttpResponse).

Record Exchange := { reply : NetReply; took : Z }.

(** ** JavaScript errors *)

(** [Error], with the optional fields of [YouTubeAPIError]. *)
Record JsError := {
  message : string;
  err_status : option Z;
  err_code : option string;
  quotaExceeded : bool
}.

Definition Error (msg : string) : JsError :=
  {| message := msg; err_status := None; err_code := None; quotaExceeded := false |}.

(** ** The durable key-value store

    Deno KV keys are arrays; the first component names the kind of record
    and the code casts the value accordingly.  Each kind is a map of its
    own here: [kv.get(["sessions", id])] reads [sessions] at [id]. *)

Record UserSession := {
  id : string;
  userId : string;
  accessToken : string;
  refreshToken : string;
  tokenExpiresAt : Z;
  createdAt : Z;
  lastAccessed : Z
}.

Record StateData := { st_createdAt : Z; used : bool }.

Record CacheEntry := { data : ApiResponse; cachedAt : Z; expiresAt : Z }.

Record RateLimitInfo := { quotaUsed : Z; resetTime : Z; requestCount : Z }.

(** A stored value with the instant at which [expireIn] makes it vanish. *)
Record Entry (V : Type) := { value : V; expireAt : option Z }.
Arguments value {V} _.
Arguments expireAt {V} _.

Record Kv := {
  sessions : gmap string (Entry UserSession);
  user_sessions : gmap string (Entry string);
  oauth_states : gmap string (Entry StateData);
  youtube_cache : gmap string (Entry CacheEntry);
  rate_limit : gmap string (Entry RateLimitInfo);
  api_usage : gmap string (Entry RateLimitInfo)
}.

Definition kv_empty : Kv :=
  {| sessions := ∅; user_sessions := ∅; oauth_states := ∅;
     youtube_cache := ∅; rate_limit := ∅; api_usage := ∅ |}.

Definition live {V} (e : Entry V) (now : Z) : bool :=
  match expireAt e with
  | Some t => now <? t
  | None => true
  end.

(** [kv.get(key)] at instant [now]: the value, unless absent or expired. *)
Definition kv_get {V} (m : gmap string (Entry V)) (key : string) (now : Z) : option V :=
  match m !! key with
  | Some e => if live e now then Some (value e) else None
  | None => None
  end.

(** [kv.set(key, v, { expireIn })] at instant [now]. *)
Definition kv_set {V} (m : gmap string (Entry V)) (key : string) (v : V)
    (expireIn : option Z) (now : Z) : gmap string (Entry V) :=
  <[key := {| value := v; expireAt := (λ d, now + d) <$> expireIn |}]> m.

Definition kv_delete {V} (m : gmap string (Entry V)) (key : string) : gmap string (Entry V) :=
  delete key m.

Definition with_sessions (f : gmap string (Entry UserSession) → gmap string (Entry UserSession)) (k : Kv) : Kv :=
  {| sessions := f (sessions k); user_sessions := user_sessions k; oauth_states := oauth_states k;
     youtube_cache := youtube_cache k; rate_limit := rate_limit k; api_usage := api_usage k |}.

Definition with_user_sessions (f : gmap string (Entry string) → gmap string (Entry string)) (k : Kv) : Kv :=
  {| sessions := sessions k; user_sessions := f (user_sessions k); oauth_states := oauth_states k;
     youtube_cache := youtube_cache k; rate_limit := rate_limit k; api_usage := api_usage k |}.

Definition with_oauth_states (f : gmap string (Entry StateData) → gmap string (Entry StateData)) (k : Kv) : Kv :=
  {| sessions := sessions k; user_sessions := user_sessions k; oauth_states := f (oauth_states k);
     youtube_cache := youtube_cache k; rate_limit := rate_limit k; api_usage := api_usage k |}.

Definition with_youtube_cache (f : gmap string (Entry CacheEntry) → gmap string (Entry CacheEntry)) (k : Kv) : Kv :=
  {| sessions := sessions k; user_sessions := user_sessions k; oauth_states := oauth_states k;
     youtube_cache := f (youtube_cache k); rate_limit := rate_limit k; api_usage := api_usage k |}.

Definition with_api_usage (f : gmap string (Entry RateLimitInfo) → gmap string (Entry RateLimitInfo)) (k : Kv) : Kv :=
  {| sessions := sessions k; user_sessions := user_sessions k; oauth_states := oauth_states k;
     youtube_cache := youtube_cache k; rate_limit := rate_limit k; api_usage := f (api_usage k) |}.

(** ** The world and the monad of asynchronous methods *)

Record World := {
  kv : Kv;
  clock : Z;                                (* what [Date.now()] reads *)
  calls : list HttpRequest;                 (* outbound HTTP calls so far, oldest first *)
  net : nat → HttpRequest → Exchange;       (* the remote services: n-th call, request *)
  uuids : nat → string;                     (* [crypto.randomUUID()], n-th draw *)
  drawn : nat;
  env : string → option string              (* [Deno.env.get] *)
}.

Definition with_kv (f : Kv → Kv) (w : World) : World :=
  {| kv := f (kv w); clock := clock w; calls := calls w; net := net w;
     uuids := uuids w; drawn := drawn w; env := env w |}.

Definition with_clock (f : Z → Z) (w : World) : World :=
  {| kv := kv w; clock := f (clock w); calls := calls w; net := net w;
     uuids := uuids w; drawn := drawn w; env := env w |}.

Inductive Outcome (A : Type) : Type :=
  | Return (a : A)
  | Throw (e : JsError).
Arguments Return {A} _.
Arguments Throw {A} _.

Definition M (A : Type) : Type := World → Outcome A * World.

Definition ret {A} (a : A) : M A := λ w, (Return a, w).

Definition throw {A} (e : JsError) : M A := λ w, (Throw e, w).

Definition bind {A B} (m : M A) (k : A → M B) : M B := λ w,
  match m w with
  | (Return a, w') => k a w'
  | (Throw e, w') => (Throw e, w')
  end.

(** [try { m } catch (error) { h error }] *)
Definition try_catch {A} (m : M A) (h : JsError → M A) : M A := λ w,
  match m w with
  | (Return a, w') => (Return a, w')
  | (Throw e, w') => h e w'
  end.

Notation "'let*' x := m 'in' k" := (bind m (λ x, k))
  (at level 10, x name, m at level 100, k at level 200).
Notation "'do*' m 'in' k" := (bind m (λ _, k))
  (at level 10, m at level 100, k at level 200).

Definition get_world : M World := λ w, (Return w, w).
Definition now : M Z := λ w, (Return (clock w), w).
Definition modify_kv (f : Kv → Kv) : M unit := λ w, (Return tt, with_kv f w).

(** [await fetch(...)]: the call is logged, the clock moves on. *)
Definition fetch (req : HttpRequest) : M HttpResponse := λ w,
  let x := net w (length (calls w)) req in
  let w' := {| kv := kv w; clock := clock w + took x; calls := calls w ++ [req];
               net := net w; uuids := uuids w; drawn := drawn w; env := env w |} in
  match reply x with
  | NetFail msg => (Throw (Error msg), w')
  | NetOk r => (Return r, w')
  end.

(** [await this.delay(ms)] *)
Definition delay (ms : Z) : M unit := λ w, (Return tt, with_clock (λ t, t + ms) w).

(** [crypto.randomUUID()] *)
Definition randomUUID : M string := λ w,
  (Return (uuids w (drawn w)),
   {| kv := kv w; clock := clock w; calls := calls w; net := net w;
      uuids := uuids w; drawn := S (drawn w); env := env w |}).

(** ** [Date.prototype.toISOString]

    The proleptic Gregorian date of a day number (days since 1970-01-01). *)
Definition civil_from_days (z : Z) : Z * Z * Z :=
  let z := z + 719468 in
  let era := z / 146097 in
  let doe := z mod 146097 in
  let yoe := (doe - doe / 1460 + doe / 36524 - doe / 146096) / 365 in
  let y := yoe + era * 400 in
  let doy := doe - (365 * yoe + yoe / 4 - yoe / 100) in
  let mp := (5 * doy + 2) / 153 in
  let d := doy - (153 * mp + 2) / 5 + 1 in
  let m := if mp <? 10 then mp + 3 else mp - 9 in
  (if m <=? 2 then y + 1 else y, m, d).

Fixpoint zeros (n : nat) : string :=
  match n with
  | O => EmptyString
  | S n => String "0" (zeros n)
  end.

(** [String(n).padStart(w, "0")] for a number [n >= 0] *)
Definition pad (w : nat) (n : Z) : string :=
  let s := pretty n in
  zeros (w - String.length s) +:+ s.

Definition fmt_year (y : Z) : string :=
  if (0 <=? y) && (y <=? 9999) then pad 4 y
  else if y <? 0 then "-" +:+ pad 6 (- y)
  else "+" +:+ pad 6 y.

Definition msPerDay : Z := 86400000.

(** The date part, a function of the day number only. *)
Definition isoDate (day : Z) : string :=
  let '(y, m, d) := civil_from_days day in
  fmt_year y +:+ "-" +:+ pad 2 m +:+ "-" +:+ pad 2 d.

Definition isoTime (ms : Z) : string :=
  pad 2 (ms / 3600000) +:+ ":" +:+ pad 2 (ms / 60000 mod 60) +:+ ":" +:+
  pad 2 (ms / 1000 mod 60) +:+ "." +:+ pad 3 (ms mod 1000).

Definition toISOString (t : Z) : string :=
  isoDate (t / msPerDay) +:+ "T" +:+ isoTime (t mod msPerDay) +:+ "Z".

(** [new Date().toISOString().split('T')[0]] *)
Definition today (t : Z) : string := isoDate (t / msPerDay).

Example toISOString_epoch : toISOString 0 = "1970-01-01T00:00:00.000Z".
Proof. vm_compute. reflexivity. Qed.

Example toISOString_leap : toISOString 1709164800123 = "2024-02-29T00:00:00.123Z".
Proof. vm_compute. reflexivity. Qed.

Example today_before_epoch : today (-1) = "1969-12-31".
Proof. vm_compute. reflexivity. Qed.

(** ** [YouTubeAPIClient] ([src/lib/youtube-api.ts]) *)

Definition baseUrl : string := "https://www.googleapis.com/youtube/v3".
Definition defaultCacheTTL : Z := 5 * 60 * 1000.
Definition subscriptionsCacheTTL : Z := 30 * 60 * 1000.
Definition videosCacheTTL : Z := 10 * 60 * 1000.

(** [x || d] for an optional string: [undefined] and [""] are falsy. *)
Definition str_or (x : option string) (d : string) : string :=
  match x with
  | Some EmptyString | None => d
  | Some s => s
  end.

(** [if (x) { params.set(name, x) }] *)
Definition opt_param (name : string) (x : option string) : list (string * string) :=
  match x with
  | Some EmptyString | None => []
  | Some s => [(name, s)]
  end.

(** *** [hashToken] *)

Definition hex_digit (n : N) : ascii :=
  ascii_of_N (if (n <? 10)%N then 48 + n else 87 + n)%N.

(** [b.toString(16).padStart(2, '0')] *)
Definition byte_hex (b : ascii) : string :=
  String (hex_digit (N_of_ascii b / 16)) (String (hex_digit (N_of_ascii b mod 16)) EmptyString).

Fixpoint hex_of (bytes : string) : string :=
  match bytes with
  | EmptyString => EmptyString
  | String b rest => byte_hex b +:+ hex_of rest
  end.

Definition hashToken (token : string) : string :=
  substring 0 16 (hex_of token).

(** *** Cache management *)

Definition getFromCache (key : string) : M (option ApiResponse) := λ w,
  match kv_get (youtube_cache (kv w)) key (clock w) with
  | None => (Return None, w)
  | Some cacheEntry =>
      if clock w >? expiresAt cacheEntry
      then (Return None, with_kv (with_youtube_cache (λ m, kv_delete m key)) w)
      else (Return (Some (data cacheEntry)), w)
  end.

Definition setCache (key : string) (d : ApiResponse) (ttl : Z) : M unit := λ w,
  let cacheEntry := {| data := d; cachedAt := clock w; expiresAt := clock w + ttl |} in
  (Return tt,
   with_kv (with_youtube_cache (λ m, kv_set m key cacheEntry (Some ttl) (clock w))) w).

(** *** Rate limiting management *)

Definition checkRateLimit : M unit := λ w,
  match kv_get (rate_limit (kv w)) "youtube_api" (clock w) with
  | Some rateLimitInfo =>
      if quotaUsed rateLimitInfo >? 9000
      then (Throw (Error "Approaching daily quota limit"), w)
      else (Return tt, w)
  | None => (Return tt, w)
  end.

Definition handleRateLimit : M unit :=
  let backoffTime := Z.min (1000 * 2 ^ 3) 30000 in
  delay backoffTime.

Definition quotaCost (endpoint : string) : Z :=
  if String.eqb endpoint "subscriptions" then 1
  else if String.eqb endpoint "search" then 100
  else if String.eqb endpoint "videos" then 1
  else 1.

(** The record [trackAPIUsage] writes at instant [t], given the store. *)
Definition updatedUsage (endpoint : string) (t : Z) (m : gmap string (Entry RateLimitInfo)) : RateLimitInfo :=
  let currentUsage :=
    match kv_get m (today t) t with
    | Some r => r
    | None => {| quotaUsed := 0; resetTime := t + 24 * 60 * 60 * 1000; requestCount := 0 |}
    end in
  {| quotaUsed := quotaUsed currentUsage + quotaCost endpoint;
     resetTime := resetTime currentUsage;
     requestCount := requestCount currentUsage + 1 |}.

Definition trackAPIUsage (endpoint : string) (status : Z) : M unit := λ w,
  let usageKey := today (clock w) in
  (Return tt,
   with_kv (with_api_usage (λ m,
     kv_set m usageKey (updatedUsage endpoint (clock w) m) (Some (24 * 60 * 60 * 1000)) (clock w))) w).

(** [getUsageStats] *)
Definition getUsageStats : M (option RateLimitInfo) := λ w,
  (Return (kv_get (api_usage (kv w)) (today (clock w)) (clock w)), w).

(** *** Requests *)

Definition errorReason (r : HttpResponse) : option string :=
  match parsed r with
  | PApiError _ reason => reason
  | _ => None
  end.

Definition errorCode (r : HttpResponse) : option string :=
  match parsed r with
  | PApiError code _ => code
  | _ => None
  end.

Definition apiRequest (path : string) (params : list (string * string)) (accessToken : string) : HttpRequest :=
  {| method := "GET"; url := baseUrl +:+ path; query := params;
     bearer := Some accessToken; form := [] |}.

Definition makeRequest (req : HttpRequest) : M HttpResponse :=
  do* checkRateLimit in
  let* response := fetch req in
  if negb (ok response) then
    if (status response =? 403) && bool_decide (errorReason response = Some "quotaExceeded") then
      throw {| message := "YouTube API quota exceeded"; err_status := Some 403;
               err_code := Some "quotaExceeded"; quotaExceeded := true |}
    else if status response =? 429 then
      do* handleRateLimit in
      throw (Error "Rate limited - retry after backoff")
    else
      throw {| message := "YouTube API error: " +:+ pretty (status response) +:+ " " +:+ statusText response;
               err_status := Some (status response);
               err_code := errorCode response;
               quotaExceeded := false |}
  else ret response.

(** Every thrown value is an [Error] here, so only the first branch of
    [handleAPIError] is reachable: the message is prefixed in place. *)
Definition handleAPIError (error : JsError) (operation : string) : JsError :=
  {| message := operation +:+ " failed: " +:+ message error;
     err_status := err_status error;
     err_code := err_code error;
     quotaExceeded := quotaExceeded error |}.

(** [await response.json() as T] *)
Definition response_json (r : HttpResponse) : M ApiResponse :=
  match parsed r with
  | PApi d => ret d
  | _ => throw (Error "Unexpected response body")
  end.

(** *** Read operations *)

Definition subscriptionsCacheKey (accessToken : string) (maxResults : Z) (pageToken : option string) : string :=
  "subscriptions:" +:+ hashToken accessToken +:+ ":" +:+ str_or pageToken "first" +:+ ":" +:+ pretty maxResults.

Definition getSubscriptions (accessToken : string) (maxResults : Z) (pageToken : option string) : M ApiResponse :=
  let cacheKey := subscriptionsCacheKey accessToken maxResults pageToken in
  let* cached := getFromCache cacheKey in
  match cached with
  | Some d => ret d
  | None =>
      let params :=
        [("part", "snippet"); ("mine", "true"); ("maxResults", pretty maxResults);
         ("order", "alphabetical")]
        ++ opt_param "pageToken" pageToken in
      try_catch
        (let* response := makeRequest (apiRequest "/subscriptions" params accessToken) in
         let* d := response_json response in
         do* setCache cacheKey d subscriptionsCacheTTL in
         do* trackAPIUsage "subscriptions" (status response) in
         ret d)
        (λ error, throw (handleAPIError error "getSubscriptions"))
  end.

Definition channelVideosCacheKey (accessToken : string) (channelId : string) (maxResults : Z)
    (pageToken : option string) (publishedAfter : option Z) : string :=
  "channel_videos:" +:+ channelId +:+ ":" +:+ str_or pageToken "first" +:+ ":" +:+ pretty maxResults
  +:+ ":" +:+ str_or (toISOString <$> publishedAfter) "all".

Definition channelVideosRequest (accessToken : string) (channelId : string) (maxResults : Z)
    (pageToken : option string) (publishedAfter : option Z) : HttpRequest :=
  let params :=
    [("part", "snippet"); ("channelId", channelId); ("type", "video"); ("order", "date");
     ("maxResults", pretty maxResults)]
    ++ opt_param "pageToken" pageToken
    ++ (match publishedAfter with
        | Some t => [("publishedAfter", toISOString t)]
        | None => []
        end) in
  apiRequest "/search" params accessToken.

Definition getChannelVideos (accessToken : string) (channelId : string) (maxResults : Z)
    (pageToken : option string) (publishedAfter : option Z) : M ApiResponse :=
  let cacheKey := channelVideosCacheKey accessToken channelId maxResults pageToken publishedAfter in
  let* cached := getFromCache cacheKey in
  match cached with
  | Some d => ret d
  | None =>
      try_catch
        (let* response := makeRequest
           (channelVideosRequest accessToken channelId maxResults pageToken publishedAfter) in
         let* d := response_json response in
         do* setCache cacheKey d videosCacheTTL in
         do* trackAPIUsage "search" (status response) in
         ret d)
        (λ error, throw (handleAPIError error "getChannelVideos"))
  end.

(** *** Batching *)

(** [l.slice(i, j)] *)
Definition slice {A} (i j : nat) (l : list A) : list A := take (j - i) (drop i l).

(** [for (let i = 0; i < l.length; i += size) batches.push(l.slice(i, i + size))],
    from index [i] on; the loop runs at most [fuel] times. *)
Fixpoint batches_from {A} (fuel : nat) (size : nat) (i : nat) (l : list A) : list (list A) :=
  match fuel with
  | O => []
  | S fuel =>
      if (i <? length l)%nat
      then slice i (i + size) l :: batches_from fuel size (i + size) l
      else []
  end.

Definition batches {A} (size : nat) (l : list A) : list (list A) :=
  batches_from (length l) size 0 l.

(** [batch.sort()]: ascending, by code units. *)
Fixpoint insert_sorted (x : string) (l : list string) : list string :=
  match l with
  | [] => [x]
  | y :: l' => if String.leb x y then x :: l else y :: insert_sorted x l'
  end.

Fixpoint sort (l : list string) : list string :=
  match l with
  | [] => []
  | x :: l' => insert_sorted x (sort l')
  end.

(** [l.join(sep)] *)
Fixpoint join (sep : string) (l : list string) : string :=
  match l with
  | [] => EmptyString
  | [x] => x
  | x :: l' => x +:+ sep +:+ join sep l'
  end.

Definition videoDetailsCacheKey (accessToken : string) (batch : list string) : string :=
  "video_details:" +:+ join "," (sort batch).

Definition videoDetailsRequest (accessToken : string) (batch : list string) : HttpRequest :=
  apiRequest "/videos"
    [("part", "snippet,statistics,contentDetails"); ("id", join "," (sort batch))] accessToken.

(** The body of [for (const batch of batches)]: the data of one batch. *)
Definition batchData (accessToken : string) (batch : list string) : M ApiResponse :=
  let cacheKey := videoDetailsCacheKey accessToken batch in
  let* cached := getFromCache cacheKey in
  match cached with
  | Some d => ret d
  | None =>
      try_catch
        (let* response := makeRequest (videoDetailsRequest accessToken batch) in
         let* d := response_json response in
         do* setCache cacheKey d videosCacheTTL in
         do* trackAPIUsage "videos" (status response) in
         ret d)
        (λ error, throw (handleAPIError error "getVideoDetails"))
  end.

Fixpoint videoDetailsLoop (accessToken : string) (bs : list (list string))
    (allResults : list json) : M (list json) :=
  match bs with
  | [] => ret allResults
  | batch :: rest =>
      let* d := batchData accessToken batch in
      videoDetailsLoop accessToken rest (allResults ++ items d)
  end.

Definition detailsOf (l : list json) : ApiResponse :=
  {| items := l; nextPageToken := None; pageInfo := None |}.

Definition getVideoDetails (accessToken : string) (videoIds : list string) : M ApiResponse :=
  if (length videoIds =? 0)%nat then ret (detailsOf [])
  else
    let* allResults := videoDetailsLoop accessToken (batches 50 videoIds) [] in
    ret (detailsOf allResults).

(** The result a failed channel degrades to. *)
Definition emptyVideoResponse : ApiResponse :=
  {| items := []; nextPageToken := None;
     pageInfo := Some {| totalResults := 0; resultsPerPage := 0 |} |}.

(** [async (channelId) => { try { ... } catch (error) { ... } }]: the
    videos of one channel, or the empty result if the read throws. *)
Definition channelOrEmpty (accessToken : string) (channelId : string)
    (maxResultsPerChannel : Z) (publishedAfter : option Z) : M ApiResponse :=
  try_catch
    (getChannelVideos accessToken channelId maxResultsPerChannel None publishedAfter)
    (λ _, ret emptyVideoResponse).

(** [await Promise.all(batch.map(...))].  The async closures only interact
    through the store; they are run here one after the other, in the order
    of the batch.  That fixes an order for the call log, and has each
    lookup write the cache and the usage record before the next one reads
    them; closures that overlap are the matter of [usageReads]. *)
Fixpoint channelBatch (accessToken : string) (batch : list string) (maxResultsPerChannel : Z)
    (publishedAfter : option Z) : M (list (string * ApiResponse)) :=
  match batch with
  | [] => ret []
  | channelId :: rest =>
      let* videos := channelOrEmpty accessToken channelId maxResultsPerChannel publishedAfter in
      let* others := channelBatch accessToken rest maxResultsPerChannel publishedAfter in
      ret ((channelId, videos) :: others)
  end.

(** [for (const { channelId, videos } of batchResults) results.set(channelId, videos)] *)
Definition setAll (results : gmap string ApiResponse) (batchResults : list (string * ApiResponse))
    : gmap string ApiResponse :=
  foldl (λ m cv, <[cv.1 := cv.2]> m) results batchResults.

Fixpoint channelBatchLoop (accessToken : string) (bs : list (list string))
    (maxResultsPerChannel : Z) (publishedAfter : option Z)
    (results : gmap string ApiResponse) : M (gmap string ApiResponse) :=
  match bs with
  | [] => ret results
  | batch :: rest =>
      let* batchResults := channelBatch accessToken batch maxResultsPerChannel publishedAfter in
      let results := setAll results batchResults in
      do* (match rest with
           | [] => ret tt
           | _ => delay 100
           end) in
      channelBatchLoop accessToken rest maxResultsPerChannel publishedAfter results
  end.

Definition batchGetChannelVideos (accessToken : string) (channelIds : list string)
    (maxResultsPerChannel : Z) (publishedAfter : option Z) : M (gmap string ApiResponse) :=
  channelBatchLoop accessToken (batches 5 channelIds) maxResultsPerChannel publishedAfter ∅.

(** ** [OAuthHandler] ([src/lib/oauth.ts]) *)

Record OAuthHandler := {
  clientId : string;
  clientSecret : string;
  redirectUri : string
}.

Definition tokenEndpoint : string := "https://oauth2.googleapis.com/token".

(** [generateAuthUrl(state)]: the endpoint and its query parameters. *)
Definition generateAuthUrl (h : OAuthHandler) (state : option string) : string * list (string * string) :=
  ("https://accounts.google.com/o/oauth2/v2/auth",
   [("client_id", clientId h); ("redirect_uri", redirectUri h); ("response_type", "code");
    ("scope", "https://www.googleapis.com/auth/youtube.readonly");
    ("access_type", "offline"); ("prompt", "consent")]
   ++ opt_param "state" state).

(** Replies are taken to have their declared type: an ok reply whose body
    is not a token object is treated like one that is not JSON. *)
Definition token_json (r : HttpResponse) : M TokenJson :=
  match parsed r with
  | PTokens t => ret t
  | _ => throw (Error "Unexpected response body")
  end.

Definition exchangeCodeForTokens (h : OAuthHandler) (code : string) : M TokenResponse :=
  let* response := fetch
    {| method := "POST"; url := tokenEndpoint; query := []; bearer := None;
       form := [("client_id", clientId h); ("client_secret", clientSecret h); ("code", code);
                ("grant_type", "authorization_code"); ("redirect_uri", redirectUri h)] |} in
  if negb (ok response) then
    throw (Error ("OAuth token exchange failed: " +:+ text response))
  else
    let* t := token_json response in
    ret {| tr_access_token := access_token t;
           tr_refresh_token := str_or (tj_refresh_token t) "";
           tr_expires_in := expires_in t;
           tr_token_type := token_type t;
           tr_scope := scope t |}.

Definition refreshRequest (h : OAuthHandler) (refreshToken : string) : HttpRequest :=
  {| method := "POST"; url := tokenEndpoint; query := []; bearer := None;
     form := [("client_id", clientId h); ("client_secret", clientSecret h);
              ("refresh_token", refreshToken); ("grant_type", "refresh_token")] |}.

Definition refreshAccessToken (h : OAuthHandler) (refreshToken : string) : M TokenResponse :=
  let* response := fetch (refreshRequest h refreshToken) in
  if negb (ok response) then
    throw (Error ("Token refresh failed: " +:+ text response))
  else
    let* tokenData := token_json response in
    (* If no new refresh token is provided, keep the existing one *)
    ret {| tr_access_token := access_token tokenData;
           tr_refresh_token := str_or (tj_refresh_token tokenData) refreshToken;
           tr_expires_in := expires_in tokenData;
           tr_token_type := token_type tokenData;
           tr_scope := scope tokenData |}.

Definition storeTokens (userId : string) (tokens : TokenResponse) : M string :=
  let* sessionId := randomUUID in
  let* t := now in
  let expiresAt := t + tr_expires_in tokens * 1000 in
  let session :=
    {| id := sessionId; userId := userId;
       accessToken := tr_access_token tokens; refreshToken := tr_refresh_token tokens;
       tokenExpiresAt := expiresAt; createdAt := t; lastAccessed := t |} in
  do* modify_kv (with_sessions (λ m, kv_set m sessionId session None t)) in
  (* Also store by userId for easy lookup *)
  do* modify_kv (with_user_sessions (λ m, kv_set m userId sessionId None t)) in
  ret sessionId.

Definition touch (session : UserSession) (t : Z) : UserSession :=
  {| id := id session; userId := userId session;
     accessToken := accessToken session; refreshToken := refreshToken session;
     tokenExpiresAt := tokenExpiresAt session; createdAt := createdAt session;
     lastAccessed := t |}.

Definition getStoredTokens (sessionId : string) : M (option UserSession) :=
  let* w := get_world in
  match kv_get (sessions (kv w)) sessionId (clock w) with
  | None => ret None
  | Some stored =>
      (* Update last accessed time *)
      let session := touch stored (clock w) in
      do* modify_kv (with_sessions (λ m, kv_set m sessionId session None (clock w))) in
      ret (Some session)
  end.

Definition getUserSession (userId : string) : M (option UserSession) :=
  let* w := get_world in
  match kv_get (user_sessions (kv w)) userId (clock w) with
  | None | Some EmptyString => ret None
  | Some sessionId => getStoredTokens sessionId
  end.

Definition deleteSession (sessionId : string) : M unit :=
  let* session := getStoredTokens sessionId in
  match session with
  | Some session =>
      do* modify_kv (with_sessions (λ m, kv_delete m sessionId)) in
      modify_kv (with_user_sessions (λ m, kv_delete m (userId session)))
  | None => ret tt
  end.

Definition bufferTime : Z := 5 * 60 * 1000.

(** [isTokenExpired(session)], with [Date.now()] passed in. *)
Definition isTokenExpired (t : Z) (session : UserSession) : bool :=
  t >? tokenExpiresAt session - bufferTime.

Definition ensureValidToken (h : OAuthHandler) (session : UserSession) : M UserSession :=
  let* t := now in
  if isTokenExpired t session then
    try_catch
      (let* newTokens := refreshAccessToken h (refreshToken session) in
       let* t' := now in
       (* Update session with new tokens *)
       let updatedSession :=
         {| id := id session; userId := userId session;
            accessToken := tr_access_token newTokens;
            refreshToken := tr_refresh_token newTokens;
            tokenExpiresAt := t' + tr_expires_in newTokens * 1000;
            createdAt := createdAt session;
            lastAccessed := t' |} in
       do* modify_kv (with_sessions (λ m, kv_set m (id session) updatedSession None t')) in
       ret updatedSession)
      (λ error,
         (* If refresh fails, delete the invalid session *)
         do* deleteSession (id session) in
         throw (Error ("Token refresh failed: " +:+ message error)))
  else ret session.

Definition generateState : M string := randomUUID.

(** ** Route handlers ([src/routes/api/auth/login.ts], [callback.ts]) *)

Record Request := {
  req_method : string;
  origin : string;
  searchParams : list (string * string)
}.

Inductive Location : Type :=
  | Path (p : string)
  | External (base : string) (params : list (string * string)).

Record Response := {
  resp_status : Z;
  resp_body : option string;
  location : option Location;
  session_cookie : option string
}.

Definition plain (body : string) (st : Z) : Response :=
  {| resp_status := st; resp_body := Some body; location := None; session_cookie := None |}.

Definition redirect (l : Location) : Response :=
  {| resp_status := 302; resp_body := None; location := Some l; session_cookie := None |}.

(** [url.searchParams.get(name)] *)
Fixpoint searchParam (name : string) (ps : list (string * string)) : option string :=
  match ps with
  | [] => None
  | (k, v) :: ps' => if String.eqb k name then Some v else searchParam name ps'
  end.

Definition falsy (x : option string) : bool :=
  match x with
  | Some EmptyString | None => true
  | Some _ => false
  end.

Definition getenv (name : string) : M (option string) := λ w, (Return (env w name), w).

Definition stateTTL : Z := 10 * 60 * 1000.

Definition login (req : Request) : M Response :=
  if negb (String.eqb (req_method req) "GET") then ret (plain "Method not allowed" 405)
  else
    try_catch
      (let* cid := getenv "GOOGLE_CLIENT_ID" in
       let* secret := getenv "GOOGLE_CLIENT_SECRET" in
       let* uri := getenv "OAUTH_REDIRECT_URI" in
       if falsy cid || falsy secret then ret (plain "OAuth configuration missing" 500)
       else
         let oauthHandler :=
           {| clientId := str_or cid ""; clientSecret := str_or secret "";
              redirectUri := str_or uri (origin req +:+ "/api/auth/callback") |} in
         (* Generate state for CSRF protection *)
         let* state := generateState in
         (* Store state in KV for verification *)
         let* t := now in
         do* modify_kv (with_oauth_states (λ m,
               kv_set m state {| st_createdAt := t; used := false |} (Some stateTTL) t)) in
         let '(base, params) := generateAuthUrl oauthHandler (Some state) in
         ret (redirect (External base params)))
      (λ _, ret (plain "Internal server error" 500)).

Definition markUsed (stateData : StateData) : StateData :=
  {| st_createdAt := st_createdAt stateData; used := true |}.

Definition userInfoRequest (access : string) : HttpRequest :=
  {| method := "GET"; url := "https://www.googleapis.com/oauth2/v2/userinfo"; query := [];
     bearer := Some access; form := [] |}.

Definition callback (req : Request) : M Response :=
  if negb (String.eqb (req_method req) "GET") then ret (plain "Method not allowed" 405)
  else
    try_catch
      (let code := searchParam "code" (searchParams req) in
       let state := searchParam "state" (searchParams req) in
       let error := searchParam "error" (searchParams req) in
       (* Handle OAuth errors *)
       if negb (falsy error) then ret (redirect (Path "/?error=oauth_error"))
       else if falsy code || falsy state then
         ret (plain "Missing authorization code or state" 400)
       else
         let code := str_or code "" in
         let state := str_or state "" in
         (* Verify state to prevent CSRF attacks *)
         let* w := get_world in
         match kv_get (oauth_states (kv w)) state (clock w) with
         | None => ret (plain "Invalid or expired state" 400)
         | Some stateData =>
             if used stateData then ret (plain "Invalid or expired state" 400)
             else
               (* Mark state as used *)
               do* modify_kv (with_oauth_states (λ m,
                     kv_set m state (markUsed stateData) None (clock w))) in
               let* cid := getenv "GOOGLE_CLIENT_ID" in
               let* secret := getenv "GOOGLE_CLIENT_SECRET" in
               let* uri := getenv "OAUTH_REDIRECT_URI" in
               if falsy cid || falsy secret then ret (plain "OAuth configuration missing" 500)
               else
                 let oauthHandler :=
                   {| clientId := str_or cid ""; clientSecret := str_or secret "";
                      redirectUri := str_or uri (origin req +:+ "/api/auth/callback") |} in
                 (* Exchange code for tokens *)
                 let* tokens := exchangeCodeForTokens oauthHandler code in
                 (* Get user info from Google to create a user ID *)
                 let* userInfoResponse := fetch (userInfoRequest (tr_access_token tokens)) in
                 if negb (ok userInfoResponse) then throw (Error "Failed to fetch user info")
                 else
                   match parsed userInfoResponse with
                   | PUserInfo userId =>
                       (* Store tokens and create session *)
                       let* sessionId := storeTokens userId tokens in
                       ret {| resp_status := 302; resp_body := None;
                              location := Some (Path "/?auth=success");
                              session_cookie := Some sessionId |}
                   | _ => throw (Error "Unexpected response body")
                   end
         end)
      (λ _, ret (redirect (Path "/?error=auth_failed"))).

(** * The auth middleware, logout and the usage route *)

(** ** Cookies and JSON responses *)

(** A request together with its cookies, as [getCookies(request.headers)]
    reads them. *)
Record CookieRequest := {
  request : Request;
  cookies : gmap string string
}.

(** [getSessionFromCookies]: [cookies.session_id || null] *)
Definition getSessionFromCookies (req : CookieRequest) : option string :=
  match cookies req !! "session_id" with
  | Some EmptyString | None => None
  | Some sessionId => Some sessionId
  end.

Record Cookie := {
  cookie_name : string;
  cookie_value : string;
  httpOnly : bool;
  secure : bool;
  sameSite : string;
  maxAge : Z;
  cookie_path : string
}.

(** The cookie [setSessionCookie] sets. *)
Definition sessionCookie (sessionId : string) : Cookie :=
  {| cookie_name := "session_id"; cookie_value := sessionId; httpOnly := true; secure := true;
     sameSite := "Lax"; maxAge := 30 * 24 * 60 * 60; cookie_path := "/" |}.

(** The cookie [clearSessionCookie] sets. *)
Definition clearedCookie : Cookie :=
  {| cookie_name := "session_id"; cookie_value := ""; httpOnly := true; secure := true;
     sameSite := "Lax"; maxAge := 0; cookie_path := "/" |}.

Inductive Content : Type :=
  | TextBody (s : string)
  | JsonBody (j : json).          (* [JSON.stringify(j)] *)

Record JsonResponse := {
  js_status : Z;
  js_body : Content;
  js_headers : list (string * string);
  js_cookie : option Cookie
}.

(** [new Response(JSON.stringify(body), { status, headers: { "Content-Type": ... } })] *)
Definition jsonResponse (st : Z) (body : json) : JsonResponse :=
  {| js_status := st; js_body := JsonBody body;
     js_headers := [("Content-Type", "application/json")]; js_cookie := None |}.

Definition errorResponse (st : Z) (msg : string) : JsonResponse :=
  jsonResponse st (JObj [("error", JStr msg)]).

(** ** The auth middleware ([src/lib/auth-middleware.ts]) *)

(** [AuthenticatedRequest]: the request, with the session and the user
    once they are attached.  Of the user object the replies of the
    embedding carry the [id]; [email], [name] and [picture] are copied
    from the same reply in the same statement. *)
Record AuthenticatedRequest := {
  areq : CookieRequest;
  auth_session : option UserSession;
  auth_user : option string
}.

Definition anonymous (req : CookieRequest) : AuthenticatedRequest :=
  {| areq := req; auth_session := None; auth_user := None |}.

(** [new OAuthHandler(kv, clientId || "", clientSecret || "", redirectUri || "")] *)
Definition middlewareHandler (w : World) : OAuthHandler :=
  {| clientId := str_or (env w "GOOGLE_CLIENT_ID") "";
     clientSecret := str_or (env w "GOOGLE_CLIENT_SECRET") "";
     redirectUri := str_or (env w "OAUTH_REDIRECT_URI") "" |}.

Definition requireAuth (req : CookieRequest)
    (handler : AuthenticatedRequest → M JsonResponse) : M JsonResponse :=
  try_catch
    (let* w := get_world in
     let oauthHandler := middlewareHandler w in
     (* Get session ID from cookies *)
     match getSessionFromCookies req with
     | None => ret (errorResponse 401 "Authentication required")
     | Some sessionId =>
         (* Get session from storage *)
         let* session := getStoredTokens sessionId in
         match session with
         | None => ret (errorResponse 401 "Invalid session")
         | Some session =>
             try_catch
               ((* Ensure token is valid (refresh if needed) *)
                let* validSession := ensureValidToken oauthHandler session in
                (* Get user info *)
                let* userInfoResponse := fetch (userInfoRequest (accessToken validSession)) in
                if negb (ok userInfoResponse) then throw (Error "Failed to fetch user info")
                else
                  match parsed userInfoResponse with
                  | PUserInfo userInfo =>
                      (* Call the protected handler *)
                      handler {| areq := req; auth_session := Some validSession;
                                 auth_user := Some userInfo |}
                  | _ => throw (Error "Unexpected response body")
                  end)
               (λ _, ret (errorResponse 401 "Token validation failed"))
         end
     end)
    (λ _, ret (errorResponse 500 "Internal server error")).

(** The identity [optionalAuth] attaches to the request, if any: every
    failure on the way is caught and leaves the request as it is. *)
Definition optionalIdentity (req : CookieRequest) : M AuthenticatedRequest :=
  let* w := get_world in
  let oauthHandler := middlewareHandler w in
  match getSessionFromCookies req with
  | None => ret (anonymous req)
  | Some sessionId =>
      try_catch
        (let* session := getStoredTokens sessionId in
         match session with
         | None => ret (anonymous req)
         | Some session =>
             let* validSession := ensureValidToken oauthHandler session in
             let* userInfoResponse := fetch (userInfoRequest (accessToken validSession)) in
             if ok userInfoResponse then
               match parsed userInfoResponse with
               | PUserInfo userInfo =>
                   ret {| areq := req; auth_session := Some validSession;
                          auth_user := Some userInfo |}
               | _ => throw (Error "Unexpected response body")
               end
             else ret (anonymous req)
         end)
        (λ _, (* Silently fail for optional auth *) ret (anonymous req))
  end.

(** [optionalAuth]: the handler is called with the request, which is one
    object throughout: the outer [catch] calls the handler on it again. *)
Definition optionalAuth (req : CookieRequest)
    (handler : AuthenticatedRequest → M JsonResponse) : M JsonResponse :=
  let* authReq := optionalIdentity req in
  try_catch (handler authReq) (λ _, handler authReq).

(** ** [src/routes/api/auth/logout.ts] *)

Definition logout (req : CookieRequest) : M JsonResponse :=
  if negb (String.eqb (req_method (request req)) "POST") then
    ret {| js_status := 405; js_body := TextBody "Method not allowed"; js_headers := [];
           js_cookie := None |}
  else
    try_catch
      (do* (match getSessionFromCookies req with
            | Some sessionId => deleteSession sessionId
            | None => ret tt
            end) in
       ret {| js_status := 200; js_body := JsonBody (JObj [("success", JBool true)]);
              js_headers := [("Content-Type", "application/json")];
              js_cookie := Some clearedCookie |})
      (λ _, ret (errorResponse 500 "Logout failed")).

(** ** The usage and cache route ([src/unnamed/part_008]) *)

(** [clearCache(pattern)]: both branches only log. *)
Definition clearCache (pattern : option string) : M unit := ret tt.

(** [JSON.stringify] of a usage record; a [Date] prints as its ISO string. *)
Definition usageJson (usageStats : option RateLimitInfo) : json :=
  match usageStats with
  | Some r => JObj [("quotaUsed", JNum (quotaUsed r)); ("resetTime", JStr (toISOString (resetTime r)));
                    ("requestCount", JNum (requestCount r))]
  | None => JNull
  end.

Definition stats (req : CookieRequest) : M JsonResponse :=
  try_catch
    (let* cid := getenv "GOOGLE_CLIENT_ID" in
     let* secret := getenv "GOOGLE_CLIENT_SECRET" in
     if falsy cid || falsy secret then ret (errorResponse 500 "OAuth configuration missing")
     else
       match getSessionFromCookies req with
       | None => ret (errorResponse 401 "Not authenticated")
       | Some sessionId =>
           let* session := getStoredTokens sessionId in
           match session with
           | None => ret (errorResponse 401 "Invalid session")
           | Some _ =>
               if String.eqb (req_method (request req)) "GET" then
                 let* usageStats := getUsageStats in
                 ret {| js_status := 200;
                        js_body := JsonBody (JObj
                          [("usageStats", usageJson usageStats);
                           ("quotaLimit", JNum 10000);
                           ("quotaRemaining",
                            JNum (match usageStats with
                                  | Some r => 10000 - quotaUsed r
                                  | None => 10000
                                  end))]);
                        js_headers := [("Content-Type", "application/json");
                                       ("Cache-Control", "private, no-cache")];
                        js_cookie := None |}
               else if String.eqb (req_method (request req)) "DELETE" then
                 let pattern := searchParam "pattern" (searchParams (request req)) in
                 do* clearCache (if falsy pattern then None else pattern) in
                 ret (jsonResponse 200 (JObj
                        [("message", JStr "Cache cleared successfully");
                         ("pattern", JStr (str_or pattern "all"))]))
               else
                 ret {| js_status := 405; js_body := TextBody "Method not allowed";
                        js_headers := []; js_cookie := None |}
           end
       end)
    (λ error, ret (jsonResponse 500 (JObj
       [("error", JStr "Failed to process request");
        ("message", JStr (if String.eqb (message error) "" then "Unknown error"
                          else message error))]))).

(** * Handlers cut at their awaits

    A handler runs without interruption up to its next [await]; while it
    waits, another request may run.  Where a handler reads a record and
    writes it back after an [await], it is cut here at that point, so that
    the runs of two requests can be interleaved. *)

(** ** [callback], cut after the read of the state record *)

(** What [callback] holds once [await kv.get(["oauth_states", state])] has
    returned and its result has been tested: the response it returns, or
    the code, the state and the state record it goes on with. *)
Inductive Verified : Type :=
  | Answered (response : Response)
  | Pending (code state : string) (stateData : StateData).

(** [callback.ts], lines 8-46 *)
Definition callback_read (req : Request) : M Verified :=
  if negb (String.eqb (req_method req) "GET") then
    ret (Answered (plain "Method not allowed" 405))
  else
    let code := searchParam "code" (searchParams req) in
    let state := searchParam "state" (searchParams req) in
    let error := searchParam "error" (searchParams req) in
    if negb (falsy error) then ret (Answered (redirect (Path "/?error=oauth_error")))
    else if falsy code || falsy state then
      ret (Answered (plain "Missing authorization code or state" 400))
    else
      let code := str_or code "" in
      let state := str_or state "" in
      let* w := get_world in
      match kv_get (oauth_states (kv w)) state (clock w) with
      | None => ret (Answered (plain "Invalid or expired state" 400))
      | Some stateData =>
          if used stateData then ret (Answered (plain "Invalid or expired state" 400))
          else ret (Pending code state stateData)
      end.

(** [callback.ts], lines 48-113: from [await kv.set(..., used: true)] on *)
Definition callback_resume (req : Request) (v : Verified) : M Response :=
  match v with
  | Answered response => ret response
  | Pending code state stateData =>
      try_catch
        (let* t := now in
         do* modify_kv (with_oauth_states (λ m, kv_set m state (markUsed stateData) None t)) in
         let* cid := getenv "GOOGLE_CLIENT_ID" in
         let* secret := getenv "GOOGLE_CLIENT_SECRET" in
         let* uri := getenv "OAUTH_REDIRECT_URI" in
         if falsy cid || falsy secret then ret (plain "OAuth configuration missing" 500)
         else
           let oauthHandler :=
             {| clientId := str_or cid ""; clientSecret := str_or secret "";
                redirectUri := str_or uri (origin req +:+ "/api/auth/callback") |} in
           let* tokens := exchangeCodeForTokens oauthHandler code in
           let* userInfoResponse := fetch (userInfoRequest (tr_access_token tokens)) in
           if negb (ok userInfoResponse) then throw (Error "Failed to fetch user info")
           else
             match parsed userInfoResponse with
             | PUserInfo userId =>
                 let* sessionId := storeTokens userId tokens in
                 ret {| resp_status := 302; resp_body := None;
                        location := Some (Path "/?auth=success");
                        session_cookie := Some sessionId |}
             | _ => throw (Error "Unexpected response body")
             end)
        (λ _, ret (redirect (Path "/?error=auth_failed")))
  end.

(** Two callbacks that overlap: the store serves the read of the second
    before the write of the first. *)
Definition overlapping (first second : Request) : M (Response * Response) :=
  let* a := callback_read first in
  let* b := callback_read second in
  let* ra := callback_resume first a in
  let* rb := callback_resume second b in
  ret (ra, rb).

(** ** [trackAPIUsage], cut after the read of the day's record *)

(** [youtube-api.ts], lines 436-444: the key of the day and the usage
    the call goes on with. *)
Definition usageRead : M (string * RateLimitInfo) := λ w,
  let today := today (clock w) in
  (Return (today,
           match kv_get (api_usage (kv w)) today (clock w) with
           | Some r => r
           | None => {| quotaUsed := 0; resetTime := clock w + 24 * 60 * 60 * 1000;
                        requestCount := 0 |}
           end), w).

(** [youtube-api.ts], lines 446-467: the record is written from what was
    read. *)
Definition usageWrite (endpoint : string) (read : string * RateLimitInfo) : M unit := λ w,
  let '(usageKey, currentUsage) := read in
  (Return tt,
   with_kv (with_api_usage (λ m,
     kv_set m usageKey
       {| quotaUsed := quotaUsed currentUsage + quotaCost endpoint;
          resetTime := resetTime currentUsage;
          requestCount := requestCount currentUsage + 1 |}
       (Some (24 * 60 * 60 * 1000)) (clock w))) w).

(** [n] calls that overlap: each has read the day's record before any has
    written it, as the lookups of one round of [batchGetChannelVideos] may. *)
Fixpoint usageReads (n : nat) : M (list (string * RateLimitInfo)) :=
  match n with
  | O => ret []
  | S n => let* r := usageRead in let* rs := usageReads n in ret (r :: rs)
  end.

Fixpoint usageWrites (endpoint : string) (reads : list (string * RateLimitInfo)) : M unit :=
  match reads with
  | [] => ret tt
  | r :: rs => do* usageWrite endpoint r in usageWrites endpoint rs
  end.

Definition overlappingUsage (endpoint : string) (n : nat) : M unit :=
  let* reads := usageReads n in usageWrites endpoint reads.

(** * Notions and scenarios used in the statements *)

Ltac run :=
  unfold bind, ret, throw, try_catch, now, get_world, modify_kv, getenv; cbn beta iota.

(** ** Cache reads *)

(** Where a cache read leaves the rest of the world alone. *)
Definition same_but_cache (w w' : World) (key : string) : Prop :=
  clock w' = clock w ∧ calls w' = calls w
  ∧ sessions (kv w') = sessions (kv w)
  ∧ user_sessions (kv w') = user_sessions (kv w)
  ∧ oauth_states (kv w') = oauth_states (kv w)
  ∧ rate_limit (kv w') = rate_limit (kv w)
  ∧ api_usage (kv w') = api_usage (kv w)
  ∧ ∀ k, k ≠ key → youtube_cache (kv w') !! k = youtube_cache (kv w) !! k.

Definition cached_world (key : string) (e : Entry CacheEntry) (t : Z) : World :=
  {| kv := with_youtube_cache (λ m, <[key := e]> m) kv_empty;
     clock := t; calls := [];
     net := λ _ _, {| reply := NetFail "offline"; took := 0 |};
     uuids := λ _, EmptyString; drawn := 0; env := λ _, None |}.

Definition stale_entry : Entry CacheEntry :=
  {| value := {| data := detailsOf [JStr "v1"]; cachedAt := 0; expiresAt := 600000 |};
     expireAt := None |}.

(** ** Quota accounting *)

(** [N] calls of [trackAPIUsage], one after the other, the i-th made at
    the instant [ts_i]. *)
Fixpoint trackCalls (endpoint : string) (status : Z) (ts : list Z) : M unit :=
  match ts with
  | [] => ret tt
  | t :: ts' =>
      do* (λ w, (Return tt, with_clock (λ _, t) w)) in
      do* trackAPIUsage endpoint status in
      trackCalls endpoint status ts'
  end.

(** What [trackAPIUsage] takes as the current usage of the day of [t]. *)
Definition currentUsage (m : gmap string (Entry RateLimitInfo)) (t : Z) : Z * Z :=
  match kv_get m (today t) t with
  | Some r => (quotaUsed r, requestCount r)
  | None => (0, 0)
  end.

Definition blank_world (t : Z) : World :=
  {| kv := kv_empty; clock := t; calls := [];
     net := λ _ _, {| reply := NetFail "offline"; took := 0 |};
     uuids := λ _, EmptyString; drawn := 0; env := λ _, None |}.

(** ** Sessions *)

Definition sample_tokens (access : string) : TokenResponse :=
  {| tr_access_token := access; tr_refresh_token := "refresh"; tr_expires_in := 3600;
     tr_token_type := "Bearer"; tr_scope := "youtube.readonly" |}.

Definition numbered_world (t : Z) : World :=
  {| kv := kv_empty; clock := t; calls := [];
     net := λ _ _, {| reply := NetFail "offline"; took := 0 |};
     uuids := λ n, "session-" +:+ pretty (Z.of_nat n); drawn := 0; env := λ _, None |}.

(** The same user signs in twice: the pointer moves on to the second session. *)
Definition two_logins : World :=
  snd (storeTokens "user-1" (sample_tokens "access-b")
         (snd (storeTokens "user-1" (sample_tokens "access-a") (numbered_world 0)))).

(** ** Token refresh *)

Definition granted (h : OAuthHandler) (session : UserSession) (w : World) : Exchange :=
  net w (length (calls w)) (refreshRequest h (refreshToken session)).

Definition handler0 : OAuthHandler :=
  {| clientId := "client"; clientSecret := "secret";
     redirectUri := "https://app.example/api/auth/callback" |}.

Definition session0 : UserSession :=
  {| id := "session-0"; userId := "user-1"; accessToken := "access-a";
     refreshToken := "refresh"; tokenExpiresAt := 60000; createdAt := 0; lastAccessed := 0 |}.

(** A provider that answers every request with a token living [lifetime] seconds. *)
Definition granting (lifetime : Z) : nat → HttpRequest → Exchange := λ _ _,
  {| reply := NetOk {| status := 200; statusText := "OK"; text := "";
                       parsed := PTokens {| access_token := "access-b";
                                            tj_refresh_token := None;
                                            expires_in := lifetime;
                                            token_type := "Bearer";
                                            scope := "youtube.readonly" |} |};
     took := 200 |}.

Definition refusing : nat → HttpRequest → Exchange := λ _ _,
  {| reply := NetOk {| status := 400; statusText := "Bad Request";
                       text := "invalid_grant"; parsed := PInvalid |};
     took := 200 |}.

Definition signed_in (remote : nat → HttpRequest → Exchange) : World :=
  {| kv := with_user_sessions (λ m, kv_set m "user-1" "session-0" None 0)
             (with_sessions (λ m, kv_set m "session-0" session0 None 0) kv_empty);
     clock := 0; calls := []; net := remote;
     uuids := λ _, EmptyString; drawn := 0; env := λ _, None |}.

(** ** The CSRF state *)

(** Time passing between two requests. *)
Definition elapse (d : Z) (w : World) : World := with_clock (λ t, t + d) w.

Definition configured (w : World) : Prop :=
  falsy (env w "GOOGLE_CLIENT_ID") = false ∧ falsy (env w "GOOGLE_CLIENT_SECRET") = false.

(** A callback request that carries an authorization code and [state]. *)
Definition redeems (rq : Request) (state : string) : Prop :=
  req_method rq = "GET"
  ∧ falsy (searchParam "error" (searchParams rq)) = true
  ∧ falsy (searchParam "code" (searchParams rq)) = false
  ∧ searchParam "state" (searchParams rq) = Some state.

(** The state that [login] draws in [w]. *)
Definition issuedState (w : World) : string := uuids w (drawn w).

Definition rejected : Response := plain "Invalid or expired state" 400.

(** A deployment with its configuration, an identity provider that accepts
    every code, and state values drawn in sequence. *)
Definition google : nat → HttpRequest → Exchange := λ _ req,
  if String.eqb (url req) tokenEndpoint then
    {| reply := NetOk {| status := 200; statusText := "OK"; text := "";
                         parsed := PTokens {| access_token := "access-a";
                                              tj_refresh_token := Some "refresh";
                                              expires_in := 3600;
                                              token_type := "Bearer";
                                              scope := "youtube.readonly" |} |};
       took := 150 |}
  else
    {| reply := NetOk {| status := 200; statusText := "OK"; text := "";
                         parsed := PUserInfo "user-1" |};
       took := 50 |}.

Definition deployed : World :=
  {| kv := kv_empty; clock := 0; calls := []; net := google;
     uuids := λ n, "uuid-" +:+ pretty (Z.of_nat n); drawn := 0;
     env := λ name,
       if String.eqb name "GOOGLE_CLIENT_ID" then Some "client"
       else if String.eqb name "GOOGLE_CLIENT_SECRET" then Some "secret"
       else None |}.

Definition login_request : Request :=
  {| req_method := "GET"; origin := "https://app.example"; searchParams := [] |}.

Definition callback_request (code state : string) : Request :=
  {| req_method := "GET"; origin := "https://app.example";
     searchParams := [("code", code); ("state", state)] |}.

(** ** Fingerprints *)

Definition hex_value (c : ascii) : N :=
  let n := N_of_ascii c in
  if (n <? 58)%N then (n - 48)%N else (n - 87)%N.

(** ** The quota check *)

Definition subscriptionPage : ApiResponse :=
  {| items := [JStr "subscription-1"; JStr "subscription-2"]; nextPageToken := None;
     pageInfo := Some {| totalResults := 2; resultsPerPage := 50 |} |}.

(** An upstream that answers every request with the same page. *)
Definition youtube (page : ApiResponse) : nat → HttpRequest → Exchange := λ _ _,
  {| reply := NetOk {| status := 200; statusText := "OK"; text := ""; parsed := PApi page |};
     took := 120 |}.

Definition online (page : ApiResponse) : World :=
  {| kv := kv_empty; clock := 0; calls := []; net := youtube page;
     uuids := λ _, EmptyString; drawn := 0; env := λ _, None |}.

(** A day on which 95 searches have been recorded: 9500 units. *)
Definition busy_day : World :=
  snd (trackCalls "search" 200 (replicate 95 1000) (online subscriptionPage)).

(** ** Chunked detail lookups *)

(** The payload of a successful upstream answer, if it is one. *)
Definition delivers (x : Exchange) : option ApiResponse :=
  match reply x with
  | NetOk r => if ok r then match parsed r with PApi d => Some d | _ => None end else None
  | NetFail _ => None
  end.

(** The world after the upstream call for one chunk: the call is made,
    then its answer is cached under the chunk's key, then one "videos"
    call is recorded. *)
Definition chunkDone (accessToken : string) (batch : list string) (w : World) : World :=
  match fetch (videoDetailsRequest accessToken batch) w with
  | (Return response, w1) =>
      match parsed response with
      | PApi d =>
          snd (trackAPIUsage "videos" (status response)
                 (snd (setCache (videoDetailsCacheKey accessToken batch) d videosCacheTTL w1)))
      | _ => w1
      end
  | (Throw _, w1) => w1
  end.

Definition chunksDone (accessToken : string) (bs : list (list string)) (w : World) : World :=
  foldl (λ w batch, chunkDone accessToken batch w) w bs.

(** What the upstream holds for a chunk, whenever it is asked. *)
Definition upstreamHolds (accessToken : string) (w : World)
    (answer : list string → ApiResponse) (bs : list (list string)) : Prop :=
  ∀ n b, b ∈ bs → delivers (net w n (videoDetailsRequest accessToken b)) = Some (answer b).

(** An upstream that answers a videos request with one item naming the
    ids it was asked for. *)
Definition echo : nat → HttpRequest → Exchange := λ _ req,
  {| reply := NetOk {| status := 200; statusText := "OK"; text := "";
                       parsed := PApi (detailsOf [JStr (default "" (searchParam "id" (query req)))]) |};
     took := 120 |}.

Definition echoed (batch : list string) : ApiResponse :=
  detailsOf [JStr (join "," (sort batch))].

Definition echoing : World :=
  {| kv := kv_empty; clock := 0; calls := []; net := echo;
     uuids := λ _, EmptyString; drawn := 0; env := λ _, None |}.

Definition sampleIds : list string := (λ n, "video-" +:+ pretty (Z.of_nat n)) <$> seq 0 120.

(** ** Channel batches *)

(** The [try] block shared by the read operations: request, parse, cache,
    record. *)
Definition readThrough (req : HttpRequest) (cacheKey : string) (ttl : Z) (endpoint : string)
    (operation : string) : M ApiResponse :=
  try_catch
    (let* response := makeRequest req in
     let* d := response_json response in
     do* setCache cacheKey d ttl in
     do* trackAPIUsage endpoint (status response) in
     ret d)
    (λ error, throw (handleAPIError error operation)).




(** An upstream on which the channel ["UC-down"] fails and every other
    channel has one upload. *)
Definition uploads (channelId : string) : ApiResponse :=
  {| items := [JStr (channelId +:+ "-latest")]; nextPageToken := None;
     pageInfo := Some {| totalResults := 1; resultsPerPage := 10 |} |}.

Definition flaky : nat → HttpRequest → Exchange := λ _ req,
  let channelId := default "" (searchParam "channelId" (query req)) in
  if String.eqb channelId "UC-down" then
    {| reply := NetOk {| status := 500; statusText := "Internal Server Error"; text := "";
                         parsed := PInvalid |};
       took := 80 |}
  else
    {| reply := NetOk {| status := 200; statusText := "OK"; text := "";
                         parsed := PApi (uploads channelId) |};
       took := 80 |}.

Definition flaky_world : World :=
  {| kv := kv_empty; clock := 0; calls := []; net := flaky;
     uuids := λ _, EmptyString; drawn := 0; env := λ _, None |}.

(** ** Reads that go upstream *)

(** The world after a read that went upstream and came back with a page:
    the call is made, the page cached, the call recorded. *)
Definition readDone (req : HttpRequest) (cacheKey : string) (ttl : Z) (endpoint : string)
    (w : World) : World :=
  match fetch req w with
  | (Return response, w1) =>
      match parsed response with
      | PApi d => snd (trackAPIUsage endpoint (status response) (snd (setCache cacheKey d ttl w1)))
      | _ => w1
      end
  | (Throw _, w1) => w1
  end.

Definition subscriptionsRequest (accessToken : string) (maxResults : Z)
    (pageToken : option string) : HttpRequest :=
  apiRequest "/subscriptions"
    ([("part", "snippet"); ("mine", "true"); ("maxResults", pretty maxResults);
      ("order", "alphabetical")] ++ opt_param "pageToken" pageToken) accessToken.

(** ** Sessions and the routes *)

(** The session [storeTokens] creates in [w]. *)
Definition newSession (userId : string) (tokens : TokenResponse) (w : World) : UserSession :=
  {| id := uuids w (drawn w); userId := userId;
     accessToken := tr_access_token tokens; refreshToken := tr_refresh_token tokens;
     tokenExpiresAt := clock w + tr_expires_in tokens * 1000;
     createdAt := clock w; lastAccessed := clock w |}.

(** The handler object the routes build from the environment. *)
Definition routeHandler (origin : string) (w : World) : OAuthHandler :=
  {| clientId := str_or (env w "GOOGLE_CLIENT_ID") "";
     clientSecret := str_or (env w "GOOGLE_CLIENT_SECRET") "";
     redirectUri := str_or (env w "OAUTH_REDIRECT_URI") (origin +:+ "/api/auth/callback") |}.

Definition exchangeRequest (h : OAuthHandler) (code : string) : HttpRequest :=
  {| method := "POST"; url := tokenEndpoint; query := []; bearer := None;
     form := [("client_id", clientId h); ("client_secret", clientSecret h); ("code", code);
              ("grant_type", "authorization_code"); ("redirect_uri", redirectUri h)] |}.

(** The tokens of a successful answer of the token endpoint, if it is one. *)
Definition grants (x : Exchange) : option TokenJson :=
  match reply x with
  | NetOk r => if ok r then match parsed r with PTokens t => Some t | _ => None end else None
  | NetFail _ => None
  end.

(** The user id of a successful answer of the userinfo endpoint. *)
Definition identifies (x : Exchange) : option string :=
  match reply x with
  | NetOk r => if ok r then match parsed r with PUserInfo u => Some u | _ => None end else None
  | NetFail _ => None
  end.

(** The call fails: the remote service cannot be reached, or answers with
    a status outside 200..299. *)
Definition declines (x : Exchange) : bool :=
  match reply x with
  | NetOk r => negb (ok r)
  | NetFail _ => true
  end.

(** The world after [getStoredTokens] has stamped the session. *)
Definition stamped (sessionId : string) (stored : UserSession) (w : World) : World :=
  with_kv (with_sessions (λ m, kv_set m sessionId (touch stored (clock w)) None (clock w))) w.

(** ** Further scenarios *)

(** An upstream whose daily quota is spent. *)
Definition exhausted : nat → HttpRequest → Exchange := λ _ _,
  {| reply := NetOk {| status := 403; statusText := "Forbidden"; text := "";
                       parsed := PApiError (Some "403") (Some "quotaExceeded") |};
     took := 90 |}.

Definition quota_exhausted : World :=
  {| kv := kv_empty; clock := 0; calls := []; net := exhausted;
     uuids := λ _, EmptyString; drawn := 0; env := λ _, None |}.

(** A store in which a record sits under [["rate_limit", "youtube_api"]]. *)
Definition throttled : World :=
  {| kv := {| sessions := ∅; user_sessions := ∅; oauth_states := ∅; youtube_cache := ∅;
              rate_limit := kv_set ∅ "youtube_api"
                              {| quotaUsed := 9500; resetTime := 86400000; requestCount := 95 |}
                              None 0;
              api_usage := ∅ |};
     clock := 1000; calls := []; net := youtube subscriptionPage;
     uuids := λ _, EmptyString; drawn := 0; env := λ _, None |}.

(** An upstream that knows the first fifty sample videos and nothing else. *)
Definition partial_catalogue : nat → HttpRequest → Exchange := λ n req,
  if String.eqb (default "" (searchParam "id" (query req))) (join "," (sort (take 50 sampleIds)))
  then echo n req
  else {| reply := NetOk {| status := 404; statusText := "Not Found"; text := "";
                            parsed := PInvalid |};
          took := 60 |}.

Definition partial_world : World :=
  {| kv := kv_empty; clock := 0; calls := []; net := partial_catalogue;
     uuids := λ _, EmptyString; drawn := 0; env := λ _, None |}.

(** A deployment whose identity provider is [remote]. *)
Definition deployment (remote : nat → HttpRequest → Exchange) : World :=
  {| kv := kv_empty; clock := 0; calls := []; net := remote;
     uuids := λ n, "uuid-" +:+ pretty (Z.of_nat n); drawn := 0;
     env := λ name,
       if String.eqb name "GOOGLE_CLIENT_ID" then Some "client"
       else if String.eqb name "GOOGLE_CLIENT_SECRET" then Some "secret"
       else None |}.

(** One second after [login] has issued its state. *)
Definition awaiting_callback (remote : nat → HttpRequest → Exchange) : World :=
  elapse 1000 (snd (login login_request (deployment remote))).

(** After the callback has signed ["user-1"] in, under the session ["uuid-1"]. *)
Definition logged_in : World :=
  snd (callback (callback_request "code-1" "uuid-0") (awaiting_callback google)).

Definition session1 : UserSession :=
  {| id := "uuid-1"; userId := "user-1"; accessToken := "access-a"; refreshToken := "refresh";
     tokenExpiresAt := 3601200; createdAt := 1200; lastAccessed := 1200 |}.

(** Later the same day, two searches on. *)
Definition after_searches : World :=
  snd (trackCalls "search" 200 [5000; 6000] logged_in).

Definition cookie_request (meth : string) (sessionId : string) : CookieRequest :=
  {| request := {| req_method := meth; origin := "https://app.example"; searchParams := [] |};
     cookies := {[ "session_id" := sessionId ]} |}.

Definition bare_request (meth : string) : CookieRequest :=
  {| request := {| req_method := meth; origin := "https://app.example"; searchParams := [] |};
     cookies := ∅ |}.

(** A protected handler that names the user it was called for. *)
Definition whoami (req : AuthenticatedRequest) : M JsonResponse :=
  ret (jsonResponse 200 (JObj [("user", JStr (default "" (auth_user req)))])).

(** ** Calendar dates *)

(** The day number of a proleptic Gregorian date: the way back from
    [civil_from_days]. *)
Definition days_from_civil (date : Z * Z * Z) : Z :=
  let '(y, m, d) := date in
  let y := if m <=? 2 then y - 1 else y in
  let era := y / 400 in
  let yoe := y mod 400 in
  let mp := if m <=? 2 then m + 9 else m - 3 in
  let doy := (153 * mp + 2) / 5 + d - 1 in
  let doe := yoe * 365 + yoe / 4 - yoe / 100 + doy in
  era * 146097 + doe - 719468.

(** [f] holds of the [n] integers from [i] on. *)
Fixpoint upto (f : Z → bool) (n : nat) (i : Z) : bool :=
  match n with
  | O => true
  | S n => f i && upto f n (i + 1)
  end.

(** ** Entries the store keeps longer *)

(** Deno KV removes an entry at the earliest at the instant asked for with
    [expireIn], not necessarily then.  [kept key x w] is the world [w] in
    which the store keeps the cache entry under [key] until [x] instead
    (for good, if [x] is [None]). *)
Definition kept (key : string) (x : option Z) (w : World) : World :=
  with_kv (with_youtube_cache (alter (λ e, {| value := value e; expireAt := x |}) key)) w.

(** * Properties *)

(** ** Strings *)

Lemma append_length (a b : string) :
  String.length (a +:+ b) = (String.length a + String.length b)%nat.
Proof.
  induction a as [|c a IH]; [reflexivity|].
  change (S (String.length (a +:+ b)) = S (String.length a + String.length b)).
  by rewrite IH.
Qed.

(** ** The store *)

Lemma kv_get_delete_eq {V} (m : gmap string (Entry V)) key t :
  kv_get (kv_delete m key) key t = None.
Proof.
  unfold kv_get, kv_delete. rewrite lookup_delete_eq. reflexivity.
Qed.

Lemma kv_get_absent {V} (m : gmap string (Entry V)) key t :
  m !! key = None → kv_get m key t = None.
Proof.
  intros H. unfold kv_get. rewrite H. reflexivity.
Qed.

Lemma kv_get_dead {V} (m : gmap string (Entry V)) key t t' :
  kv_get m key t = None → t ≤ t' → kv_get m key t' = None.
Proof.
  unfold kv_get, live. destruct (m !! key) as [e|]; [|done].
  destruct (expireAt e) as [x|]; [|done].
  destruct (t <? x) eqn:E; [done|]. intros _ Hle.
  assert ((t' <? x) = false) as -> by lia. reflexivity.
Qed.

(** ** C10: no ids, no work *)

(** C10.  For every access token, [getVideoDetails] on an empty list of
    video ids returns [{ items: [] }] at once: no HTTP call is issued and
    the world (durable store with cache and quota records, clock, call
    log) is left exactly as it was. *)
Theorem getVideoDetails_empty (accessToken : string) (w : World) :
  getVideoDetails accessToken [] w = (Return (detailsOf []), w)
  ∧ items (detailsOf []) = []
  ∧ calls (snd (getVideoDetails accessToken [] w)) = calls w
  ∧ kv (snd (getVideoDetails accessToken [] w)) = kv w.
Proof.
  repeat split; reflexivity.
Qed.

(** ** C4: an expired cache entry is never served *)

(** C4.  For every cache key, if the entry stored under it has an
    [expiresAt] earlier than the instant of the read, [getFromCache]
    reports a miss (it returns [null], not the stored data) and after the
    read no entry is to be found under the key any more; nothing else in
    the world changes. *)
Theorem getFromCache_expired (key : string) (w : World) (e : Entry CacheEntry) :
  youtube_cache (kv w) !! key = Some e →
  expiresAt (value e) < clock w →
  ∃ w', getFromCache key w = (Return None, w')
        ∧ (∀ t, clock w ≤ t → kv_get (youtube_cache (kv w')) key t = None)
        ∧ same_but_cache w w' key.
Proof.
  intros Hk Hexp. unfold getFromCache.
  destruct (kv_get (youtube_cache (kv w)) key (clock w)) as [c|] eqn:Hget.
  - assert (c = value e) as ->.
    { unfold kv_get in Hget. rewrite Hk in Hget.
      destruct (live e (clock w)); congruence. }
    assert ((clock w >? expiresAt (value e)) = true) as -> by lia.
    eexists. split; [reflexivity|]. split.
    + intros t _. simpl. apply kv_get_delete_eq.
    + unfold same_but_cache. simpl. repeat split; try reflexivity.
      intros k Hne. unfold kv_delete. by rewrite lookup_delete_ne.
  - exists w. split; [reflexivity|]. split.
    + intros t Ht. eapply kv_get_dead; eauto.
    + unfold same_but_cache. repeat split; reflexivity.
Qed.

Lemma getFromCache_expired_witness :
  ∃ w', getFromCache "video_details:v1" (cached_world "video_details:v1" stale_entry 600001)
        = (Return None, w')
        ∧ (∀ t, 600001 ≤ t → kv_get (youtube_cache (kv w')) "video_details:v1" t = None)
        ∧ same_but_cache (cached_world "video_details:v1" stale_entry 600001) w' "video_details:v1".
Proof.
  apply (getFromCache_expired "video_details:v1"
           (cached_world "video_details:v1" stale_entry 600001) stale_entry).
  - simpl. apply lookup_insert_eq.
  - simpl. lia.
Defined.

(** At the instant [expiresAt] itself the entry is still served. *)
Example getFromCache_at_expiry :
  fst (getFromCache "video_details:v1" (cached_world "video_details:v1" stale_entry 600000))
  = Return (Some (detailsOf [JStr "v1"])).
Proof. vm_compute. reflexivity. Qed.

(** ** C7: quota accounting *)

Lemma same_day_within (t t' d : Z) :
  t / msPerDay = d → t' / msPerDay = d → t' < t + 24 * 60 * 60 * 1000.
Proof.
  unfold msPerDay. intros H1 H2. Z.div_mod_to_equations. lia.
Qed.

Lemma trackAPIUsage_day endpoint status (w : World) (d q n : Z) :
  clock w / msPerDay = d →
  (∀ t, t / msPerDay = d → currentUsage (api_usage (kv w)) t = (q, n)) →
  ∀ t, t / msPerDay = d →
    currentUsage (api_usage (kv (snd (trackAPIUsage endpoint status w)))) t
    = (q + quotaCost endpoint, n + 1).
Proof.
  intros Hd Hcur t Ht. simpl.
  unfold currentUsage, today. rewrite Ht, <- Hd.
  unfold kv_get at 1, kv_set. rewrite lookup_insert_eq. unfold live. simpl.
  assert ((t <? clock w + 24 * 60 * 60 * 1000) = true) as ->.
  { pose proof (same_day_within (clock w) t d Hd Ht). lia. }
  unfold updatedUsage. specialize (Hcur (clock w) Hd).
  unfold currentUsage in Hcur.
  destruct (kv_get (api_usage (kv w)) (today (clock w)) (clock w)) as [r|];
    simpl; congruence.
Qed.

Lemma trackAPIUsage_other endpoint status (w : World) (key : string) :
  key ≠ today (clock w) →
  api_usage (kv (snd (trackAPIUsage endpoint status w))) !! key = api_usage (kv w) !! key.
Proof.
  intros Hne. simpl. unfold kv_set. by rewrite lookup_insert_ne.
Qed.

Lemma trackCalls_day endpoint status (ts : list Z) (d : Z) :
  Forall (λ t, t / msPerDay = d) ts →
  ∀ (w : World) (q n : Z),
    (∀ t, t / msPerDay = d → currentUsage (api_usage (kv w)) t = (q, n)) →
    ∃ w', trackCalls endpoint status ts w = (Return tt, w')
      ∧ (∀ t, t / msPerDay = d →
           currentUsage (api_usage (kv w')) t
           = (q + Z.of_nat (length ts) * quotaCost endpoint, n + Z.of_nat (length ts)))
      ∧ (∀ key, key ≠ isoDate d → api_usage (kv w') !! key = api_usage (kv w) !! key).
Proof.
  induction 1 as [|t ts Ht Hts IH]; intros w q n Hcur.
  - exists w. split; [reflexivity|]. split; [|done].
    intros t Ht. rewrite Hcur by done. simpl. f_equal; lia.
  - cbn [trackCalls]. unfold bind at 1. cbn beta iota.
    unfold bind at 1.
    set (w1 := with_clock (λ _, t) w).
    assert (Hc1 : clock w1 / msPerDay = d) by exact Ht.
    pose proof (trackAPIUsage_day endpoint status w1 d q n Hc1 Hcur) as Hstep.
    pose proof (λ key, trackAPIUsage_other endpoint status w1 key) as Hoth.
    destruct (trackAPIUsage endpoint status w1) as [o w2] eqn:E.
    assert (o = Return tt) as -> by (unfold trackAPIUsage in E; congruence).
    simpl in Hstep, Hoth.
    destruct (IH w2 _ _ Hstep) as (w' & Hrun & Hday & Hrest).
    exists w'. split; [exact Hrun|]. split.
    + intros t' Ht'. rewrite Hday by done. simpl length. f_equal; lia.
    + intros key Hne. rewrite Hrest by done. apply Hoth.
      unfold today. simpl. rewrite Ht. exact Hne.
Qed.

(** *** The key of a day

    [trackAPIUsage] files the usage of a day under the printed date.  Two
    days are printed alike only if they are the same day. *)

Lemma upto_spec (f : Z → bool) (n : nat) : ∀ i j,
  upto f n i = true → i ≤ j < i + Z.of_nat n → f j = true.
Proof.
  induction n as [|n IH]; intros i j H Hj; [lia|].
  cbn [upto] in H. apply andb_true_iff in H as [Hi Hrest].
  destruct (decide (j = i)) as [->|Hne]; [exact Hi|].
  apply (IH (i + 1)); [exact Hrest|lia].
Qed.

(** On the day [doe] of a 400-year era the calendar arithmetic yields a
    year of the era, a month counted from March, and a day of the month. *)
Lemma within_era (doe : Z) :
  0 ≤ doe < 146097 →
  let yoe := (doe - doe / 1460 + doe / 36524 - doe / 146096) / 365 in
  let doy := doe - (365 * yoe + yoe / 4 - yoe / 100) in
  let mp := (5 * doy + 2) / 153 in
  let d := doy - (153 * mp + 2) / 5 + 1 in
  0 ≤ yoe ≤ 399 ∧ 0 ≤ mp ≤ 11 ∧ 1 ≤ d ≤ 31.
Proof.
  intros Hdoe yoe doy mp d.
  assert (Hy : 0 ≤ yoe ≤ 399) by (unfold yoe; Z.to_euclidean_division_equations; lia).
  assert (Hdoy : 0 ≤ doy ≤ 365)
    by (unfold doy, yoe; Z.to_euclidean_division_equations; lia).
  assert (Hmp : 0 ≤ mp ≤ 11) by (unfold mp; Z.to_euclidean_division_equations; lia).
  split; [exact Hy|]. split; [exact Hmp|].
  unfold d, mp. Z.to_euclidean_division_equations. lia.
Qed.

Lemma civil_from_days_range (z y m d : Z) :
  civil_from_days z = (y, m, d) → 1 ≤ m ≤ 12 ∧ 1 ≤ d ≤ 31.
Proof.
  unfold civil_from_days. cbv zeta.
  pose proof (Z.mod_pos_bound (z + 719468) 146097 ltac:(lia)) as Hdoe.
  pose proof (within_era _ Hdoe) as Hok. cbv zeta in Hok.
  set (doe := (z + 719468) mod 146097) in *.
  set (yoe := (doe - doe / 1460 + doe / 36524 - doe / 146096) / 365) in *.
  set (doy := doe - (365 * yoe + yoe / 4 - yoe / 100)) in *.
  set (mp := (5 * doy + 2) / 153) in *.
  set (dd := doy - (153 * mp + 2) / 5 + 1) in *.
  intros [= <- <- <-].
  destruct (mp <? 10) eqn:E; lia.
Qed.

Lemma days_from_civil_from_days (z : Z) : days_from_civil (civil_from_days z) = z.
Proof.
  unfold civil_from_days. cbv zeta.
  pose proof (Z.mod_pos_bound (z + 719468) 146097 ltac:(lia)) as Hdoe.
  pose proof (within_era _ Hdoe) as Hok. cbv zeta in Hok.
  pose proof (Z.div_mod (z + 719468) 146097 ltac:(lia)) as Hz.
  set (doe := (z + 719468) mod 146097) in *.
  set (era := (z + 719468) / 146097) in *.
  set (yoe := (doe - doe / 1460 + doe / 36524 - doe / 146096) / 365) in *.
  set (doy := doe - (365 * yoe + yoe / 4 - yoe / 100)) in *.
  set (mp := (5 * doy + 2) / 153) in *.
  set (dd := doy - (153 * mp + 2) / 5 + 1) in *.
  assert (Hy : 0 ≤ yoe ≤ 399) by lia.
  assert (Hmp : 0 ≤ mp ≤ 11) by lia.
  set (m := if mp <? 10 then mp + 3 else mp - 9).
  assert (Hback : (if m <=? 2 then m + 9 else m - 3) = mp).
  { unfold m. destruct (mp <? 10) eqn:E.
    - assert ((mp + 3 <=? 2) = false) as -> by lia. lia.
    - assert ((mp - 9 <=? 2) = true) as -> by lia. lia. }
  unfold days_from_civil.
  assert (Hyear : (if m <=? 2 then (if m <=? 2 then yoe + era * 400 + 1 else yoe + era * 400) - 1
                   else (if m <=? 2 then yoe + era * 400 + 1 else yoe + era * 400))
                  = yoe + era * 400) by (destruct (m <=? 2); lia).
  rewrite Hyear, Hback.
  assert (Hera : (yoe + era * 400) / 400 = era).
  { rewrite Z.div_add by lia. rewrite Z.div_small by lia. lia. }
  assert (Hyoe : (yoe + era * 400) mod 400 = yoe).
  { rewrite Z.mod_add by lia. apply Z.mod_small. lia. }
  rewrite Hera, Hyoe. unfold dd, doy. lia.
Qed.

Lemma civil_from_days_inj (z z' : Z) : civil_from_days z = civil_from_days z' → z = z'.
Proof.
  intros H. rewrite <- (days_from_civil_from_days z), <- (days_from_civil_from_days z').
  by rewrite H.
Qed.

(** *** The printed date *)

Lemma append_split (a a' s s' : string) :
  a +:+ s = a' +:+ s' → String.length s = String.length s' → a = a' ∧ s = s'.
Proof.
  revert a'. induction a as [|c a IH]; intros [|c' a'] H Hlen.
  - by split.
  - apply (f_equal String.length) in H. change (String c' a' +:+ s') with (String c' (a' +:+ s')) in H.
    change ("" +:+ s) with s in H. simpl in H. rewrite append_length in H. lia.
  - apply (f_equal String.length) in H. change (String c a +:+ s) with (String c (a +:+ s)) in H.
    change ("" +:+ s') with s' in H. simpl in H. rewrite append_length in H. lia.
  - change (String c (a +:+ s) = String c' (a' +:+ s')) in H. injection H as -> H.
    destruct (IH a' H Hlen) as [-> ->]. by split.
Qed.

Lemma append_assoc (a b c : string) : (a +:+ b) +:+ c = a +:+ b +:+ c.
Proof.
  induction a as [|x a IH]; [reflexivity|].
  change (String x ((a +:+ b) +:+ c) = String x (a +:+ b +:+ c)). by rewrite IH.
Qed.

Lemma zeros_length (n : nat) : String.length (zeros n) = n.
Proof. induction n as [|n IH]; [reflexivity|]. simpl. by rewrite IH. Qed.

(** A number above zero is printed from a digit other than ["0"] on. *)
Lemma pretty_N_go_head (x : N) : ∀ s,
  (0 < x)%N →
  ∃ c r, pretty_N_go x s = String c r
    ∧ c ∈ ["1"; "2"; "3"; "4"; "5"; "6"; "7"; "8"; "9"]%char.
Proof.
  induction (N.lt_wf_0 x) as [x _ IH]; intros s Hx.
  rewrite pretty_N_go_step by done.
  destruct (decide (x < 10)%N) as [Hlt|Hge].
  - rewrite N.div_small by done. rewrite pretty_N_go_0.
    rewrite N.mod_small by done. eexists _, _. split; [reflexivity|].
    assert (x = 1 ∨ x = 2 ∨ x = 3 ∨ x = 4 ∨ x = 5 ∨ x = 6 ∨ x = 7 ∨ x = 8 ∨ x = 9)%N
      as Hc by lia.
    repeat (destruct Hc as [->|Hc]; [repeat constructor|]). subst x. repeat constructor.
  - apply IH.
    + apply N.div_lt; lia.
    + apply N.div_str_pos; lia.
Qed.

Lemma pretty_head (n : Z) :
  0 ≤ n →
  ∃ c r, pretty n = String c r
    ∧ c ∈ ["0"; "1"; "2"; "3"; "4"; "5"; "6"; "7"; "8"; "9"]%char
    ∧ (c = "0"%char → n = 0).
Proof.
  intros Hn. destruct n as [|p|p]; [| |lia].
  - exists "0"%char, EmptyString. split; [reflexivity|]. split; [constructor|done].
  - unfold pretty, pretty_Z, pretty, pretty_positive, pretty, pretty_N.
    destruct (decide (N.pos p = 0%N)) as [|_]; [done|].
    destruct (pretty_N_go_head (N.pos p) "" ltac:(lia)) as (c & r & -> & Hc).
    exists c, r. split; [reflexivity|]. split; [by constructor|].
    intros ->. by repeat (apply elem_of_cons in Hc as [Hc|Hc]; [discriminate|]);
      apply elem_of_nil in Hc.
Qed.

Lemma pad_inj (w : nat) (n n' : Z) : 0 ≤ n → 0 ≤ n' → pad w n = pad w n' → n = n'.
Proof.
  intros Hn Hn'. unfold pad.
  set (p := pretty n). set (p' := pretty n').
  assert (Hgen : ∀ k k' q q' m m',
            q = pretty m → q' = pretty m' → 0 ≤ m → 0 ≤ m' → (k ≤ k')%nat →
            zeros k +:+ q = zeros k' +:+ q' → m = m').
  { clear. intros k k' q q' m m' -> -> Hm Hm' Hk H.
    replace k' with (k + (k' - k))%nat in H by lia.
    assert (Hz : ∀ a b, zeros (a + b) = zeros a +:+ zeros b).
    { intros a b. induction a as [|a IH]; [reflexivity|].
      simpl. change (String "0" (zeros (a + b)) = String "0" (zeros a +:+ zeros b)).
      by rewrite IH. }
    rewrite Hz in H. rewrite append_assoc in H.
    apply (inj (String.append (zeros k))) in H.
    destruct (k' - k)%nat as [|j] eqn:E.
    - change (zeros 0 +:+ pretty m') with (pretty m') in H. by apply (inj pretty) in H.
    - destruct (pretty_head m Hm) as (c & r & Hp & _ & Hzero).
      change (zeros (S j) +:+ pretty m') with (String "0" (zeros j +:+ pretty m')) in H.
      rewrite Hp in H. injection H as -> Hr.
      specialize (Hzero eq_refl). subst m. injection Hp as <-.
      apply (f_equal String.length) in Hr. rewrite append_length, zeros_length in Hr.
      destruct (pretty_head m' Hm') as (c' & r' & Hp' & _). rewrite Hp' in Hr.
      simpl in Hr. lia. }
  intros H.
  destruct (decide (w - String.length p ≤ w - String.length p')%nat) as [Hle|Hgt].
  - exact (Hgen _ _ p p' n n' eq_refl eq_refl Hn Hn' Hle H).
  - symmetry.
    apply (Hgen (w - String.length p')%nat (w - String.length p)%nat p' p n' n
             eq_refl eq_refl Hn' Hn); [lia|by symmetry].
Qed.

Lemma pad_head (w : nat) (n : Z) :
  0 ≤ n →
  ∃ c r, pad w n = String c r
    ∧ c ∈ ["0"; "1"; "2"; "3"; "4"; "5"; "6"; "7"; "8"; "9"]%char.
Proof.
  intros Hn. unfold pad. destruct (pretty_head n Hn) as (c & r & Hp & Hc & _).
  destruct (w - String.length (pretty n))%nat as [|k].
  - exists c, r. by rewrite Hp.
  - eexists _, _. split; [reflexivity|]. constructor.
Qed.

Lemma pad_two_length (n : Z) : 0 ≤ n ≤ 99 → String.length (pad 2 n) = 2%nat.
Proof.
  intros Hn.
  assert (H : upto (λ n, Nat.eqb (String.length (pad 2 n)) 2) 100 0 = true)
    by (vm_compute; reflexivity).
  apply Nat.eqb_eq. apply (upto_spec _ _ 0 n H). lia.
Qed.

Lemma fmt_year_inj (y y' : Z) : fmt_year y = fmt_year y' → y = y'.
Proof.
  assert (Hsign : ∀ (w : nat) (n : Z) (c : ascii) (r : string),
            0 ≤ n → pad w n = String c r → c ≠ "-"%char ∧ c ≠ "+"%char).
  { intros w n c r Hn Hp. destruct (pad_head w n Hn) as (c' & r' & Hp' & Hc).
    rewrite Hp in Hp'. injection Hp' as -> _.
    split; intros ->;
      by repeat (apply elem_of_cons in Hc as [Hc|Hc]; [discriminate|]);
        apply elem_of_nil in Hc. }
  unfold fmt_year.
  destruct ((0 <=? y) && (y <=? 9999)) eqn:E; destruct ((0 <=? y') && (y' <=? 9999)) eqn:E';
    try (apply andb_true_iff in E as [E0 E1]; apply Z.leb_le in E0);
    try (apply andb_true_iff in E' as [E0' E1']; apply Z.leb_le in E0').
  - by apply pad_inj.
  - destruct (pad_head 4 y E0) as (c & r & Hp & _).
    destruct (Hsign _ _ _ _ E0 Hp) as [Hm Hpl]. rewrite Hp.
    destruct (y' <? 0); intros [= -> _]; done.
  - destruct (pad_head 4 y' E0') as (c & r & Hp & _).
    destruct (Hsign _ _ _ _ E0' Hp) as [Hm Hpl]. rewrite Hp.
    destruct (y <? 0); intros [= <- _]; done.
  - destruct (y <? 0) eqn:S; destruct (y' <? 0) eqn:S'; intros [= H];
      [apply Z.ltb_lt in S, S'|apply Z.ltb_ge in S, S']; apply pad_inj in H; lia.
Qed.

(** Two days are printed alike only if they are the same day. *)
Lemma isoDate_inj (day day' : Z) : isoDate day = isoDate day' → day = day'.
Proof.
  unfold isoDate.
  destruct (civil_from_days day) as [[y m] d] eqn:E.
  destruct (civil_from_days day') as [[y' m'] d'] eqn:E'.
  destruct (civil_from_days_range _ _ _ _ E) as [Hm Hd].
  destruct (civil_from_days_range _ _ _ _ E') as [Hm' Hd'].
  intros H.
  apply append_split in H as [Hy H];
    [|rewrite !append_length, !pad_two_length by lia; reflexivity].
  apply (inj (String.append "-")) in H.
  apply append_split in H as [Hmm H];
    [|rewrite !append_length, !pad_two_length by lia; reflexivity].
  apply (inj (String.append "-")) in H.
  apply fmt_year_inj in Hy. apply pad_inj in Hmm; [|lia|lia]. apply pad_inj in H; [|lia|lia].
  subst. apply civil_from_days_inj. by rewrite E, E'.
Qed.

Lemma today_inj (t t' : Z) : today t = today t' → t / msPerDay = t' / msPerDay.
Proof. apply isoDate_inj. Qed.

Lemma currentUsage_other_day (m m' : gmap string (Entry RateLimitInfo)) (t : Z) :
  m' !! today t = m !! today t → currentUsage m' t = currentUsage m t.
Proof. intros H. unfold currentUsage, kv_get. by rewrite H. Qed.

(** *** The day's record, read and written back *)

(** [trackAPIUsage] is the read of the day's record followed by its
    write. *)
Lemma trackAPIUsage_cut (endpoint : string) (status : Z) (w : World) :
  trackAPIUsage endpoint status w = (let* r := usageRead in usageWrite endpoint r) w.
Proof. reflexivity. Qed.

(** C7, as stated, fails: [trackAPIUsage] reads the day's record, waits, and
    writes it back. Five searches whose recordings overlap, each having read
    the empty record before any has written, leave the day's record at 100
    units and 1 request, not at 500 units and 5 requests. *)
Lemma trackAPIUsage_overlapping_loses_updates :
  api_usage (kv (blank_world 1000)) !! isoDate 0 = None
  ∧ currentUsage (api_usage (kv (snd (overlappingUsage "search" 5 (blank_world 1000))))) 1000
    = (100, 1)
  ∧ (Z.of_nat 5 * quotaCost "search", Z.of_nat 5) = (500, 5).
Proof. vm_compute. repeat split; reflexivity. Qed.

(** C7, amended.  For each operation kind with its fixed cost (subscriptions
    1, search 100, videos 1) and every [N]: [N] calls of [trackAPIUsage] of
    that kind made one after the other, each writing the day's record before
    the next reads it, within one calendar day and starting from a store
    without a record for that day, leave the day's record with [quotaUsed =
    N * cost] and [requestCount = N]. The record kept under any other date
    is unchanged, and so is the usage of every other day: two days never
    share a date. *)
Theorem trackAPIUsage_accumulates (endpoint : string) (status : Z) (ts : list Z)
    (d : Z) (w : World) :
  Forall (λ t, t / msPerDay = d) ts →
  api_usage (kv w) !! isoDate d = None →
  quotaCost "subscriptions" = 1 ∧ quotaCost "search" = 100 ∧ quotaCost "videos" = 1
  ∧ ∃ w', trackCalls endpoint status ts w = (Return tt, w')
      ∧ (∀ t, t / msPerDay = d →
           currentUsage (api_usage (kv w')) t
           = (Z.of_nat (length ts) * quotaCost endpoint, Z.of_nat (length ts)))
      ∧ (∀ date, date ≠ isoDate d → api_usage (kv w') !! date = api_usage (kv w) !! date)
      ∧ (∀ d' t, d' ≠ d → t / msPerDay = d' →
           api_usage (kv w') !! isoDate d' = api_usage (kv w) !! isoDate d'
           ∧ currentUsage (api_usage (kv w')) t = currentUsage (api_usage (kv w)) t).
Proof.
  intros Hts Hempty. do 3 (split; [reflexivity|]).
  destruct (trackCalls_day endpoint status ts d Hts w 0 0) as (w' & Hrun & Hday & Hrest).
  { intros t Ht. unfold currentUsage, today. rewrite Ht. by rewrite kv_get_absent. }
  exists w'. split; [exact Hrun|]. split; [exact Hday|]. split; [exact Hrest|].
  intros d' t Hne Ht.
  assert (Hkey : isoDate d' ≠ isoDate d) by (intros H; by apply isoDate_inj in H).
  split; [by apply Hrest|].
  apply currentUsage_other_day. unfold today. rewrite Ht. by apply Hrest.
Qed.

Lemma trackAPIUsage_accumulates_witness :
  quotaCost "subscriptions" = 1 ∧ quotaCost "search" = 100 ∧ quotaCost "videos" = 1
  ∧ ∃ w', trackCalls "search" 200 [1000; 5000; 86399999] (blank_world 0) = (Return tt, w')
      ∧ (∀ t, t / msPerDay = 0 →
           currentUsage (api_usage (kv w')) t
           = (Z.of_nat 3 * quotaCost "search", Z.of_nat 3))
      ∧ (∀ date, date ≠ isoDate 0 →
           api_usage (kv w') !! date = api_usage (kv (blank_world 0)) !! date)
      ∧ (∀ d' t, d' ≠ 0 → t / msPerDay = d' →
           api_usage (kv w') !! isoDate d' = api_usage (kv (blank_world 0)) !! isoDate d'
           ∧ currentUsage (api_usage (kv w')) t
             = currentUsage (api_usage (kv (blank_world 0))) t).
Proof.
  apply (trackAPIUsage_accumulates "search" 200 [1000; 5000; 86399999] 0 (blank_world 0)).
  - repeat constructor.
  - reflexivity.
Defined.

Example trackCalls_three_searches :
  currentUsage (api_usage (kv (snd (trackCalls "search" 200 [1000; 5000; 86399999] (blank_world 0)))))
    86399999 = (300, 3).
Proof. vm_compute. reflexivity. Qed.

(** The next day starts from zero: the key is the date. *)
Example trackCalls_next_day :
  currentUsage (api_usage (kv (snd (trackCalls "search" 200 [1000; 5000; 86399999] (blank_world 0)))))
    86400000 = (0, 0).
Proof. vm_compute. reflexivity. Qed.

(** ** C6: deleting a session *)

(** C6, as stated, fails: with the user's pointer on the newer session
    ["session-1"], deleting the older ["session-0"] removes that pointer. *)
Lemma deleteSession_drops_newer_pointer :
  is_Some (kv_get (sessions (kv two_logins)) "session-0" 0)
  ∧ kv_get (user_sessions (kv two_logins)) "user-1" 0 = Some "session-1"
  ∧ "session-1" ≠ "session-0"
  ∧ kv_get (user_sessions (kv (snd (deleteSession "session-0" two_logins)))) "user-1" 0 = None
  ∧ is_Some (kv_get (sessions (kv (snd (deleteSession "session-0" two_logins)))) "session-1" 0).
Proof.
  split; [vm_compute; eauto|].
  split; [vm_compute; reflexivity|].
  split; [discriminate|].
  split; [vm_compute; reflexivity|].
  vm_compute; eauto.
Qed.

Lemma deleteSession_stored (sessionId : string) (w : World) (stored : UserSession) :
  kv_get (sessions (kv w)) sessionId (clock w) = Some stored →
  ∃ w', deleteSession sessionId w = (Return tt, w')
    ∧ sessions (kv w') !! sessionId = None
    ∧ user_sessions (kv w') !! userId stored = None
    ∧ (∀ k, k ≠ sessionId → sessions (kv w') !! k = sessions (kv w) !! k)
    ∧ (∀ u, u ≠ userId stored → user_sessions (kv w') !! u = user_sessions (kv w) !! u).
Proof.
  intros Hget. unfold deleteSession, getStoredTokens. run. rewrite Hget. run.
  eexists. split; [reflexivity|]. simpl.
  unfold kv_delete, kv_set. repeat split.
  - apply lookup_delete_eq.
  - apply lookup_delete_eq.
  - intros k Hne. rewrite lookup_delete_ne by done. by rewrite lookup_insert_ne.
  - intros u Hne. by rewrite lookup_delete_ne.
Qed.

(** C6, amended.  For every session id present in the store,
    [deleteSession] removes the primary session record and removes the
    secondary pointer of that session's user, whichever session id the
    pointer targets; the records of other sessions and the pointers of
    other users are unchanged. *)
Theorem deleteSession_removes_record_and_pointer (sessionId : string) (w : World)
    (stored : UserSession) (pointer : option string) :
  kv_get (sessions (kv w)) sessionId (clock w) = Some stored →
  kv_get (user_sessions (kv w)) (userId stored) (clock w) = pointer →
  ∃ w', deleteSession sessionId w = (Return tt, w')
    ∧ sessions (kv w') !! sessionId = None
    ∧ user_sessions (kv w') !! userId stored = None
    ∧ (∀ k, k ≠ sessionId → sessions (kv w') !! k = sessions (kv w) !! k)
    ∧ (∀ u, u ≠ userId stored → user_sessions (kv w') !! u = user_sessions (kv w) !! u).
Proof.
  intros Hget _. by apply deleteSession_stored.
Qed.

Lemma deleteSession_removes_record_and_pointer_witness :
  ∃ w', deleteSession "session-1" two_logins = (Return tt, w')
    ∧ sessions (kv w') !! "session-1" = None
    ∧ user_sessions (kv w') !! "user-1" = None
    ∧ (∀ k, k ≠ "session-1" → sessions (kv w') !! k = sessions (kv two_logins) !! k)
    ∧ (∀ u, u ≠ "user-1" → user_sessions (kv w') !! u = user_sessions (kv two_logins) !! u).
Proof.
  apply (deleteSession_removes_record_and_pointer "session-1" two_logins
           {| id := "session-1"; userId := "user-1"; accessToken := "access-b";
              refreshToken := "refresh"; tokenExpiresAt := 3600000; createdAt := 0;
              lastAccessed := 0 |} (Some "session-1")).
  - vm_compute. reflexivity.
  - vm_compute. reflexivity.
Defined.

(** A session id that is not in the store: nothing happens. *)
Lemma deleteSession_unknown (sessionId : string) (w : World) :
  kv_get (sessions (kv w)) sessionId (clock w) = None →
  deleteSession sessionId w = (Return tt, w).
Proof.
  intros Hget. unfold deleteSession, getStoredTokens. run. rewrite Hget. reflexivity.
Qed.

(** ** C2: keeping the token valid *)

Lemma isTokenExpired_false (t : Z) (session : UserSession) :
  isTokenExpired t session = false → t + bufferTime ≤ tokenExpiresAt session.
Proof.
  unfold isTokenExpired, bufferTime. lia.
Qed.

(** After a failed refresh: the world in which the session is deleted. *)
Lemma deleteSession_after_failure (session stored : UserSession) (w : World) :
  sessions (kv w) !! id session = Some {| value := stored; expireAt := None |} →
  userId stored = userId session →
  ∃ w', deleteSession (id session) w = (Return tt, w')
    ∧ sessions (kv w') !! id session = None
    ∧ user_sessions (kv w') !! userId session = None.
Proof.
  intros Hst Hu.
  destruct (deleteSession_stored (id session) w stored)
    as (w' & Hrun & Hs & Hp & _).
  { unfold kv_get. rewrite Hst. reflexivity. }
  exists w'. rewrite <- Hu. auto.
Qed.

(** C2, amended.  For every stored session, [ensureValidToken] either
    returns the session as it is, and then its [tokenExpiresAt] is at least
    5 minutes after the current time; or returns the refreshed session,
    whose [tokenExpiresAt] is the instant of the refresh plus the lifetime
    [expires_in] that the provider granted (hence at least 5 minutes ahead
    whenever that lifetime is at least 300 seconds), and which is then the
    stored record; or raises the token-refresh error, and then the
    session's primary record and the user's secondary index entry have both
    been deleted. *)
Theorem ensureValidToken_valid_or_deleted (h : OAuthHandler) (session stored : UserSession)
    (w : World) :
  sessions (kv w) !! id session = Some {| value := stored; expireAt := None |} →
  userId stored = userId session →
  match ensureValidToken h session w with
  | (Return s, w') =>
      (s = session ∧ w' = w ∧ clock w' + bufferTime ≤ tokenExpiresAt s)
      ∨ (∃ r t, reply (granted h session w) = NetOk r ∧ parsed r = PTokens t
           ∧ clock w' = clock w + took (granted h session w)
           ∧ tokenExpiresAt s = clock w' + expires_in t * 1000
           ∧ (300 ≤ expires_in t → clock w' + bufferTime ≤ tokenExpiresAt s)
           ∧ sessions (kv w') !! id session = Some {| value := s; expireAt := None |})
  | (Throw e, w') =>
      (∃ cause, message e = "Token refresh failed: " +:+ cause)
      ∧ sessions (kv w') !! id session = None
      ∧ user_sessions (kv w') !! userId session = None
  end.
Proof.
  intros Hst Hu. unfold ensureValidToken. run.
  destruct (isTokenExpired (clock w) session) eqn:Hexp.
  2: { left. split; [reflexivity|]. split; [reflexivity|].
       by apply isTokenExpired_false. }
  unfold refreshAccessToken, fetch. run. fold (granted h session w).
  set (w1 := {| kv := kv w; clock := clock w + took (granted h session w);
                calls := calls w ++ [refreshRequest h (refreshToken session)];
                net := net w; uuids := uuids w; drawn := drawn w; env := env w |}).
  assert (Hst1 : sessions (kv w1) !! id session = Some {| value := stored; expireAt := None |})
    by exact Hst.
  destruct (deleteSession_after_failure session stored w1 Hst1 Hu) as (w2 & Hdel & Hs & Hp).
  destruct (reply (granted h session w)) as [msg|r] eqn:Hreply.
  { rewrite Hdel. eauto. }
  destruct (ok r); cbn [negb].
  2: { rewrite Hdel. eauto. }
  unfold token_json.
  destruct (parsed r) as [| | |t|] eqn:Hparsed; run; try (rewrite Hdel; eauto).
  right. exists r, t. simpl. unfold kv_set, bufferTime.
  rewrite lookup_insert_eq. repeat split; auto. lia.
Qed.

(** C2, as stated, fails: the session expires in one minute, the refresh
    succeeds with a lifetime of 60 seconds, and the session returned
    expires less than 5 minutes after the moment of return. *)
Lemma ensureValidToken_short_lifetime :
  match ensureValidToken handler0 session0 (signed_in (granting 60)) with
  | (Return s, w') => tokenExpiresAt s = 60200 ∧ clock w' = 200
                      ∧ tokenExpiresAt s < clock w' + 5 * 60 * 1000
  | (Throw _, _) => False
  end.
Proof.
  vm_compute. repeat split; reflexivity.
Qed.

Lemma ensureValidToken_valid_or_deleted_witness :
  match ensureValidToken handler0 session0 (signed_in refusing) with
  | (Return s, w') =>
      (s = session0 ∧ w' = signed_in refusing ∧ clock w' + bufferTime ≤ tokenExpiresAt s)
      ∨ (∃ r t, reply (granted handler0 session0 (signed_in refusing)) = NetOk r
           ∧ parsed r = PTokens t
           ∧ clock w' = clock (signed_in refusing) + took (granted handler0 session0 (signed_in refusing))
           ∧ tokenExpiresAt s = clock w' + expires_in t * 1000
           ∧ (300 ≤ expires_in t → clock w' + bufferTime ≤ tokenExpiresAt s)
           ∧ sessions (kv w') !! id session0 = Some {| value := s; expireAt := None |})
  | (Throw e, w') =>
      (∃ cause, message e = "Token refresh failed: " +:+ cause)
      ∧ sessions (kv w') !! id session0 = None
      ∧ user_sessions (kv w') !! userId session0 = None
  end.
Proof.
  apply (ensureValidToken_valid_or_deleted handler0 session0 session0 (signed_in refusing)).
  - vm_compute. reflexivity.
  - reflexivity.
Defined.

(** The two other outcomes, on the same session. *)
Example ensureValidToken_refresh_fails :
  match ensureValidToken handler0 session0 (signed_in refusing) with
  | (Throw e, w') =>
      message e = "Token refresh failed: Token refresh failed: invalid_grant"
      ∧ kv w' = kv_empty
  | _ => False
  end.
Proof. vm_compute. split; reflexivity. Qed.

Example ensureValidToken_refreshed :
  match ensureValidToken handler0 session0 (signed_in (granting 3600)) with
  | (Return s, w') => tokenExpiresAt s = 3600200 ∧ accessToken s = "access-b"
                      ∧ refreshToken s = "refresh" ∧ length (calls w') = 1%nat
  | _ => False
  end.
Proof. vm_compute. repeat split; reflexivity. Qed.

(** ** C3: the CSRF state is redeemed at most once *)

Lemma str_or_Some (s d : string) : s ≠ EmptyString → str_or (Some s) d = s.
Proof. destruct s; [congruence|reflexivity]. Qed.

Lemma falsy_Some (s : string) : s ≠ EmptyString → falsy (Some s) = false.
Proof. destruct s; [congruence|reflexivity]. Qed.

Lemma login_issues (req : Request) (w : World) :
  req_method req = "GET" → configured w →
  ∃ resp w', login req w = (Return resp, w')
    ∧ resp_status resp = 302
    ∧ oauth_states (kv w') =
        kv_set (oauth_states (kv w)) (issuedState w)
          {| st_createdAt := clock w; used := false |} (Some stateTTL) (clock w)
    ∧ clock w' = clock w ∧ env w' = env w.
Proof.
  intros Hm [Hc Hs]. unfold login. rewrite Hm. cbn [String.eqb Ascii.eqb Bool.eqb negb].
  unfold generateState, randomUUID. run. rewrite Hc, Hs. cbn [orb]. run.
  eexists _, _. split; [reflexivity|]. simpl. auto.
Qed.

(** A callback that finds the state already used, or does not find it,
    answers 400 and changes nothing. *)
Lemma callback_rejects (rq : Request) (state : string) (w : World) :
  redeems rq state → state ≠ EmptyString →
  match kv_get (oauth_states (kv w)) state (clock w) with
  | Some stateData => used stateData = true
  | None => True
  end →
  callback rq w = (Return rejected, w).
Proof.
  intros (Hm & He & Hc & Hs) Hne Hst. unfold callback.
  rewrite Hm. cbn [String.eqb Ascii.eqb Bool.eqb negb]. run.
  rewrite He, Hc, Hs, (falsy_Some state Hne). cbn [negb orb].
  rewrite (str_or_Some state _ Hne).
  destruct (kv_get (oauth_states (kv w)) state (clock w)) as [sd|]; [|reflexivity].
  rewrite Hst. reflexivity.
Qed.

(** A callback that finds the state unused marks it used, for good, and
    carries on to the token exchange, whose outcome is a redirect. *)
Lemma callback_redeems (rq : Request) (state : string) (w : World) (stateData : StateData) :
  redeems rq state → state ≠ EmptyString → configured w →
  kv_get (oauth_states (kv w)) state (clock w) = Some stateData →
  used stateData = false →
  ∃ resp w', callback rq w = (Return resp, w')
    ∧ resp_status resp = 302
    ∧ oauth_states (kv w') =
        kv_set (oauth_states (kv w)) state (markUsed stateData) None (clock w)
    ∧ env w' = env w.
Proof.
  intros (Hm & He & Hc & Hs) Hne [Hcid Hsec] Hget Hunused. unfold callback.
  rewrite Hm. cbn [String.eqb Ascii.eqb Bool.eqb negb]. run.
  rewrite He, Hc, Hs, (falsy_Some state Hne). cbn [negb orb].
  rewrite (str_or_Some state _ Hne). rewrite Hget, Hunused. simpl.
  rewrite Hcid, Hsec. cbn [orb].
  unfold exchangeCodeForTokens, storeTokens, token_json, fetch, randomUUID. run. simpl.
  repeat case_match; simplify_eq; simpl; eexists _, _; (split; [reflexivity|]); simpl; auto.
Qed.

(** [callback] is its read of the state record followed by the rest. *)
Lemma callback_cut (req : Request) (w : World) :
  callback req w = (let* v := callback_read req in callback_resume req v) w.
Proof.
  unfold callback, callback_read.
  destruct (negb (String.eqb (req_method req) "GET")); [reflexivity|].
  destruct (negb (falsy (searchParam "error" (searchParams req)))); [reflexivity|].
  destruct (falsy (searchParam "code" (searchParams req))
            || falsy (searchParam "state" (searchParams req))); [reflexivity|].
  run.
  destruct (kv_get _ _ _) as [sd|]; [|reflexivity].
  destruct (used sd); [reflexivity|].
  unfold callback_resume. run. reflexivity.
Qed.

(** The read alone already tells a state that is used, or unknown. *)
Lemma callback_read_rejects (rq : Request) (state : string) (w : World) :
  redeems rq state → state ≠ EmptyString →
  match kv_get (oauth_states (kv w)) state (clock w) with
  | Some stateData => used stateData = true
  | None => True
  end →
  callback_read rq w = (Return (Answered rejected), w).
Proof.
  intros (Hm & He & Hc & Hs) Hne Hst. unfold callback_read.
  rewrite Hm. cbn [String.eqb Ascii.eqb Bool.eqb negb]. run.
  rewrite He, Hc, Hs, (falsy_Some state Hne). cbn [negb orb].
  rewrite (str_or_Some state _ Hne).
  destruct (kv_get (oauth_states (kv w)) state (clock w)) as [sd|]; [|reflexivity].
  rewrite Hst. reflexivity.
Qed.

(** [callback] reads the state record, waits, and only then marks it used.
    Two callbacks with the state ["uuid-0"] overlap: the store serves the
    read of the second before the write of the first. Both are answered with
    the redirect of a successful sign-in, each with its own session. *)
Lemma callback_overlapping_redemptions :
  match overlapping (callback_request "code-1" "uuid-0") (callback_request "code-2" "uuid-0")
          (elapse 1000 (snd (login login_request deployed))) with
  | (Return (ra, rb), w) =>
      resp_status ra = 302 ∧ session_cookie ra = Some "uuid-1"
      ∧ resp_status rb = 302 ∧ session_cookie rb = Some "uuid-2"
      ∧ rb ≠ rejected
      ∧ is_Some (kv_get (sessions (kv w)) "uuid-1" (clock w))
      ∧ is_Some (kv_get (sessions (kv w)) "uuid-2" (clock w))
  | _ => False
  end.
Proof. vm_compute. repeat split; try reflexivity; try discriminate; eexists; reflexivity. Qed.

(** C3, amended.  For every CSRF state value issued by [login], a first
    redemption made before the state record expires (less than 10 minutes
    after it was issued) succeeds: the state is found, verified unused and
    marked used, and the callback goes on to the token exchange. Every
    redemption attempt with the same value that reads the record once it is
    marked -- in particular every attempt that starts after the first one
    has been answered -- is answered 400, whatever the time elapsed since.
    An attempt that overlaps the first one, reading the record before it is
    marked, is not rejected. *)
Theorem csrf_state_redeemed_once (req rq1 rq2 : Request) (w0 : World) (d1 d2 : Z) :
  req_method req = "GET" → configured w0 →
  issuedState w0 ≠ EmptyString →
  redeems rq1 (issuedState w0) → redeems rq2 (issuedState w0) →
  0 ≤ d1 < stateTTL →
  ∃ r0 w1 r1 w2,
    login req w0 = (Return r0, w1)
    ∧ callback rq1 (elapse d1 w1) = (Return r1, w2)
    ∧ resp_status r1 = 302
    ∧ oauth_states (kv w2) !! issuedState w0
      = Some {| value := {| st_createdAt := clock w0; used := true |}; expireAt := None |}
    ∧ callback rq2 (elapse d2 w2) = (Return rejected, elapse d2 w2)
    ∧ resp_status rejected = 400
    ∧ ∀ w, oauth_states (kv w) !! issuedState w0
           = Some {| value := {| st_createdAt := clock w0; used := true |}; expireAt := None |} →
        callback_read rq2 w = (Return (Answered rejected), w)
        ∧ callback rq2 w = (Return rejected, w).
Proof.
  intros Hm Hcfg Hne Hr1 Hr2 Hd.
  destruct (login_issues req w0 Hm Hcfg) as (r0 & w1 & Hlogin & _ & Hst1 & Hck1 & Henv1).
  assert (Hget : kv_get (oauth_states (kv (elapse d1 w1))) (issuedState w0) (clock (elapse d1 w1))
                 = Some {| st_createdAt := clock w0; used := false |}).
  { simpl. rewrite Hst1, Hck1. unfold kv_get, kv_set. rewrite lookup_insert_eq.
    unfold live. simpl. assert ((clock w0 + d1 <? clock w0 + stateTTL) = true) as -> by lia.
    reflexivity. }
  assert (Hcfg1 : configured (elapse d1 w1)).
  { unfold configured. simpl. rewrite Henv1. exact Hcfg. }
  destruct (callback_redeems rq1 _ _ _ Hr1 Hne Hcfg1 Hget eq_refl)
    as (r1 & w2 & Hcb1 & H302 & Hst2 & _).
  assert (Hused : oauth_states (kv w2) !! issuedState w0
                  = Some {| value := {| st_createdAt := clock w0; used := true |};
                            expireAt := None |}).
  { rewrite Hst2. unfold kv_set. rewrite lookup_insert_eq. reflexivity. }
  assert (Hmarked : ∀ w, oauth_states (kv w) !! issuedState w0
                         = Some {| value := {| st_createdAt := clock w0; used := true |};
                                   expireAt := None |} →
                    match kv_get (oauth_states (kv w)) (issuedState w0) (clock w) with
                    | Some stateData => used stateData = true
                    | None => True
                    end).
  { intros w Hw. unfold kv_get. rewrite Hw. reflexivity. }
  exists r0, w1, r1, w2.
  split; [exact Hlogin|]. split; [exact Hcb1|]. split; [exact H302|]. split; [exact Hused|].
  split; [|split; [reflexivity|]].
  - apply (callback_rejects rq2 (issuedState w0)); [exact Hr2|exact Hne|].
    apply Hmarked. exact Hused.
  - intros w Hw. split.
    + apply (callback_read_rejects rq2 (issuedState w0)); [exact Hr2|exact Hne|by apply Hmarked].
    + apply (callback_rejects rq2 (issuedState w0)); [exact Hr2|exact Hne|by apply Hmarked].
Qed.

(** The state ["uuid-0"] is issued at instant 0, to live 10 minutes, and
    first presented one hour later, when the store has dropped the record:
    that first redemption is answered 400. *)
Lemma callback_first_redemption_after_expiry :
  issuedState deployed = "uuid-0"
  ∧ (∃ r0, fst (login login_request deployed) = Return r0 ∧ resp_status r0 = 302)
  ∧ fst (callback (callback_request "code-1" "uuid-0")
           (elapse (60 * 60 * 1000) (snd (login login_request deployed))))
    = Return rejected
  ∧ resp_status rejected = 400.
Proof.
  split; [vm_compute; reflexivity|].
  split; [eexists; split; vm_compute; reflexivity|].
  split; vm_compute; reflexivity.
Qed.

(** C3, as stated, fails, in both its halves: a first redemption that comes
    after the state record has expired is answered 400; and of two
    redemptions that overlap, the second is not rejected. *)
Lemma callback_redemption_counterexample :
  fst (callback (callback_request "code-1" "uuid-0")
         (elapse (60 * 60 * 1000) (snd (login login_request deployed))))
  = Return rejected
  ∧ match overlapping (callback_request "code-1" "uuid-0") (callback_request "code-2" "uuid-0")
            (elapse 1000 (snd (login login_request deployed))) with
    | (Return (ra, rb), w) =>
        session_cookie ra = Some "uuid-1" ∧ session_cookie rb = Some "uuid-2" ∧ rb ≠ rejected
    | _ => False
    end.
Proof.
  split; [vm_compute; reflexivity|].
  vm_compute. repeat split; try reflexivity. discriminate.
Qed.

Lemma csrf_state_redeemed_once_witness :
  ∃ r0 w1 r1 w2,
    login login_request deployed = (Return r0, w1)
    ∧ callback (callback_request "code-1" "uuid-0") (elapse 1000 w1) = (Return r1, w2)
    ∧ resp_status r1 = 302
    ∧ oauth_states (kv w2) !! issuedState deployed
      = Some {| value := {| st_createdAt := clock deployed; used := true |}; expireAt := None |}
    ∧ callback (callback_request "code-2" "uuid-0") (elapse 31536000000 w2)
      = (Return rejected, elapse 31536000000 w2)
    ∧ resp_status rejected = 400.
Proof.
  destruct (csrf_state_redeemed_once login_request (callback_request "code-1" "uuid-0")
              (callback_request "code-2" "uuid-0") deployed 1000 31536000000)
    as (r0 & w1 & r1 & w2 & H0 & H1 & H2 & H3 & H4 & H5 & _).
  - reflexivity.
  - split; reflexivity.
  - vm_compute. discriminate.
  - repeat split; reflexivity.
  - repeat split; reflexivity.
  - unfold stateTTL. lia.
  - exists r0, w1, r1, w2. split; [exact H0|]. split; [exact H1|]. split; [exact H2|].
    split; [exact H3|]. split; [exact H4|exact H5].
Defined.

(** The first redemption goes all the way: a session is created. *)
Example callback_signs_in :
  match callback (callback_request "code-1" "uuid-0")
          (elapse 1000 (snd (login login_request deployed))) with
  | (Return r, w) =>
      location r = Some (Path "/?auth=success") ∧ session_cookie r = Some "uuid-1"
      ∧ kv_get (user_sessions (kv w)) "user-1" (clock w) = Some "uuid-1"
  | _ => False
  end.
Proof. vm_compute. repeat split; reflexivity. Qed.

(** ** C5: cache fingerprints and the access token *)

Lemma substring_length_le (n : nat) (s : string) :
  (String.length (substring 0 n s) ≤ n)%nat.
Proof.
  revert s. induction n as [|n IH]; intros [|c s]; simpl; try lia.
  specialize (IH s). lia.
Qed.

Lemma hex_of_cons (b : ascii) (rest : string) :
  hex_of (String b rest)
  = String (hex_digit (N_of_ascii b / 16)) (String (hex_digit (N_of_ascii b mod 16)) (hex_of rest)).
Proof. reflexivity. Qed.

(** Only the first [n] bytes reach the first [2n] hexadecimal digits. *)
Lemma hex_of_substring (n : nat) (s : string) :
  substring 0 (n + n) (hex_of s) = hex_of (substring 0 n s).
Proof.
  revert s. induction n as [|n IH]; intros [|c s]; try reflexivity.
  rewrite Nat.add_succ_r.
  change (substring 0 (S n) (String c s)) with (String c (substring 0 n s)).
  rewrite !hex_of_cons. cbn [Nat.add substring]. by rewrite IH.
Qed.

Lemma hashToken_prefix (token : string) :
  hashToken token = hex_of (substring 0 8 token).
Proof.
  unfold hashToken. exact (hex_of_substring 8 token).
Qed.

Lemma byte_hex_inv (b : ascii) :
  ascii_of_N (16 * hex_value (hex_digit (N_of_ascii b / 16))
              + hex_value (hex_digit (N_of_ascii b mod 16))) = b.
Proof.
  destruct b as [[] [] [] [] [] [] [] []]; vm_compute; reflexivity.
Qed.

Lemma byte_hex_inj (b1 b2 : ascii) : byte_hex b1 = byte_hex b2 → b1 = b2.
Proof.
  unfold byte_hex. intros H. injection H as H1 H2.
  rewrite <- (byte_hex_inv b1), <- (byte_hex_inv b2), H1, H2. reflexivity.
Qed.

Lemma hex_of_inj (s1 s2 : string) : hex_of s1 = hex_of s2 → s1 = s2.
Proof.
  revert s2. induction s1 as [|c1 s1 IH]; intros [|c2 s2];
    rewrite ?hex_of_cons; try discriminate.
  - reflexivity.
  - intros H. injection H as H1 H2 H3.
    f_equal; [|by apply IH].
    apply byte_hex_inj. unfold byte_hex. by rewrite H1, H2.
Qed.

Lemma append_cancel_r (a b r : string) : a +:+ r = b +:+ r → a = b.
Proof.
  revert b. induction a as [|x a IH]; intros [|y b] H.
  - reflexivity.
  - apply (f_equal String.length) in H. rewrite !append_length in H. simpl in H. lia.
  - apply (f_equal String.length) in H. rewrite !append_length in H. simpl in H. lia.
  - change (String x (a +:+ r) = String y (b +:+ r)) in H.
    injection H as -> H. f_equal. by apply IH.
Qed.

Lemma subscriptionsCacheKey_hash (t1 t2 : string) (maxResults : Z) (pageToken : option string) :
  subscriptionsCacheKey t1 maxResults pageToken = subscriptionsCacheKey t2 maxResults pageToken
  ↔ hashToken t1 = hashToken t2.
Proof.
  unfold subscriptionsCacheKey. split.
  - intros H. apply (inj (String.append "subscriptions:")) in H.
    by apply append_cancel_r in H.
  - by intros ->.
Qed.

(** C5, as stated, fails: the fingerprint of a channel video list is the
    same for two distinct access tokens. *)
Lemma channelVideosCacheKey_shared_between_tokens :
  "ya29.token-of-alice" ≠ "ya29.token-of-bob"
  ∧ channelVideosCacheKey "ya29.token-of-alice" "UC123" 25 None None
    = channelVideosCacheKey "ya29.token-of-bob" "UC123" 25 None None
  ∧ channelVideosCacheKey "ya29.token-of-alice" "UC123" 25 None None
    = "channel_videos:UC123:first:25:all".
Proof.
  split; [discriminate|]. split; vm_compute; reflexivity.
Qed.

(** C5, amended.  The fingerprint of a subscriptions list is built from
    the page token, the page size and a token-derived identifier: the
    hexadecimal encoding of the first 8 bytes of the access token, at most
    16 characters long; two access tokens yield distinct subscriptions
    fingerprints for otherwise identical requests exactly when their first
    8 bytes differ.  The fingerprints of a channel video list and of a
    video detail lookup are built from the request parameters alone and
    are the same for every access token. *)
Theorem cache_fingerprints (t1 t2 : string) (channelId : string) (maxResults : Z)
    (pageToken : option string) (publishedAfter : option Z) (batch : list string) :
  subscriptionsCacheKey t1 maxResults pageToken
    = "subscriptions:" +:+ hex_of (substring 0 8 t1) +:+ ":" +:+ str_or pageToken "first"
      +:+ ":" +:+ pretty maxResults
  ∧ (String.length (hashToken t1) ≤ 16)%nat
  ∧ (subscriptionsCacheKey t1 maxResults pageToken = subscriptionsCacheKey t2 maxResults pageToken
     ↔ substring 0 8 t1 = substring 0 8 t2)
  ∧ channelVideosCacheKey t1 channelId maxResults pageToken publishedAfter
    = channelVideosCacheKey t2 channelId maxResults pageToken publishedAfter
  ∧ videoDetailsCacheKey t1 batch = videoDetailsCacheKey t2 batch.
Proof.
  split; [unfold subscriptionsCacheKey; by rewrite hashToken_prefix|].
  split; [apply substring_length_le|].
  split; [|split; reflexivity].
  rewrite subscriptionsCacheKey_hash, !hashToken_prefix. split.
  - apply hex_of_inj.
  - by intros ->.
Qed.

Example hashToken_sample : hashToken "ya29.a0AfH6SMBx" = "796132392e613041".
Proof. vm_compute. reflexivity. Qed.

(** Two tokens of the same issuer share their first 8 bytes, and with them
    the subscriptions fingerprint. *)
Example subscriptionsCacheKey_collision :
  subscriptionsCacheKey "ya29.a0AfH6SMBx" 50 None = subscriptionsCacheKey "ya29.a0Ab9ZZkQp" 50 None.
Proof. vm_compute. reflexivity. Qed.

(** A token made of hexadecimal digits can be its own identifier. *)
Example hashToken_literal : hashToken "3333333333333333" = "3333333333333333".
Proof. vm_compute. reflexivity. Qed.

(** ** C1: the quota check before an upstream call *)

(** The check reads the record under ["rate_limit"], usage recording
    writes under ["api_usage"]: recording never changes what is checked. *)
Lemma trackAPIUsage_rate_limit (endpoint : string) (status : Z) (w : World) :
  rate_limit (kv (snd (trackAPIUsage endpoint status w))) = rate_limit (kv w).
Proof. reflexivity. Qed.

Lemma checkRateLimit_absent (w : World) :
  rate_limit (kv w) !! "youtube_api" = None → checkRateLimit w = (Return tt, w).
Proof.
  intros H. unfold checkRateLimit. by rewrite kv_get_absent.
Qed.

(** When the check does refuse, the error is a plain [Error]. *)
Lemma checkRateLimit_error (w w' : World) (e : JsError) :
  checkRateLimit w = (Throw e, w') →
  message e = "Approaching daily quota limit" ∧ quotaExceeded e = false.
Proof.
  unfold checkRateLimit. intros H. repeat case_match; simplify_eq. done.
Qed.

(** C1 (code defect).  With 9500 units recorded for the current day, over
    the threshold of 9000, a subscriptions read that misses the cache is
    not refused: the upstream call is issued, its result returned, and the
    day's total goes to 9501. *)
Theorem getSubscriptions_over_threshold_calls_upstream :
  fst (getUsageStats busy_day)
    = Return (Some {| quotaUsed := 9500; resetTime := 1000 + 86400000; requestCount := 95 |})
  ∧ fst (getFromCache (subscriptionsCacheKey "ya29.token" 50 None) busy_day) = Return None
  ∧ match getSubscriptions "ya29.token" 50 None busy_day with
    | (Return d, w') =>
        d = subscriptionPage
        ∧ calls w' = [apiRequest "/subscriptions"
                        [("part", "snippet"); ("mine", "true"); ("maxResults", "50");
                         ("order", "alphabetical")] "ya29.token"]
        ∧ currentUsage (api_usage (kv w')) (clock w') = (9501, 96)
    | (Throw _, _) => False
    end.
Proof.
  vm_compute. repeat split; reflexivity.
Qed.

(** ** C8: detail lookups in chunks of 50 *)

(** *** The chunks *)

Lemma batches_from_S {A} (fuel size i : nat) (l : list A) :
  batches_from (S fuel) size i l
  = if (i <? length l)%nat
    then slice i (i + size) l :: batches_from fuel size (i + size) l
    else [].
Proof. reflexivity. Qed.

Lemma slice_take_drop {A} (i size : nat) (l : list A) :
  slice i (i + size) l = take size (drop i l).
Proof.
  unfold slice. f_equal. lia.
Qed.

(** The loop stops before the fuel runs out, and loses no element. *)
Lemma batches_from_concat {A} (size fuel : nat) (l : list A) :
  (0 < size)%nat →
  ∀ i, (length l - i ≤ fuel)%nat → concat (batches_from fuel size i l) = drop i l.
Proof.
  intros Hsize. induction fuel as [|fuel IH]; intros i Hfuel.
  - simpl. symmetry. apply drop_ge. lia.
  - rewrite batches_from_S. destruct (i <? length l)%nat eqn:Hlt.
    + apply Nat.ltb_lt in Hlt. simpl. rewrite IH by lia.
      rewrite slice_take_drop, <- drop_drop. apply take_drop.
    + apply Nat.ltb_ge in Hlt. simpl. symmetry. by apply drop_ge.
Qed.

Lemma batches_from_sizes {A} (size fuel : nat) (l : list A) :
  (0 < size)%nat →
  ∀ i, Forall (λ b, (0 < length b ≤ size)%nat) (batches_from fuel size i l).
Proof.
  intros Hsize. induction fuel as [|fuel IH]; intros i; [constructor|].
  rewrite batches_from_S. destruct (i <? length l)%nat eqn:Hlt; [|constructor].
  apply Nat.ltb_lt in Hlt. constructor; [|apply IH].
  rewrite slice_take_drop, length_take, length_drop. lia.
Qed.

Lemma batches_concat {A} (size : nat) (l : list A) :
  (0 < size)%nat → concat (batches size l) = l.
Proof.
  intros Hsize. unfold batches. by rewrite batches_from_concat by lia.
Qed.

Lemma batches_from_120 {A} (fuel : nat) (l : list A) :
  length l = 120%nat →
  batches_from (S (S (S (S fuel)))) 50 0 l = [take 50 l; take 50 (drop 50 l); drop 100 l].
Proof.
  intros Hlen.
  rewrite (batches_from_S (S (S (S fuel)))), Hlen. cbn [Nat.ltb Nat.leb Nat.add].
  rewrite (batches_from_S (S (S fuel))), Hlen. cbn [Nat.ltb Nat.leb Nat.add].
  rewrite (batches_from_S (S fuel)), Hlen. cbn [Nat.ltb Nat.leb Nat.add].
  rewrite (batches_from_S fuel), Hlen. cbn [Nat.ltb Nat.leb Nat.add].
  unfold slice. cbn [Nat.sub]. change (drop 0 l) with l.
  f_equal. f_equal. f_equal.
  rewrite take_ge; [reflexivity|]. rewrite length_drop. lia.
Qed.

Lemma batches_120 {A} (l : list A) :
  length l = 120%nat →
  batches 50 l = [take 50 l; take 50 (drop 50 l); drop 100 l].
Proof.
  intros Hlen. unfold batches. rewrite Hlen. exact (batches_from_120 116 l Hlen).
Qed.

Lemma insert_sorted_perm (x : string) (l : list string) : insert_sorted x l ≡ₚ x :: l.
Proof.
  induction l as [|y l IH]; simpl; [done|].
  destruct (String.leb x y); [done|]. rewrite IH. apply Permutation_swap.
Qed.

Lemma sort_perm (l : list string) : sort l ≡ₚ l.
Proof.
  induction l as [|x l IH]; simpl; [done|].
  by rewrite insert_sorted_perm, IH.
Qed.

(** *** One chunk *)

Lemma batchData_fresh (accessToken : string) (batch : list string) (w : World) (d : ApiResponse) :
  youtube_cache (kv w) !! videoDetailsCacheKey accessToken batch = None →
  rate_limit (kv w) !! "youtube_api" = None →
  delivers (net w (length (calls w)) (videoDetailsRequest accessToken batch)) = Some d →
  batchData accessToken batch w = (Return d, chunkDone accessToken batch w).
Proof.
  intros Hcache Hrl Hnet. unfold batchData, getFromCache, chunkDone. run.
  rewrite (kv_get_absent _ _ _ Hcache). unfold makeRequest. run.
  rewrite (checkRateLimit_absent w Hrl). unfold fetch, delivers in *.
  destruct (reply _) as [msg|r]; [discriminate|].
  destruct (ok r) eqn:Hok; [|discriminate].
  cbn [negb]. unfold response_json. run.
  destruct (parsed r) as [|d'| | |] eqn:Hp; try discriminate.
  simplify_eq. reflexivity.
Qed.

Lemma chunkDone_net accessToken batch w : net (chunkDone accessToken batch w) = net w.
Proof.
  unfold chunkDone, fetch. repeat case_match; simplify_eq; reflexivity.
Qed.

Lemma chunkDone_rate_limit accessToken batch w :
  rate_limit (kv (chunkDone accessToken batch w)) = rate_limit (kv w).
Proof.
  unfold chunkDone, fetch. repeat case_match; simplify_eq; reflexivity.
Qed.

Lemma chunkDone_calls accessToken batch w :
  calls (chunkDone accessToken batch w) = calls w ++ [videoDetailsRequest accessToken batch].
Proof.
  unfold chunkDone, fetch. repeat case_match; simplify_eq; reflexivity.
Qed.

Lemma chunkDone_cache_other accessToken batch w key :
  key ≠ videoDetailsCacheKey accessToken batch →
  youtube_cache (kv (chunkDone accessToken batch w)) !! key = youtube_cache (kv w) !! key.
Proof.
  intros Hne. unfold chunkDone, fetch. repeat case_match; simplify_eq; try reflexivity.
  simpl. unfold kv_set. by rewrite lookup_insert_ne.
Qed.

Lemma chunkDone_cache_self accessToken batch w d :
  delivers (net w (length (calls w)) (videoDetailsRequest accessToken batch)) = Some d →
  ∃ e, youtube_cache (kv (chunkDone accessToken batch w)) !! videoDetailsCacheKey accessToken batch
       = Some e ∧ data (value e) = d.
Proof.
  unfold chunkDone, fetch, delivers. intros H.
  repeat case_match; simplify_eq.
  simpl. unfold kv_set. rewrite lookup_insert_eq. eexists. split; reflexivity.
Qed.

(** *** The loop over the chunks *)

Lemma chunksDone_net accessToken bs : ∀ w, net (chunksDone accessToken bs w) = net w.
Proof.
  induction bs as [|b bs IH]; intros w; [reflexivity|].
  unfold chunksDone in *. simpl. by rewrite IH, chunkDone_net.
Qed.

Lemma chunksDone_calls accessToken bs : ∀ w,
  calls (chunksDone accessToken bs w) = calls w ++ (videoDetailsRequest accessToken <$> bs).
Proof.
  induction bs as [|b bs IH]; intros w.
  - simpl. by rewrite app_nil_r.
  - unfold chunksDone in *. simpl. rewrite IH, chunkDone_calls, <- app_assoc. reflexivity.
Qed.

Lemma chunksDone_cache_other accessToken bs key : ∀ w,
  key ∉ videoDetailsCacheKey accessToken <$> bs →
  youtube_cache (kv (chunksDone accessToken bs w)) !! key = youtube_cache (kv w) !! key.
Proof.
  induction bs as [|b bs IH]; intros w Hnot; [reflexivity|].
  unfold chunksDone in *. simpl. rewrite fmap_cons, not_elem_of_cons in Hnot.
  destruct Hnot as [Hne Hnot]. rewrite IH by done. by apply chunkDone_cache_other.
Qed.

Lemma videoDetailsLoop_fresh (accessToken : string) (answer : list string → ApiResponse)
    (bs : list (list string)) :
  NoDup (videoDetailsCacheKey accessToken <$> bs) →
  ∀ (w : World) (allResults : list json),
    Forall (λ b, youtube_cache (kv w) !! videoDetailsCacheKey accessToken b = None) bs →
    rate_limit (kv w) !! "youtube_api" = None →
    upstreamHolds accessToken w answer bs →
    videoDetailsLoop accessToken bs allResults w
    = (Return (allResults ++ concat ((λ b, items (answer b)) <$> bs)),
       chunksDone accessToken bs w)
    ∧ Forall (λ b, ∃ e,
        youtube_cache (kv (chunksDone accessToken bs w)) !! videoDetailsCacheKey accessToken b
        = Some e ∧ data (value e) = answer b) bs.
Proof.
  induction bs as [|b bs IH]; intros Hnd w acc Habs Hrl Hup.
  - simpl. rewrite app_nil_r. split; [reflexivity|constructor].
  - rewrite fmap_cons in Hnd. apply NoDup_cons in Hnd as [Hb Hnd].
    apply Forall_cons in Habs as [Hb0 Habs].
    assert (Hd : delivers (net w (length (calls w)) (videoDetailsRequest accessToken b))
                 = Some (answer b)) by (apply Hup; left).
    cbn [videoDetailsLoop]. unfold bind at 1.
    rewrite (batchData_fresh accessToken b w (answer b) Hb0 Hrl Hd).
    destruct (IH Hnd (chunkDone accessToken b w) (acc ++ items (answer b))) as [Hrun Hcached].
    + apply Forall_forall. intros b' Hin.
      rewrite Forall_forall in Habs. specialize (Habs b' Hin).
      rewrite chunkDone_cache_other; [exact Habs|].
      intros Heq. apply Hb. rewrite <- Heq. by apply list_elem_of_fmap_2.
    + by rewrite chunkDone_rate_limit.
    + intros n b' Hin. rewrite chunkDone_net. apply Hup. by right.
    + split.
      * rewrite Hrun. simpl. by rewrite <- app_assoc.
      * constructor; [|exact Hcached].
        destruct (chunkDone_cache_self accessToken b w (answer b) Hd) as (e & He & Hdata).
        exists e. split; [|exact Hdata].
        change (chunksDone accessToken (b :: bs) w)
          with (chunksDone accessToken bs (chunkDone accessToken b w)).
        by rewrite chunksDone_cache_other.
Qed.

(** C8, amended.  For every non-empty list of video ids, cut into chunks
    of at most 50 ids in order (120 ids give three chunks of 50, 50 and 20),
    if the chunks have pairwise distinct cache keys, none of them is
    cached, the quota check passes and the upstream answers each chunk's
    request, then [getVideoDetails] issues exactly one upstream call per
    chunk, in order, each carrying the ids of its chunk; after each call
    it stores the answer in the cache under that chunk's own key and
    records one "videos" call; and it returns the concatenation of the
    chunks' items. *)
Theorem getVideoDetails_chunked (accessToken : string) (videoIds : list string) (w : World)
    (answer : list string → ApiResponse) :
  videoIds ≠ [] →
  NoDup (videoDetailsCacheKey accessToken <$> batches 50 videoIds) →
  Forall (λ b, youtube_cache (kv w) !! videoDetailsCacheKey accessToken b = None)
    (batches 50 videoIds) →
  rate_limit (kv w) !! "youtube_api" = None →
  upstreamHolds accessToken w answer (batches 50 videoIds) →
  concat (batches 50 videoIds) = videoIds
  ∧ Forall (λ b, (0 < length b ≤ 50)%nat ∧ sort b ≡ₚ b) (batches 50 videoIds)
  ∧ (length videoIds = 120%nat →
       batches 50 videoIds = [take 50 videoIds; take 50 (drop 50 videoIds); drop 100 videoIds]
       ∧ length <$> batches 50 videoIds = [50%nat; 50%nat; 20%nat])
  ∧ ∃ w', getVideoDetails accessToken videoIds w
          = (Return (detailsOf (concat ((λ b, items (answer b)) <$> batches 50 videoIds))), w')
      ∧ calls w' = calls w ++ (videoDetailsRequest accessToken <$> batches 50 videoIds)
      ∧ w' = chunksDone accessToken (batches 50 videoIds) w
      ∧ Forall (λ b, ∃ e,
          youtube_cache (kv w') !! videoDetailsCacheKey accessToken b = Some e
          ∧ data (value e) = answer b) (batches 50 videoIds).
Proof.
  intros Hne Hnd Habs Hrl Hup.
  split; [apply batches_concat; lia|].
  split.
  { eapply Forall_impl; [apply batches_from_sizes; lia|].
    intros b Hb. split; [exact Hb|apply sort_perm]. }
  split.
  { intros Hlen. rewrite (batches_120 videoIds Hlen). split; [reflexivity|].
    cbn [fmap list_fmap]. rewrite length_take, length_take, !length_drop, Hlen.
    reflexivity. }
  destruct (videoDetailsLoop_fresh accessToken answer _ Hnd w [] Habs Hrl Hup)
    as [Hrun Hcached].
  exists (chunksDone accessToken (batches 50 videoIds) w).
  split.
  { unfold getVideoDetails. destruct videoIds as [|v vs]; [congruence|].
    cbn [length Nat.eqb]. unfold bind. rewrite Hrun. reflexivity. }
  split; [apply chunksDone_calls|]. split; [reflexivity|exact Hcached].
Qed.

(** C8, as stated, fails: of these 120 ids the first two chunks are both
    fifty times ["a"]; nothing is cached at the start, every call
    succeeds, and only two upstream calls are issued, the second chunk
    being served from what the first one cached. *)
Lemma getVideoDetails_repeated_chunk :
  length (replicate 100 "a" ++ replicate 20 "b") = 120%nat
  ∧ youtube_cache (kv echoing) = ∅
  ∧ match getVideoDetails "ya29.token" (replicate 100 "a" ++ replicate 20 "b") echoing with
    | (Return d, w') =>
        length (calls w') = 2%nat
        ∧ calls w' = [videoDetailsRequest "ya29.token" (replicate 50 "a");
                      videoDetailsRequest "ya29.token" (replicate 20 "b")]
        ∧ items d = items (echoed (replicate 50 "a")) ++ items (echoed (replicate 50 "a"))
                    ++ items (echoed (replicate 20 "b"))
    | (Throw _, _) => False
    end.
Proof.
  split; [reflexivity|]. split; [reflexivity|].
  vm_compute. repeat split; reflexivity.
Qed.

Lemma getVideoDetails_chunked_witness :
  concat (batches 50 sampleIds) = sampleIds
  ∧ Forall (λ b, (0 < length b ≤ 50)%nat ∧ sort b ≡ₚ b) (batches 50 sampleIds)
  ∧ (length sampleIds = 120%nat →
       batches 50 sampleIds = [take 50 sampleIds; take 50 (drop 50 sampleIds); drop 100 sampleIds]
       ∧ length <$> batches 50 sampleIds = [50%nat; 50%nat; 20%nat])
  ∧ ∃ w', getVideoDetails "ya29.token" sampleIds echoing
          = (Return (detailsOf (concat ((λ b, items (echoed b)) <$> batches 50 sampleIds))), w')
      ∧ calls w' = calls echoing ++ (videoDetailsRequest "ya29.token" <$> batches 50 sampleIds)
      ∧ w' = chunksDone "ya29.token" (batches 50 sampleIds) echoing
      ∧ Forall (λ b, ∃ e,
          youtube_cache (kv w') !! videoDetailsCacheKey "ya29.token" b = Some e
          ∧ data (value e) = echoed b) (batches 50 sampleIds).
Proof.
  apply (getVideoDetails_chunked "ya29.token" sampleIds echoing echoed).
  - vm_compute. discriminate.
  - apply (bool_decide_unpack _). vm_compute. reflexivity.
  - apply Forall_forall. intros b _. reflexivity.
  - reflexivity.
  - intros n b _. reflexivity.
Defined.

(** On those 120 ids: three calls, and three "videos" calls recorded. *)
Example getVideoDetails_sample :
  match getVideoDetails "ya29.token" sampleIds echoing with
  | (Return d, w') =>
      length (calls w') = 3%nat ∧ length (items d) = 3%nat
      ∧ currentUsage (api_usage (kv w')) (clock w') = (3, 3)
  | (Throw _, _) => False
  end.
Proof. vm_compute. repeat split; reflexivity. Qed.

(** ** C9: one failing channel does not fail the batch *)


Lemma checkRateLimit_spec (w : World) :
  checkRateLimit w = (Return tt, w)
  ∨ (∃ e, checkRateLimit w = (Throw e, w) ∧ rate_limit (kv w) !! "youtube_api" ≠ None).
Proof.
  unfold checkRateLimit, kv_get.
  destruct (rate_limit (kv w) !! "youtube_api") as [e|]; [|by left].
  destruct (live e (clock w)); [|by left].
  destruct (quotaUsed (value e) >? 9000); [right|by left].
  eexists. split; [reflexivity|done].
Qed.

(** A request that comes back has been answered with an ok response; one
    that throws has left the store alone. *)
Lemma makeRequest_spec (req : HttpRequest) (w : World) :
  match makeRequest req w with
  | (Return r, w') =>
      reply (net w (length (calls w)) req) = NetOk r ∧ ok r = true
      ∧ kv w' = kv w ∧ net w' = net w
  | (Throw e, w') =>
      kv w' = kv w ∧ net w' = net w
      ∧ (rate_limit (kv w) !! "youtube_api" ≠ None
         ∨ ∀ r, reply (net w (length (calls w)) req) = NetOk r → ok r = false)
  end.
Proof.
  unfold makeRequest. unfold bind at 1.
  destruct (checkRateLimit_spec w) as [-> | (e & -> & Hrl)]; [|by auto].
  unfold bind, fetch.
  destruct (reply (net w (length (calls w)) req)) as [msg|r] eqn:Hreply.
  { simpl. split; [done|]. split; [done|]. right. intros r [=]. }
  destruct (ok r) eqn:Hok; cbn [negb].
  { simpl. auto. }
  assert (Hno : ∀ r', NetOk r = NetOk r' → ok r' = false) by (by intros r' [= <-]).
  destruct ((status r =? 403) && bool_decide (errorReason r = Some "quotaExceeded")).
  { simpl. auto. }
  destruct (status r =? 429); simpl; auto.
Qed.

Lemma readThrough_spec req cacheKey ttl endpoint operation (w : World) :
  match readThrough req cacheKey ttl endpoint operation w with
  | (Return v, w') =>
      delivers (net w (length (calls w)) req) = Some v
      ∧ net w' = net w ∧ rate_limit (kv w') = rate_limit (kv w)
      ∧ (∀ k, k ≠ cacheKey → youtube_cache (kv w') !! k = youtube_cache (kv w) !! k)
      ∧ ∃ e, youtube_cache (kv w') !! cacheKey = Some e ∧ data (value e) = v
  | (Throw _, w') =>
      (delivers (net w (length (calls w)) req) = None
       ∨ rate_limit (kv w) !! "youtube_api" ≠ None)
      ∧ net w' = net w ∧ kv w' = kv w
  end.
Proof.
  unfold readThrough, try_catch. unfold bind at 1.
  pose proof (makeRequest_spec req w) as Hreq.
  destruct (makeRequest req w) as [[r|e] w1].
  - destruct Hreq as (Hreply & Hok & Hkv & Hnet).
    unfold delivers. rewrite Hreply, Hok. unfold response_json, bind.
    destruct (parsed r) as [|d| | |]; simpl; rewrite ?Hkv; auto.
    split; [reflexivity|]. split; [done|]. split; [reflexivity|]. split.
    + intros k Hne. unfold kv_set. by rewrite lookup_insert_ne.
    + unfold kv_set. rewrite lookup_insert_eq. eexists. split; reflexivity.
  - destruct Hreq as (Hkv & Hnet & Hwhy). simpl. split; [|done].
    destruct Hwhy as [Hrl|Hno]; [by right|left].
    unfold delivers. destruct (reply _) as [msg|r]; [reflexivity|].
    by rewrite (Hno r eq_refl).
Qed.


Section BatchInvariant.
Variables (tok : string) (maxResults : Z) (publishedAfter : option Z).
Variable I : World → Prop.
Variable P : string → ApiResponse → Prop.
Hypothesis step : ∀ w c, I w →
  ∃ v w', channelOrEmpty tok c maxResults publishedAfter w = (Return v, w') ∧ I w' ∧ P c v.
Hypothesis pause : ∀ w ms, I w → I (with_clock (λ t, t + ms) w).



End BatchInvariant.







(** Seven channels go in two rounds, of five and of two, 100 ms apart; the
    failed call is made but neither cached nor recorded. *)
Example batchGetChannelVideos_seven :
  match batchGetChannelVideos "ya29.token"
          ["UC-1"; "UC-2"; "UC-down"; "UC-3"; "UC-4"; "UC-5"; "UC-6"] 10 None flaky_world with
  | (Return results, w') =>
      size results = 7%nat
      ∧ results !! "UC-down" = Some emptyVideoResponse
      ∧ results !! "UC-6" = Some (uploads "UC-6")
      ∧ length (calls w') = 7%nat
      ∧ clock w' = 7 * 80 + 100
      ∧ currentUsage (api_usage (kv w')) (clock w') = (600, 6)
  | (Throw _, _) => False
  end.
Proof. vm_compute. repeat split; reflexivity. Qed.

(** * Further properties of the gateway *)

(** ** Failing calls and chunks *)

Lemma declines_delivers (x : Exchange) : declines x = true → delivers x = None.
Proof.
  unfold declines, delivers. destruct (reply x) as [msg|r]; [done|]. by destruct (ok r).
Qed.

Lemma declines_grants (x : Exchange) : declines x = true → grants x = None.
Proof.
  unfold declines, grants. destruct (reply x) as [msg|r]; [done|]. by destruct (ok r).
Qed.

Lemma batches_from_lookup {A} (size fuel : nat) (l : list A) :
  (0 < size)%nat →
  ∀ start i, (length l - start ≤ fuel)%nat →
    batches_from fuel size start l !! i
    = if (start + i * size <? length l)%nat
      then Some (take size (drop (start + i * size) l))
      else None.
Proof.
  intros Hsize. induction fuel as [|fuel IH]; intros start i Hfuel.
  - simpl. destruct (start + i * size <? length l)%nat eqn:E; [|done].
    apply Nat.ltb_lt in E. lia.
  - rewrite batches_from_S. destruct (start <? length l)%nat eqn:Hlt.
    + destruct i as [|i].
      * simpl. rewrite Nat.add_0_r, Hlt. by rewrite slice_take_drop.
      * simpl lookup. rewrite IH by lia.
        replace (start + size + i * size)%nat with (start + S i * size)%nat by lia.
        reflexivity.
    + apply Nat.ltb_ge in Hlt.
      assert ((start + i * size <? length l)%nat = false) as -> by (apply Nat.ltb_ge; lia).
      reflexivity.
Qed.

(** X1.  For every chunk size above zero, the i-th chunk cut by the slicing
    loop of getVideoDetails and batchGetChannelVideos holds the items from
    position i*size on, at most size of them, and there is no i-th chunk
    once i*size reaches the length of the list. *)
Theorem batches_lookup {A} (size : nat) (l : list A) (i : nat) :
  (0 < size)%nat →
  batches size l !! i
  = if (i * size <? length l)%nat then Some (take size (drop (i * size) l)) else None.
Proof.
  intros Hsize. unfold batches. rewrite batches_from_lookup by lia. reflexivity.
Qed.

Lemma batches_lookup_witness :
  batches 5 ["a"; "b"; "c"; "d"; "e"; "f"; "g"] !! 1%nat
  = if (1 * 5 <? length ["a"; "b"; "c"; "d"; "e"; "f"; "g"])%nat
    then Some (take 5 (drop (1 * 5) ["a"; "b"; "c"; "d"; "e"; "f"; "g"]))
    else None.
Proof. apply (batches_lookup 5 ["a"; "b"; "c"; "d"; "e"; "f"; "g"] 1). lia. Defined.

(** ** Sorting the ids of a chunk *)

Lemma insert_sorted_Sorted (x : string) (l : list string) :
  Sorted String.le l → Sorted String.le (insert_sorted x l).
Proof.
  induction l as [|y l IH]; intros Hl; simpl.
  - repeat constructor.
  - destruct (String.leb x y) eqn:Hxy.
    + constructor; [done|]. constructor. unfold String.le. by rewrite Hxy.
    + apply Sorted_inv in Hl as [Hl Hy]. constructor; [by apply IH|].
      assert (Hyx : String.le y x).
      { destruct (String.leb_total x y) as [H|H]; [congruence|].
        unfold String.le. by rewrite H. }
      destruct l as [|z l]; simpl.
      * by constructor.
      * destruct (String.leb x z); constructor; [done|].
        by apply HdRel_inv in Hy.
Qed.

Lemma sort_Sorted (l : list string) : Sorted String.le (sort l).
Proof.
  induction l as [|x l IH]; simpl; [constructor|]. by apply insert_sorted_Sorted.
Qed.

Lemma sort_Permutation_eq (l1 l2 : list string) : l1 ≡ₚ l2 → sort l1 = sort l2.
Proof.
  intros Hp. apply (Sorted_unique String.le); try apply sort_Sorted.
  by rewrite !sort_perm.
Qed.

Lemma sort_idempotent (l : list string) : sort (sort l) = sort l.
Proof. apply sort_Permutation_eq, sort_perm. Qed.

(** ** The cache, written and read *)

Lemma getFromCache_hit key (w : World) (d : ApiResponse) (c e x : Z) :
  youtube_cache (kv w) !! key
  = Some {| value := {| data := d; cachedAt := c; expiresAt := e |}; expireAt := Some x |} →
  clock w < x → clock w ≤ e →
  getFromCache key w = (Return (Some d), w).
Proof.
  intros Hk Hx He. unfold getFromCache, kv_get. rewrite Hk. unfold live.
  cbn [expireAt value expiresAt data].
  assert ((clock w <? x) = true) as -> by lia.
  cbn beta iota delta [value expiresAt data].
  assert ((clock w >? e) = false) as -> by lia.
  reflexivity.
Qed.

Lemma setCache_slot (key : string) (d : ApiResponse) (ttl : Z) (w : World) :
  youtube_cache (kv (snd (setCache key d ttl w))) !! key
  = Some {| value := {| data := d; cachedAt := clock w; expiresAt := clock w + ttl |};
            expireAt := Some (clock w + ttl) |}.
Proof. simpl. unfold kv_set. by rewrite lookup_insert_eq. Qed.

(** A read after [expiresAt] is a miss, whether the store still holds the
    entry or not; it touches nothing but the cache. *)
Lemma getFromCache_past key (w : World) (e : Entry CacheEntry) :
  youtube_cache (kv w) !! key = Some e →
  expiresAt (value e) < clock w →
  ∃ w', getFromCache key w = (Return None, w')
    ∧ (∀ t, clock w ≤ t → kv_get (youtube_cache (kv w')) key t = None)
    ∧ clock w' = clock w ∧ calls w' = calls w ∧ net w' = net w
    ∧ rate_limit (kv w') = rate_limit (kv w).
Proof.
  intros Hk Hexp. unfold getFromCache.
  destruct (kv_get (youtube_cache (kv w)) key (clock w)) as [c|] eqn:Hget.
  - assert (c = value e) as ->.
    { unfold kv_get in Hget. rewrite Hk in Hget.
      destruct (live e (clock w)); congruence. }
    assert ((clock w >? expiresAt (value e)) = true) as -> by lia.
    eexists. split; [reflexivity|]. split; [|by repeat split].
    intros t _. simpl. apply kv_get_delete_eq.
  - exists w. split; [reflexivity|]. split; [|by repeat split].
    intros t Ht. eapply kv_get_dead; eauto.
Qed.

Lemma kept_slot key x (w : World) (e : Entry CacheEntry) :
  youtube_cache (kv w) !! key = Some e →
  youtube_cache (kv (kept key x w)) !! key = Some {| value := value e; expireAt := x |}.
Proof. intros H. simpl. by rewrite lookup_alter_eq, H. Qed.

(** X2.  A value written by setCache under a key with time to live ttl is
    returned by getFromCache for that key at any time less than ttl later,
    with the world left unchanged. At any time more than ttl later the read
    is a miss, whether the store has already dropped the entry or still
    holds it, and no entry is readable under the key afterwards. Writing the
    value leaves the entries of all other keys as they were. *)
Theorem setCache_getFromCache (key : string) (d : ApiResponse) (ttl : Z) (w : World) (dt : Z) :
  (dt < ttl →
     getFromCache key (elapse dt (snd (setCache key d ttl w)))
     = (Return (Some d), elapse dt (snd (setCache key d ttl w))))
  ∧ (ttl < dt → ∀ x,
     fst (getFromCache key (elapse dt (kept key x (snd (setCache key d ttl w))))) = Return None
     ∧ ∀ t, clock w + dt ≤ t →
         kv_get (youtube_cache
                   (kv (snd (getFromCache key
                               (elapse dt (kept key x (snd (setCache key d ttl w)))))))) key t
         = None)
  ∧ (∀ other, other ≠ key →
     youtube_cache (kv (snd (setCache key d ttl w))) !! other = youtube_cache (kv w) !! other).
Proof.
  split; [|split].
  - intros Hdt. eapply getFromCache_hit.
    + exact (setCache_slot key d ttl w).
    + simpl. lia.
    + simpl. lia.
  - intros Hdt x.
    destruct (getFromCache_past key (elapse dt (kept key x (snd (setCache key d ttl w))))
                {| value := {| data := d; cachedAt := clock w; expiresAt := clock w + ttl |};
                   expireAt := x |})
      as (w' & Hrun & Hgone & _).
    + unfold elapse. cbn [kv with_clock].
      by rewrite (kept_slot key x _ _ (setCache_slot key d ttl w)).
    + simpl. lia.
    + rewrite Hrun. split; [reflexivity|]. intros t Ht. apply Hgone. simpl. lia.
  - intros other Hne. simpl. unfold kv_set. by rewrite lookup_insert_ne.
Qed.

Lemma setCache_getFromCache_witness :
  fst (getFromCache "k" (elapse 999 (snd (setCache "k" subscriptionPage 1000 (blank_world 0)))))
  = Return (Some subscriptionPage)
  ∧ fst (getFromCache "k"
           (elapse 1001 (kept "k" None (snd (setCache "k" subscriptionPage 1000 (blank_world 0))))))
    = Return None
  ∧ fst (getFromCache "k"
           (elapse 1001 (kept "k" (Some 1000)
                           (snd (setCache "k" subscriptionPage 1000 (blank_world 0))))))
    = Return None.
Proof.
  destruct (setCache_getFromCache "k" subscriptionPage 1000 (blank_world 0) 999) as (Hhit & _ & _).
  destruct (setCache_getFromCache "k" subscriptionPage 1000 (blank_world 0) 1001)
    as (_ & Hmiss & _).
  split; [|split].
  - rewrite Hhit; [reflexivity|lia].
  - apply (Hmiss ltac:(lia) None).
  - apply (Hmiss ltac:(lia) (Some 1000)).
Defined.

Lemma readThrough_delivers req cacheKey ttl endpoint operation (w : World) (d : ApiResponse) :
  rate_limit (kv w) !! "youtube_api" = None →
  delivers (net w (length (calls w)) req) = Some d →
  readThrough req cacheKey ttl endpoint operation w
  = (Return d, readDone req cacheKey ttl endpoint w).
Proof.
  intros Hrl Hnet. unfold readThrough, readDone, try_catch, makeRequest.
  unfold bind at 1. unfold bind at 1. rewrite (checkRateLimit_absent w Hrl).
  unfold bind at 1. unfold fetch, delivers in *.
  destruct (reply _) as [msg|r]; [discriminate|].
  destruct (ok r) eqn:Hok; [|discriminate]. cbn [negb].
  unfold response_json, bind, ret.
  destruct (parsed r) as [|d'| | |] eqn:Hp; try discriminate.
  simplify_eq. reflexivity.
Qed.

(** What a read that went upstream leaves under its key. *)
Lemma readDone_cached req cacheKey ttl endpoint (w : World) (d : ApiResponse) :
  delivers (net w (length (calls w)) req) = Some d →
  clock (readDone req cacheKey ttl endpoint w) = clock w + took (net w (length (calls w)) req)
  ∧ calls (readDone req cacheKey ttl endpoint w) = calls w ++ [req]
  ∧ youtube_cache (kv (readDone req cacheKey ttl endpoint w)) !! cacheKey
    = Some {| value := {| data := d;
                          cachedAt := clock w + took (net w (length (calls w)) req);
                          expiresAt := clock w + took (net w (length (calls w)) req) + ttl |};
              expireAt := Some (clock w + took (net w (length (calls w)) req) + ttl) |}.
Proof.
  unfold readDone, fetch, delivers. intros H.
  destruct (reply _) as [msg|r]; [discriminate|].
  destruct (ok r); [|discriminate].
  destruct (parsed r) as [|d'| | |]; try discriminate. simplify_eq.
  simpl. unfold kv_set. rewrite lookup_insert_eq. simpl. auto.
Qed.

Lemma readDone_rate_limit req cacheKey ttl endpoint (w : World) :
  rate_limit (kv (readDone req cacheKey ttl endpoint w)) = rate_limit (kv w).
Proof.
  unfold readDone, fetch. destruct (reply _) as [msg|r]; [reflexivity|].
  destruct (parsed r); reflexivity.
Qed.

Lemma getSubscriptions_unfold tok maxResults pageToken :
  getSubscriptions tok maxResults pageToken
  = (let* cached := getFromCache (subscriptionsCacheKey tok maxResults pageToken) in
     match cached with
     | Some d => ret d
     | None => readThrough (subscriptionsRequest tok maxResults pageToken)
                 (subscriptionsCacheKey tok maxResults pageToken)
                 subscriptionsCacheTTL "subscriptions" "getSubscriptions"
     end).
Proof. reflexivity. Qed.

Lemma makeRequest_calls req (w : World) :
  rate_limit (kv w) !! "youtube_api" = None →
  calls (snd (makeRequest req w)) = calls w ++ [req].
Proof.
  intros Hrl. unfold makeRequest. unfold bind at 1.
  rewrite (checkRateLimit_absent w Hrl). unfold bind at 1. unfold fetch.
  destruct (reply _) as [msg|r]; [reflexivity|].
  destruct (ok r); cbn [negb]; [reflexivity|].
  destruct ((status r =? 403) && bool_decide (errorReason r = Some "quotaExceeded"));
    [reflexivity|].
  destruct (status r =? 429); reflexivity.
Qed.

Lemma readThrough_calls req cacheKey ttl endpoint operation (w : World) :
  rate_limit (kv w) !! "youtube_api" = None →
  calls (snd (readThrough req cacheKey ttl endpoint operation w)) = calls w ++ [req].
Proof.
  intros Hrl. pose proof (makeRequest_calls req w Hrl) as Hc.
  unfold readThrough, try_catch. unfold bind at 1.
  destruct (makeRequest req w) as [[r|e] w1]; simpl in Hc; [|exact Hc].
  unfold response_json, bind.
  destruct (parsed r); simpl; exact Hc.
Qed.

(** The error a failed upstream call is turned into. *)
Lemma makeRequest_not_ok req (w : World) (r : HttpResponse) :
  rate_limit (kv w) !! "youtube_api" = None →
  reply (net w (length (calls w)) req) = NetOk r →
  ok r = false →
  ∃ e w', makeRequest req w = (Throw e, w')
    ∧ kv w' = kv w ∧ calls w' = calls w ++ [req]
    ∧ (status r = 403 → errorReason r = Some "quotaExceeded" →
         quotaExceeded e = true ∧ err_status e = Some 403 ∧ err_code e = Some "quotaExceeded"
         ∧ message e = "YouTube API quota exceeded")
    ∧ (status r = 429 →
         quotaExceeded e = false ∧ err_status e = None
         ∧ message e = "Rate limited - retry after backoff"
         ∧ clock w' = clock w + took (net w (length (calls w)) req) + 8000)
    ∧ (status r ≠ 429 → ¬ (status r = 403 ∧ errorReason r = Some "quotaExceeded") →
         quotaExceeded e = false ∧ err_status e = Some (status r)
         ∧ err_code e = errorCode r
         ∧ clock w' = clock w + took (net w (length (calls w)) req)).
Proof.
  intros Hrl Hreply Hok. unfold makeRequest. unfold bind at 1.
  rewrite (checkRateLimit_absent w Hrl). unfold bind at 1. unfold fetch.
  rewrite Hreply, Hok. cbn [negb].
  destruct (status r =? 403) eqn:H403; cbn [andb].
  - apply Z.eqb_eq in H403.
    destruct (bool_decide (errorReason r = Some "quotaExceeded")) eqn:Hq.
    + apply bool_decide_eq_true in Hq. eexists _, _. split; [reflexivity|].
      split; [reflexivity|]. split; [reflexivity|]. split; [|split].
      * intros _ _. repeat split; reflexivity.
      * intros H. lia.
      * intros _ Hno. destruct Hno. by split.
    + apply bool_decide_eq_false in Hq.
      assert ((status r =? 429) = false) as -> by lia.
      eexists _, _. split; [reflexivity|].
      split; [reflexivity|]. split; [reflexivity|]. split; [|split].
      * intros _ H. by destruct Hq.
      * intros H. lia.
      * intros _ _. repeat split; reflexivity.
  - apply Z.eqb_neq in H403. destruct (status r =? 429) eqn:H429.
    + apply Z.eqb_eq in H429. eexists _, _. split; [reflexivity|].
      split; [reflexivity|]. split; [reflexivity|]. split; [|split].
      * intros H. by destruct H403.
      * intros _. repeat split; reflexivity.
      * intros H. by destruct H.
    + apply Z.eqb_neq in H429. eexists _, _. split; [reflexivity|].
      split; [reflexivity|]. split; [reflexivity|]. split; [|split].
      * intros H. by destruct H403.
      * intros H. by destruct H429.
      * intros _ _. repeat split; reflexivity.
Qed.

(** X3.  When the page is not cached, no rate-limit record is stored and the
    upstream answers with a status outside 200..299, getSubscriptions makes
    that one call, stores nothing and throws an error whose message starts
    with 'getSubscriptions failed: '. Status 403 with reason quotaExceeded
    gives quotaExceeded = true, status 403 and code quotaExceeded; status
    429 gives an error without status after a further wait of 8000 ms; any
    other answer gives an error carrying the upstream status. *)
Theorem getSubscriptions_upstream_error (tok : string) (maxResults : Z)
    (pageToken : option string) (w : World) (r : HttpResponse) :
  youtube_cache (kv w) !! subscriptionsCacheKey tok maxResults pageToken = None →
  rate_limit (kv w) !! "youtube_api" = None →
  reply (net w (length (calls w)) (subscriptionsRequest tok maxResults pageToken)) = NetOk r →
  ok r = false →
  ∃ e w', getSubscriptions tok maxResults pageToken w = (Throw e, w')
    ∧ kv w' = kv w
    ∧ calls w' = calls w ++ [subscriptionsRequest tok maxResults pageToken]
    ∧ (∃ cause, message e = "getSubscriptions failed: " +:+ cause)
    ∧ (status r = 403 → errorReason r = Some "quotaExceeded" →
         quotaExceeded e = true ∧ err_status e = Some 403 ∧ err_code e = Some "quotaExceeded")
    ∧ (status r = 429 →
         quotaExceeded e = false ∧ err_status e = None
         ∧ clock w' = clock w
             + took (net w (length (calls w)) (subscriptionsRequest tok maxResults pageToken))
             + 8000)
    ∧ (status r ≠ 429 → ¬ (status r = 403 ∧ errorReason r = Some "quotaExceeded") →
         quotaExceeded e = false ∧ err_status e = Some (status r)
         ∧ clock w' = clock w
             + took (net w (length (calls w)) (subscriptionsRequest tok maxResults pageToken))).
Proof.
  intros Hcache Hrl Hreply Hok.
  destruct (makeRequest_not_ok _ w r Hrl Hreply Hok)
    as (e & w' & Hrun & Hkv & Hcalls & Hq & Hr & Ho).
  exists (handleAPIError e "getSubscriptions"), w'.
  split.
  { rewrite getSubscriptions_unfold. unfold bind at 1. unfold getFromCache.
    rewrite (kv_get_absent _ _ _ Hcache). unfold readThrough, try_catch.
    unfold bind at 1. rewrite Hrun. reflexivity. }
  split; [exact Hkv|]. split; [exact Hcalls|].
  split; [by eexists|]. simpl.
  split; [|split].
  - intros H1 H2. destruct (Hq H1 H2) as (? & ? & ? & ?). auto.
  - intros H1. destruct (Hr H1) as (? & ? & ? & ?). auto.
  - intros H1 H2. destruct (Ho H1 H2) as (? & ? & ? & ?). auto.
Qed.

Lemma getSubscriptions_upstream_error_witness :
  ∃ e w', getSubscriptions "ya29.token" 50 None quota_exhausted = (Throw e, w')
    ∧ kv w' = kv quota_exhausted
    ∧ calls w' = [subscriptionsRequest "ya29.token" 50 None]
    ∧ quotaExceeded e = true ∧ err_status e = Some 403.
Proof.
  destruct (getSubscriptions_upstream_error "ya29.token" 50 None quota_exhausted
              {| status := 403; statusText := "Forbidden"; text := "";
                 parsed := PApiError (Some "403") (Some "quotaExceeded") |})
    as (e & w' & Hrun & Hkv & Hcalls & _ & Hquota & _); try reflexivity.
  exists e, w'. destruct (Hquota eq_refl eq_refl) as (Hq & Hs & _).
  split; [exact Hrun|]. split; [exact Hkv|]. split; [exact Hcalls|]. split; [exact Hq|exact Hs].
Defined.

(** X4.  If a live record under the key rate_limit/youtube_api has quotaUsed
    above 9000 and the page is not in the cache, getSubscriptions throws the
    plain error 'getSubscriptions failed: Approaching daily quota limit'
    (quotaExceeded false, no status, no code) and leaves the world
    unchanged: no upstream call is made. *)
Theorem getSubscriptions_preemptive_refusal (tok : string) (maxResults : Z)
    (pageToken : option string) (w : World) (info : RateLimitInfo) :
  kv_get (youtube_cache (kv w)) (subscriptionsCacheKey tok maxResults pageToken) (clock w) = None →
  kv_get (rate_limit (kv w)) "youtube_api" (clock w) = Some info →
  9000 < quotaUsed info →
  getSubscriptions tok maxResults pageToken w
  = (Throw {| message := "getSubscriptions failed: Approaching daily quota limit";
              err_status := None; err_code := None; quotaExceeded := false |}, w).
Proof.
  intros Hcache Hrl Hq. rewrite getSubscriptions_unfold. unfold bind at 1.
  unfold getFromCache. rewrite Hcache.
  unfold readThrough, try_catch, makeRequest. unfold bind at 1. unfold bind at 1.
  unfold checkRateLimit. rewrite Hrl.
  assert ((quotaUsed info >? 9000) = true) as -> by lia.
  reflexivity.
Qed.

Lemma getSubscriptions_preemptive_refusal_witness :
  getSubscriptions "ya29.token" 50 None throttled
  = (Throw {| message := "getSubscriptions failed: Approaching daily quota limit";
              err_status := None; err_code := None; quotaExceeded := false |}, throttled).
Proof.
  apply (getSubscriptions_preemptive_refusal "ya29.token" 50 None throttled
           {| quotaUsed := 9500; resetTime := 86400000; requestCount := 95 |});
    [reflexivity|reflexivity|simpl; lia].
Defined.

(** X5.  A getSubscriptions call that misses the cache and is delivered a
    page makes exactly one call and returns the page. Repeated with the same
    token, page size and page token less than 30 minutes later it returns
    the same page without any call or any change to the world; more than 30
    minutes later it calls the upstream again, whether the store has already
    dropped the cached page or still holds it. *)
Theorem getSubscriptions_cached (tok : string) (maxResults : Z) (pageToken : option string)
    (w : World) (d : ApiResponse) :
  youtube_cache (kv w) !! subscriptionsCacheKey tok maxResults pageToken = None →
  rate_limit (kv w) !! "youtube_api" = None →
  delivers (net w (length (calls w)) (subscriptionsRequest tok maxResults pageToken)) = Some d →
  ∃ w1, getSubscriptions tok maxResults pageToken w = (Return d, w1)
    ∧ calls w1 = calls w ++ [subscriptionsRequest tok maxResults pageToken]
    ∧ (∀ dt, dt < 30 * 60 * 1000 →
         getSubscriptions tok maxResults pageToken (elapse dt w1) = (Return d, elapse dt w1))
    ∧ (∀ dt x, 30 * 60 * 1000 < dt →
         calls (snd (getSubscriptions tok maxResults pageToken
                       (elapse dt (kept (subscriptionsCacheKey tok maxResults pageToken) x w1))))
         = calls w1 ++ [subscriptionsRequest tok maxResults pageToken]).
Proof.
  intros Hcache Hrl Hnet.
  set (key := subscriptionsCacheKey tok maxResults pageToken).
  set (req := subscriptionsRequest tok maxResults pageToken).
  exists (readDone req key subscriptionsCacheTTL "subscriptions" w).
  destruct (readDone_cached req key subscriptionsCacheTTL "subscriptions" w d Hnet)
    as (Hclock & Hcalls & Hslot).
  split; [|split; [exact Hcalls|split]].
  - rewrite getSubscriptions_unfold. unfold bind at 1. fold key req.
    unfold getFromCache. rewrite (kv_get_absent _ _ _ Hcache).
    by apply readThrough_delivers.
  - intros dt Hdt. rewrite getSubscriptions_unfold. unfold bind at 1. fold key req.
    erewrite getFromCache_hit; [reflexivity|exact Hslot| |];
      unfold elapse; cbn [clock with_clock]; rewrite Hclock;
      unfold subscriptionsCacheTTL; lia.
  - intros dt x Hdt. rewrite getSubscriptions_unfold. unfold bind at 1. fold key req.
    set (w1 := readDone req key subscriptionsCacheTTL "subscriptions" w) in *.
    destruct (getFromCache_past key (elapse dt (kept key x w1)) _
                (kept_slot key x w1 _ Hslot))
      as (w' & Hrun & _ & _ & Hc & _ & Hrl').
    { simpl. rewrite Hclock. unfold subscriptionsCacheTTL. lia. }
    rewrite Hrun. rewrite readThrough_calls.
    + rewrite Hc. reflexivity.
    + rewrite Hrl'. simpl. unfold w1. by rewrite readDone_rate_limit.
Qed.

Lemma getSubscriptions_cached_witness :
  ∃ w1, getSubscriptions "ya29.token" 50 None (online subscriptionPage)
        = (Return subscriptionPage, w1)
    ∧ calls w1 = calls (online subscriptionPage) ++ [subscriptionsRequest "ya29.token" 50 None]
    ∧ (∀ dt, dt < 30 * 60 * 1000 →
         getSubscriptions "ya29.token" 50 None (elapse dt w1)
         = (Return subscriptionPage, elapse dt w1))
    ∧ (∀ dt x, 30 * 60 * 1000 < dt →
         calls (snd (getSubscriptions "ya29.token" 50 None
                       (elapse dt (kept (subscriptionsCacheKey "ya29.token" 50 None) x w1))))
         = calls w1 ++ [subscriptionsRequest "ya29.token" 50 None]).
Proof.
  apply (getSubscriptions_cached "ya29.token" 50 None (online subscriptionPage) subscriptionPage);
    reflexivity.
Defined.

(** ** Detail lookups: one chunk, and a chunk that fails *)

Lemma batches_from_beyond {A} (fuel size i : nat) (l : list A) :
  (length l ≤ i)%nat → batches_from fuel size i l = [].
Proof.
  intros Hi. destruct fuel; [reflexivity|]. rewrite batches_from_S.
  assert ((i <? length l)%nat = false) as -> by (apply Nat.ltb_ge; lia).
  reflexivity.
Qed.

Lemma batches_single {A} (size : nat) (l : list A) :
  l ≠ [] → (length l ≤ size)%nat → batches size l = [l].
Proof.
  intros Hne Hlen. unfold batches. destruct l as [|x l]; [done|].
  cbn [length]. rewrite batches_from_S. cbn [length Nat.ltb Nat.leb].
  rewrite batches_from_beyond by (cbn [length] in *; lia).
  rewrite slice_take_drop. cbn [drop]. by rewrite take_ge.
Qed.

Lemma getVideoDetails_single tok (videoIds : list string) (w : World) :
  videoIds ≠ [] → (length videoIds ≤ 50)%nat →
  getVideoDetails tok videoIds w
  = match batchData tok videoIds w with
    | (Return d, w') => (Return (detailsOf (items d)), w')
    | (Throw e, w') => (Throw e, w')
    end.
Proof.
  intros Hne Hlen. unfold getVideoDetails.
  destruct videoIds as [|v vs] eqn:E; [done|]. cbn [length Nat.eqb]. rewrite <- E in *.
  rewrite batches_single by done.
  cbn [videoDetailsLoop]. unfold bind, ret.
  destruct (batchData tok videoIds w) as [[d|e] w']; reflexivity.
Qed.

Lemma videoDetailsCacheKey_perm tok tok' (b b' : list string) :
  b ≡ₚ b' → videoDetailsCacheKey tok b = videoDetailsCacheKey tok' b'.
Proof.
  intros Hp. unfold videoDetailsCacheKey. by rewrite (sort_Permutation_eq b b' Hp).
Qed.

(** X6.  After getVideoDetails has fetched a non-empty list of at most 50
    ids in one call, for the next 10 minutes getVideoDetails returns the
    same items for every access token and every reordering of those ids,
    without any call or any change to the world. *)
Theorem getVideoDetails_shared (tok : string) (videoIds : list string) (w : World)
    (d : ApiResponse) :
  videoIds ≠ [] → (length videoIds ≤ 50)%nat →
  youtube_cache (kv w) !! videoDetailsCacheKey tok videoIds = None →
  rate_limit (kv w) !! "youtube_api" = None →
  delivers (net w (length (calls w)) (videoDetailsRequest tok videoIds)) = Some d →
  ∃ w1, getVideoDetails tok videoIds w = (Return (detailsOf (items d)), w1)
    ∧ calls w1 = calls w ++ [videoDetailsRequest tok videoIds]
    ∧ ∀ tok' videoIds' dt, videoIds' ≡ₚ videoIds → dt < 10 * 60 * 1000 →
        getVideoDetails tok' videoIds' (elapse dt w1)
        = (Return (detailsOf (items d)), elapse dt w1).
Proof.
  intros Hne Hlen Hcache Hrl Hnet.
  exists (chunkDone tok videoIds w).
  destruct (readDone_cached (videoDetailsRequest tok videoIds)
              (videoDetailsCacheKey tok videoIds) videosCacheTTL "videos" w d Hnet)
    as (Hclock & Hcalls & Hslot).
  change (readDone _ _ _ _ w) with (chunkDone tok videoIds w) in Hclock, Hcalls, Hslot.
  split; [|split; [exact Hcalls|]].
  - rewrite getVideoDetails_single by done.
    by rewrite (batchData_fresh tok videoIds w d Hcache Hrl Hnet).
  - intros tok' ids' dt Hp Hdt.
    assert (Hne' : ids' ≠ []).
    { intros ->. apply Permutation_nil_l in Hp. by subst. }
    assert (Hlen' : (length ids' ≤ 50)%nat) by (by rewrite Hp).
    rewrite getVideoDetails_single by done.
    unfold batchData. unfold bind at 1.
    rewrite (videoDetailsCacheKey_perm tok' tok ids' videoIds Hp).
    erewrite getFromCache_hit; [reflexivity|exact Hslot| |];
      unfold elapse; cbn [clock with_clock]; rewrite Hclock; unfold videosCacheTTL; lia.
Qed.

Lemma getVideoDetails_shared_witness :
  ∃ w1, getVideoDetails "ya29.token" ["v2"; "v1"] echoing
        = (Return (detailsOf (items (echoed ["v2"; "v1"]))), w1)
    ∧ calls w1 = calls echoing ++ [videoDetailsRequest "ya29.token" ["v2"; "v1"]]
    ∧ ∀ tok' videoIds' dt, videoIds' ≡ₚ ["v2"; "v1"] → dt < 10 * 60 * 1000 →
        getVideoDetails tok' videoIds' (elapse dt w1)
        = (Return (detailsOf (items (echoed ["v2"; "v1"]))), elapse dt w1).
Proof.
  apply (getVideoDetails_shared "ya29.token" ["v2"; "v1"] echoing (echoed ["v2"; "v1"]));
    [discriminate|simpl; lia|reflexivity|reflexivity|reflexivity].
Defined.

Lemma readThrough_fails req cacheKey ttl endpoint operation (w : World) :
  rate_limit (kv w) !! "youtube_api" = None →
  delivers (net w (length (calls w)) req) = None →
  ∃ cause w', readThrough req cacheKey ttl endpoint operation w
              = (Throw (handleAPIError cause operation), w')
    ∧ kv w' = kv w ∧ calls w' = calls w ++ [req].
Proof.
  intros Hrl Hnet.
  pose proof (readThrough_spec req cacheKey ttl endpoint operation w) as Hspec.
  pose proof (readThrough_calls req cacheKey ttl endpoint operation w Hrl) as Hcalls.
  revert Hspec Hcalls. unfold readThrough, try_catch.
  match goal with
  | |- context [match ?m w with _ => _ end] => destruct (m w) as [[v|e] w'] eqn:Hrun
  end.
  - intros (Hd & _) _. congruence.
  - intros (_ & _ & Hkv) Hcalls. by exists e, w'.
Qed.

Lemma videoDetailsLoop_app (tok : string) (answer : list string → ApiResponse)
    (served rest : list (list string)) :
  NoDup (videoDetailsCacheKey tok <$> served) →
  ∀ (w : World) (allResults : list json),
    Forall (λ b, youtube_cache (kv w) !! videoDetailsCacheKey tok b = None) served →
    rate_limit (kv w) !! "youtube_api" = None →
    upstreamHolds tok w answer served →
    videoDetailsLoop tok (served ++ rest) allResults w
    = videoDetailsLoop tok rest (allResults ++ concat ((λ b, items (answer b)) <$> served))
        (chunksDone tok served w).
Proof.
  induction served as [|b bs IH]; intros Hnd w acc Habs Hrl Hup.
  - simpl. by rewrite app_nil_r.
  - rewrite fmap_cons in Hnd. apply NoDup_cons in Hnd as [Hb Hnd].
    apply Forall_cons in Habs as [Hb0 Habs].
    assert (Hd : delivers (net w (length (calls w)) (videoDetailsRequest tok b))
                 = Some (answer b)) by (apply Hup; left).
    cbn [app videoDetailsLoop]. unfold bind at 1.
    rewrite (batchData_fresh tok b w (answer b) Hb0 Hrl Hd).
    rewrite IH.
    + simpl. by rewrite <- app_assoc.
    + exact Hnd.
    + apply Forall_forall. intros b' Hin.
      rewrite Forall_forall in Habs. specialize (Habs b' Hin).
      rewrite chunkDone_cache_other; [exact Habs|].
      intros Heq. apply Hb. rewrite <- Heq. by apply list_elem_of_fmap_2.
    + by rewrite chunkDone_rate_limit.
    + intros n b' Hin. rewrite chunkDone_net. apply Hup. by right.
Qed.

Lemma chunksDone_rate_limit tok bs : ∀ w,
  rate_limit (kv (chunksDone tok bs w)) = rate_limit (kv w).
Proof.
  induction bs as [|b bs IH]; intros w; [reflexivity|].
  unfold chunksDone in *. simpl. by rewrite IH, chunkDone_rate_limit.
Qed.

(** X7.  If the chunks before some chunk are delivered and the call for that
    chunk fails (network failure or status outside 200..299),
    getVideoDetails throws that call's error wrapped by handleAPIError for
    'getVideoDetails'. It has made one call per chunk up to and including
    the failing one and none for the later chunks, and the store keeps
    exactly what the earlier chunks cached and recorded. *)
Theorem getVideoDetails_failing_chunk (tok : string) (videoIds : list string) (w : World)
    (answer : list string → ApiResponse) (served rest : list (list string))
    (failing : list string) :
  batches 50 videoIds = served ++ failing :: rest →
  NoDup (videoDetailsCacheKey tok <$> served ++ [failing]) →
  Forall (λ b, youtube_cache (kv w) !! videoDetailsCacheKey tok b = None) (served ++ [failing]) →
  rate_limit (kv w) !! "youtube_api" = None →
  upstreamHolds tok w answer served →
  (∀ n, declines (net w n (videoDetailsRequest tok failing)) = true) →
  ∃ cause w', getVideoDetails tok videoIds w
              = (Throw (handleAPIError cause "getVideoDetails"), w')
    ∧ calls w' = calls w ++ (videoDetailsRequest tok <$> served ++ [failing])
    ∧ kv w' = kv (chunksDone tok served w).
Proof.
  intros Hbs Hnd Habs Hrl Hup Hfail.
  assert (Hne : videoIds ≠ []).
  { intros ->. by destruct served. }
  rewrite fmap_app in Hnd. apply NoDup_app in Hnd as (Hnd & Hdis & _).
  apply Forall_app in Habs as [Habs Hf]. rewrite Forall_singleton in Hf.
  set (w1 := chunksDone tok served w).
  assert (Hrl1 : rate_limit (kv w1) !! "youtube_api" = None)
    by (unfold w1; by rewrite chunksDone_rate_limit).
  assert (Hf1 : youtube_cache (kv w1) !! videoDetailsCacheKey tok failing = None).
  { unfold w1. rewrite chunksDone_cache_other; [exact Hf|].
    intros Hin. apply (Hdis _ Hin). simpl. left. }
  assert (Hn1 : delivers (net w1 (length (calls w1)) (videoDetailsRequest tok failing)) = None).
  { unfold w1. rewrite chunksDone_net. apply declines_delivers, Hfail. }
  destruct (readThrough_fails (videoDetailsRequest tok failing)
              (videoDetailsCacheKey tok failing) videosCacheTTL "videos" "getVideoDetails"
              w1 Hrl1 Hn1) as (cause & w' & Hrun & Hkv & Hcalls).
  exists cause, w'. split; [|split].
  - unfold getVideoDetails. destruct videoIds as [|v vs]; [done|].
    cbn [length Nat.eqb]. unfold bind at 1. rewrite Hbs.
    rewrite (videoDetailsLoop_app tok answer served (failing :: rest) Hnd w [] Habs Hrl Hup).
    fold w1. cbn [videoDetailsLoop]. unfold bind at 1.
    unfold batchData. unfold bind at 1. unfold getFromCache.
    rewrite (kv_get_absent _ _ _ Hf1).
    change (try_catch _ _ w1) with
      (readThrough (videoDetailsRequest tok failing) (videoDetailsCacheKey tok failing)
         videosCacheTTL "videos" "getVideoDetails" w1).
    rewrite Hrun. reflexivity.
  - rewrite Hcalls. unfold w1. rewrite chunksDone_calls, fmap_app, <- app_assoc. reflexivity.
  - exact Hkv.
Qed.

Lemma getVideoDetails_failing_chunk_witness :
  ∃ cause w', getVideoDetails "ya29.token" (take 60 sampleIds) partial_world
              = (Throw (handleAPIError cause "getVideoDetails"), w')
    ∧ calls w' = calls partial_world
                 ++ (videoDetailsRequest "ya29.token"
                       <$> [take 50 sampleIds] ++ [drop 50 (take 60 sampleIds)])
    ∧ kv w' = kv (chunksDone "ya29.token" [take 50 sampleIds] partial_world).
Proof.
  apply (getVideoDetails_failing_chunk "ya29.token" (take 60 sampleIds) partial_world echoed
           [take 50 sampleIds] [] (drop 50 (take 60 sampleIds))).
  - vm_compute. reflexivity.
  - apply (bool_decide_unpack _). vm_compute. reflexivity.
  - repeat constructor.
  - reflexivity.
  - intros n b Hb. apply list_elem_of_singleton in Hb. subst b. vm_compute. reflexivity.
  - intros n. vm_compute. reflexivity.
Defined.

(** ** Channel pages *)

Lemma getChannelVideos_unfold tok c maxResults pageToken publishedAfter :
  getChannelVideos tok c maxResults pageToken publishedAfter
  = (let* cached := getFromCache (channelVideosCacheKey tok c maxResults pageToken publishedAfter) in
     match cached with
     | Some d => ret d
     | None => readThrough (channelVideosRequest tok c maxResults pageToken publishedAfter)
                 (channelVideosCacheKey tok c maxResults pageToken publishedAfter)
                 videosCacheTTL "search" "getChannelVideos"
     end).
Proof. reflexivity. Qed.

(** X8.  A getChannelVideos call that misses the cache and is delivered a
    page makes one call, adds 100 units and one request to the day's usage
    record and returns the page. For the next 10 minutes the same channel,
    page size, page token and publishedAfter return that page for every
    access token, without any call or any change to the world. *)
Theorem getChannelVideos_shared (tok : string) (c : string) (maxResults : Z)
    (pageToken : option string) (publishedAfter : option Z) (w : World) (d : ApiResponse) :
  youtube_cache (kv w) !! channelVideosCacheKey tok c maxResults pageToken publishedAfter = None →
  rate_limit (kv w) !! "youtube_api" = None →
  delivers (net w (length (calls w))
              (channelVideosRequest tok c maxResults pageToken publishedAfter)) = Some d →
  ∃ w1, getChannelVideos tok c maxResults pageToken publishedAfter w = (Return d, w1)
    ∧ calls w1 = calls w ++ [channelVideosRequest tok c maxResults pageToken publishedAfter]
    ∧ currentUsage (api_usage (kv w1)) (clock w1)
      = (fst (currentUsage (api_usage (kv w)) (clock w1)) + 100,
         snd (currentUsage (api_usage (kv w)) (clock w1)) + 1)
    ∧ ∀ tok' dt, dt < 10 * 60 * 1000 →
        getChannelVideos tok' c maxResults pageToken publishedAfter (elapse dt w1)
        = (Return d, elapse dt w1).
Proof.
  intros Hcache Hrl Hnet.
  set (key := channelVideosCacheKey tok c maxResults pageToken publishedAfter).
  set (req := channelVideosRequest tok c maxResults pageToken publishedAfter).
  exists (readDone req key videosCacheTTL "search" w).
  destruct (readDone_cached req key videosCacheTTL "search" w d Hnet)
    as (Hclock & Hcalls & Hslot).
  split; [|split; [exact Hcalls|split]].
  - rewrite getChannelVideos_unfold. unfold bind at 1. fold key req.
    unfold getFromCache. rewrite (kv_get_absent _ _ _ Hcache).
    by apply readThrough_delivers.
  - rewrite Hclock. revert Hnet. unfold readDone, fetch, delivers.
    destruct (reply _) as [msg|r]; [done|]. destruct (ok r); [|done].
    destruct (parsed r); try done. intros _. simpl.
    unfold currentUsage, updatedUsage, kv_get at 1, kv_set. rewrite lookup_insert_eq.
    unfold live. simpl.
    match goal with |- context [?a <? ?a + ?b] =>
      assert ((a <? a + b) = true) as -> by lia end.
    by destruct (kv_get _ _ _).
  - intros tok' dt Hdt. rewrite getChannelVideos_unfold. unfold bind at 1.
    change (channelVideosCacheKey tok' c maxResults pageToken publishedAfter) with key.
    erewrite getFromCache_hit; [reflexivity|exact Hslot| |];
      unfold elapse; cbn [clock with_clock]; rewrite Hclock; unfold videosCacheTTL; lia.
Qed.

Lemma getChannelVideos_shared_witness :
  ∃ w1, getChannelVideos "ya29.token" "UC-1" 10 None None flaky_world = (Return (uploads "UC-1"), w1)
    ∧ calls w1 = calls flaky_world ++ [channelVideosRequest "ya29.token" "UC-1" 10 None None]
    ∧ currentUsage (api_usage (kv w1)) (clock w1)
      = (fst (currentUsage (api_usage (kv flaky_world)) (clock w1)) + 100,
         snd (currentUsage (api_usage (kv flaky_world)) (clock w1)) + 1)
    ∧ ∀ tok' dt, dt < 10 * 60 * 1000 →
        getChannelVideos tok' "UC-1" 10 None None (elapse dt w1)
        = (Return (uploads "UC-1"), elapse dt w1).
Proof.
  apply (getChannelVideos_shared "ya29.token" "UC-1" 10 None None flaky_world (uploads "UC-1"));
    reflexivity.
Defined.

(** ** The calls of a channel batch *)

Lemma makeRequest_calls_cases req (w : World) (P : list HttpRequest → Prop) :
  P (calls w) → P (calls w ++ [req]) → P (calls (snd (makeRequest req w))).
Proof.
  intros H0 H1.
  destruct (checkRateLimit_spec w) as [H | (e & H & _)];
    unfold makeRequest; unfold bind at 1; rewrite H; [|exact H0].
  unfold bind at 1. unfold fetch.
  destruct (reply _) as [msg|r]; [exact H1|].
  destruct (ok r); cbn [negb]; [exact H1|].
  destruct ((status r =? 403) && bool_decide (errorReason r = Some "quotaExceeded"));
    [exact H1|].
  destruct (status r =? 429); exact H1.
Qed.

Lemma readThrough_calls_cases req cacheKey ttl endpoint operation (w : World)
    (P : list HttpRequest → Prop) :
  P (calls w) → P (calls w ++ [req]) →
  P (calls (snd (readThrough req cacheKey ttl endpoint operation w))).
Proof.
  intros H0 H1. pose proof (makeRequest_calls_cases req w P H0 H1) as Hc.
  unfold readThrough, try_catch. unfold bind at 1.
  destruct (makeRequest req w) as [[r|e] w1]; simpl in Hc; [|exact Hc].
  unfold response_json, bind. destruct (parsed r); simpl; exact Hc.
Qed.

Lemma channelOrEmpty_calls tok c maxResults publishedAfter (w : World) :
  ∃ v w', channelOrEmpty tok c maxResults publishedAfter w = (Return v, w')
    ∧ (calls w' = calls w
       ∨ calls w' = calls w ++ [channelVideosRequest tok c maxResults None publishedAfter]).
Proof.
  unfold channelOrEmpty, try_catch. rewrite getChannelVideos_unfold. unfold bind at 1.
  assert (Hg : ∃ o, getFromCache (channelVideosCacheKey tok c maxResults None publishedAfter) w
                    = (Return o, snd (getFromCache (channelVideosCacheKey tok c maxResults None publishedAfter) w))
               ∧ calls (snd (getFromCache (channelVideosCacheKey tok c maxResults None publishedAfter) w))
                 = calls w).
  { unfold getFromCache. destruct (kv_get _ _ _) as [e|]; [|by eexists].
    destruct (clock w >? expiresAt e); by eexists. }
  destruct Hg as (o & Hrun & Hcalls). rewrite Hrun.
  destruct o as [d|]; [eexists _, _; split; [reflexivity|by left]|].
  pose proof (readThrough_calls_cases
                (channelVideosRequest tok c maxResults None publishedAfter)
                (channelVideosCacheKey tok c maxResults None publishedAfter)
                videosCacheTTL "search" "getChannelVideos"
                (snd (getFromCache (channelVideosCacheKey tok c maxResults None publishedAfter) w))
                (λ l, l = calls w
                      ∨ l = calls w ++ [channelVideosRequest tok c maxResults None publishedAfter]))
    as Hrt.
  rewrite Hcalls in Hrt. specialize (Hrt (or_introl eq_refl) (or_intror eq_refl)).
  destruct (readThrough _ _ _ _ _ _) as [[v|e] w']; simpl in Hrt;
    eexists _, _; (split; [reflexivity|exact Hrt]).
Qed.

Lemma channelBatch_calls tok maxResults publishedAfter (batch : list string) : ∀ w,
  ∃ rs w' cs, channelBatch tok batch maxResults publishedAfter w = (Return rs, w')
    ∧ sublist cs batch
    ∧ calls w' = calls w ++ ((λ c, channelVideosRequest tok c maxResults None publishedAfter) <$> cs).
Proof.
  induction batch as [|c batch IH]; intros w.
  - exists [], w, []. simpl. by rewrite app_nil_r.
  - destruct (channelOrEmpty_calls tok c maxResults publishedAfter w) as (v & w1 & Hrun & Hc).
    destruct (IH w1) as (rs & w2 & cs & Hrest & Hsub & Hcalls).
    cbn [channelBatch]. unfold bind at 1. rewrite Hrun. unfold bind at 1. rewrite Hrest.
    destruct Hc as [Hc|Hc].
    + exists ((c, v) :: rs), w2, cs. split; [reflexivity|]. split; [by constructor|].
      by rewrite Hcalls, Hc.
    + exists ((c, v) :: rs), w2, (c :: cs). split; [reflexivity|]. split; [by constructor|].
      rewrite Hcalls, Hc, <- app_assoc. reflexivity.
Qed.

Lemma channelBatchLoop_calls tok maxResults publishedAfter (bs : list (list string)) :
  ∀ w results,
  ∃ m w' cs, channelBatchLoop tok bs maxResults publishedAfter results w = (Return m, w')
    ∧ sublist cs (concat bs)
    ∧ calls w' = calls w ++ ((λ c, channelVideosRequest tok c maxResults None publishedAfter) <$> cs).
Proof.
  induction bs as [|batch bs IH]; intros w results.
  - exists results, w, []. simpl. by rewrite app_nil_r.
  - destruct (channelBatch_calls tok maxResults publishedAfter batch w)
      as (rs & w1 & cs1 & Hrun & Hsub1 & Hc1).
    set (w2 := match bs with [] => w1 | _ => with_clock (λ t, t + 100) w1 end).
    assert (Hdelay : (match bs with [] => ret tt | _ => delay 100 end) w1 = (Return tt, w2)).
    { unfold w2. by destruct bs. }
    assert (Hc2 : calls w2 = calls w1) by (unfold w2; by destruct bs).
    destruct (IH w2 (setAll results rs)) as (m & w' & cs2 & Hloop & Hsub2 & Hc').
    exists m, w', (cs1 ++ cs2). cbn [channelBatchLoop]. unfold bind at 1. rewrite Hrun.
    unfold bind at 1. rewrite Hdelay. split; [exact Hloop|]. split.
    + simpl. by apply sublist_app.
    + rewrite Hc', Hc2, Hc1, fmap_app, <- app_assoc. reflexivity.
Qed.

(** X9.  batchGetChannelVideos always returns a result. Every call it adds
    to the log is a search for one of the listed channels, and it adds at
    most as many calls as there are channel ids. *)
Theorem batchGetChannelVideos_calls (tok : string) (channelIds : list string) (maxResults : Z)
    (publishedAfter : option Z) (w : World) :
  ∃ results w' more,
    batchGetChannelVideos tok channelIds maxResults publishedAfter w = (Return results, w')
    ∧ calls w' = calls w ++ more
    ∧ Forall (λ r, ∃ c, c ∈ channelIds
                 ∧ r = channelVideosRequest tok c maxResults None publishedAfter) more
    ∧ (length more ≤ length channelIds)%nat.
Proof.
  destruct (channelBatchLoop_calls tok maxResults publishedAfter (batches 5 channelIds) w ∅)
    as (m & w' & cs & Hrun & Hsub & Hcalls).
  rewrite batches_concat in Hsub by lia.
  exists m, w', ((λ c, channelVideosRequest tok c maxResults None publishedAfter) <$> cs).
  split; [exact Hrun|]. split; [exact Hcalls|]. split.
  - apply Forall_fmap, Forall_forall. intros c Hc. exists c. split; [|reflexivity].
    exact (elem_of_submseteq _ _ _ Hc (sublist_submseteq _ _ Hsub)).
  - rewrite length_fmap. by apply sublist_length.
Qed.

(** * Further properties of the session lifecycle *)

Lemma storeTokens_run (userId : string) (tokens : TokenResponse) (w : World) :
  ∃ w1, storeTokens userId tokens w = (Return (uuids w (drawn w)), w1)
    ∧ clock w1 = clock w ∧ calls w1 = calls w ∧ net w1 = net w ∧ uuids w1 = uuids w
    ∧ drawn w1 = S (drawn w) ∧ env w1 = env w
    ∧ sessions (kv w1)
      = <[uuids w (drawn w) := {| value := newSession userId tokens w; expireAt := None |}]>
          (sessions (kv w))
    ∧ user_sessions (kv w1)
      = <[userId := {| value := uuids w (drawn w); expireAt := None |}]> (user_sessions (kv w))
    ∧ oauth_states (kv w1) = oauth_states (kv w)
    ∧ youtube_cache (kv w1) = youtube_cache (kv w)
    ∧ rate_limit (kv w1) = rate_limit (kv w)
    ∧ api_usage (kv w1) = api_usage (kv w).
Proof.
  exists (snd (storeTokens userId tokens w)). split; [reflexivity|].
  repeat split; reflexivity.
Qed.

Lemma getStoredTokens_stored (sessionId : string) (w : World) (stored : UserSession)
    (x : option Z) :
  sessions (kv w) !! sessionId = Some {| value := stored; expireAt := x |} →
  live {| value := stored; expireAt := x |} (clock w) = true →
  getStoredTokens sessionId w
  = (Return (Some (touch stored (clock w))),
     with_kv (with_sessions (λ m, kv_set m sessionId (touch stored (clock w)) None (clock w))) w).
Proof.
  intros Hs Hl. unfold getStoredTokens. run. unfold kv_get. rewrite Hs, Hl. reflexivity.
Qed.

Lemma getUserSession_pointer (userId sessionId : string) (w : World) :
  kv_get (user_sessions (kv w)) userId (clock w) = Some sessionId →
  sessionId ≠ EmptyString →
  getUserSession userId w = getStoredTokens sessionId w.
Proof.
  intros Hp Hne. unfold getUserSession. run. rewrite Hp.
  destruct sessionId; [done|reflexivity].
Qed.

(** X10.  storeTokens returns the id drawn by crypto.randomUUID. Reading
    that id back with getStoredTokens at any later time, or the user with
    getUserSession when the id is not the empty string, returns the session
    that was stored (user id, tokens, expiry at the time of storing plus
    expires_in seconds) with lastAccessed set to the time of the read. *)
Theorem storeTokens_then_read (userId : string) (tokens : TokenResponse) (w : World) (dt : Z) :
  ∃ w1, storeTokens userId tokens w = (Return (uuids w (drawn w)), w1)
    ∧ fst (getStoredTokens (uuids w (drawn w)) (elapse dt w1))
      = Return (Some (touch (newSession userId tokens w) (clock w + dt)))
    ∧ (uuids w (drawn w) ≠ EmptyString →
       fst (getUserSession userId (elapse dt w1))
       = Return (Some (touch (newSession userId tokens w) (clock w + dt)))).
Proof.
  destruct (storeTokens_run userId tokens w)
    as (w1 & Hrun & Hclock & _ & _ & _ & _ & _ & Hs & Hu & _).
  exists w1. split; [exact Hrun|].
  assert (Hget : getStoredTokens (uuids w (drawn w)) (elapse dt w1)
                 = (Return (Some (touch (newSession userId tokens w) (clock w + dt))),
                    with_kv (with_sessions (λ m, kv_set m (uuids w (drawn w))
                       (touch (newSession userId tokens w) (clock w + dt)) None (clock w + dt)))
                      (elapse dt w1))).
  { erewrite getStoredTokens_stored.
    - simpl. rewrite Hclock. reflexivity.
    - simpl. rewrite Hs. apply lookup_insert_eq.
    - reflexivity. }
  split; [by rewrite Hget|].
  intros Hne. rewrite (getUserSession_pointer userId (uuids w (drawn w))); [by rewrite Hget| |done].
  unfold kv_get. simpl. by rewrite Hu, lookup_insert_eq.
Qed.

Lemma storeTokens_then_read_witness :
  fst (getUserSession "user-1"
         (elapse 5000 (snd (storeTokens "user-1" (sample_tokens "access-a") (numbered_world 0)))))
  = Return (Some (touch (newSession "user-1" (sample_tokens "access-a") (numbered_world 0)) 5000)).
Proof.
  destruct (storeTokens_then_read "user-1" (sample_tokens "access-a") (numbered_world 0) 5000)
    as (w1 & Hrun & _ & Hread).
  rewrite Hrun. apply Hread. vm_compute. discriminate.
Defined.

(** X11.  When the same user is stored twice and the two session ids drawn
    differ, the user's pointer names the second session and both session
    records are in the store: the first is still readable by its id. *)
Theorem storeTokens_supersedes (userId : string) (tokens1 tokens2 : TokenResponse) (w : World)
    (dt : Z) :
  uuids w (drawn w) ≠ uuids w (S (drawn w)) →
  ∃ w1 w2,
    storeTokens userId tokens1 w = (Return (uuids w (drawn w)), w1)
    ∧ storeTokens userId tokens2 (elapse dt w1) = (Return (uuids w (S (drawn w))), w2)
    ∧ kv_get (user_sessions (kv w2)) userId (clock w2) = Some (uuids w (S (drawn w)))
    ∧ kv_get (sessions (kv w2)) (uuids w (drawn w)) (clock w2)
      = Some (newSession userId tokens1 w)
    ∧ kv_get (sessions (kv w2)) (uuids w (S (drawn w))) (clock w2)
      = Some (newSession userId tokens2 (elapse dt w1)).
Proof.
  intros Hne.
  destruct (storeTokens_run userId tokens1 w)
    as (w1 & Hrun1 & Hclock1 & _ & _ & Hu1 & Hd1 & _ & Hs1 & Hp1 & _).
  destruct (storeTokens_run userId tokens2 (elapse dt w1))
    as (w2 & Hrun2 & Hclock2 & _ & _ & _ & _ & _ & Hs2 & Hp2 & _).
  simpl in Hrun2, Hs2, Hp2. rewrite Hu1, Hd1 in Hrun2, Hs2, Hp2.
  exists w1, w2. split; [exact Hrun1|]. split; [exact Hrun2|].
  unfold kv_get. rewrite Hp2, Hs2, lookup_insert_eq, lookup_insert_eq.
  rewrite lookup_insert_ne by done. rewrite Hs1, lookup_insert_eq. done.
Qed.

Lemma storeTokens_supersedes_witness :
  ∃ w1 w2,
    storeTokens "user-1" (sample_tokens "access-a") (numbered_world 0) = (Return "session-0", w1)
    ∧ storeTokens "user-1" (sample_tokens "access-b") (elapse 1000 w1) = (Return "session-1", w2)
    ∧ kv_get (user_sessions (kv w2)) "user-1" (clock w2) = Some "session-1"
    ∧ kv_get (sessions (kv w2)) "session-0" (clock w2)
      = Some (newSession "user-1" (sample_tokens "access-a") (numbered_world 0))
    ∧ kv_get (sessions (kv w2)) "session-1" (clock w2)
      = Some (newSession "user-1" (sample_tokens "access-b") (elapse 1000 w1)).
Proof.
  apply (storeTokens_supersedes "user-1" (sample_tokens "access-a") (sample_tokens "access-b")
           (numbered_world 0) 1000).
  vm_compute. discriminate.
Defined.

(** X12.  getStoredTokens never throws. For an unknown id it returns null
    and leaves the world unchanged; for a stored id it returns the stored
    session with lastAccessed set to the current time and writes that
    session back, changing no other session, no user pointer, neither the
    clock nor the call log. *)
Theorem getStoredTokens_touches (sessionId : string) (w : World) :
  match getStoredTokens sessionId w with
  | (Return (Some session), w') =>
      ∃ stored, kv_get (sessions (kv w)) sessionId (clock w) = Some stored
        ∧ session = touch stored (clock w)
        ∧ kv_get (sessions (kv w')) sessionId (clock w') = Some session
        ∧ (∀ other, other ≠ sessionId → sessions (kv w') !! other = sessions (kv w) !! other)
        ∧ user_sessions (kv w') = user_sessions (kv w)
        ∧ clock w' = clock w ∧ calls w' = calls w
  | (Return None, w') => kv_get (sessions (kv w)) sessionId (clock w) = None ∧ w' = w
  | (Throw _, _) => False
  end.
Proof.
  unfold getStoredTokens. run.
  destruct (kv_get (sessions (kv w)) sessionId (clock w)) as [stored|] eqn:Hget; [|done].
  simpl. exists stored. split; [done|]. split; [done|].
  unfold kv_get, kv_set. rewrite lookup_insert_eq. split; [done|].
  split; [|done]. intros other Hne. by rewrite lookup_insert_ne.
Qed.

Lemma getStoredTokens_touches_witness :
  match getStoredTokens "session-0" (elapse 500 (signed_in refusing)) with
  | (Return (Some session), w') => session = touch session0 500 ∧ calls w' = []
  | _ => False
  end.
Proof.
  pose proof (getStoredTokens_touches "session-0" (elapse 500 (signed_in refusing))) as H.
  destruct (getStoredTokens "session-0" (elapse 500 (signed_in refusing))) as [[[s|]|e] w'].
  - destruct H as (stored & Hget & -> & _ & _ & _ & _ & Hcalls).
    vm_compute in Hget. injection Hget as <-. split; [reflexivity|exact Hcalls].
  - destruct H as [H _]. vm_compute in H. discriminate.
  - exact H.
Defined.

Lemma deleteSession_calls (sessionId : string) (w : World) :
  calls (snd (deleteSession sessionId w)) = calls w
  ∧ clock (snd (deleteSession sessionId w)) = clock w
  ∧ fst (deleteSession sessionId w) = Return tt.
Proof.
  unfold deleteSession, getStoredTokens. run.
  destruct (kv_get (sessions (kv w)) sessionId (clock w)); repeat split; reflexivity.
Qed.

(** The outcomes of a refresh that [ensureValidToken] attempts. *)
Lemma ensureValidToken_expired (h : OAuthHandler) (session : UserSession) (w : World) :
  isTokenExpired (clock w) session = true →
  match ensureValidToken h session w with
  | (Return s, w') =>
      ∃ r t, reply (granted h session w) = NetOk r ∧ ok r = true ∧ parsed r = PTokens t
        ∧ s = {| id := id session; userId := userId session;
                 accessToken := access_token t;
                 refreshToken := str_or (tj_refresh_token t) (refreshToken session);
                 tokenExpiresAt := clock w + took (granted h session w) + expires_in t * 1000;
                 createdAt := createdAt session;
                 lastAccessed := clock w + took (granted h session w) |}
        ∧ clock w' = clock w + took (granted h session w)
        ∧ calls w' = calls w ++ [refreshRequest h (refreshToken session)]
  | (Throw e, w') =>
      calls w' = calls w ++ [refreshRequest h (refreshToken session)]
      ∧ clock w' = clock w + took (granted h session w)
      ∧ (∀ r t, reply (granted h session w) = NetOk r → ok r = true → parsed r ≠ PTokens t)
      ∧ deleteSession (id session) (snd (fetch (refreshRequest h (refreshToken session)) w))
        = (Return tt, w')
  end.
Proof.
  intros Hexp.
  set (w1 := {| kv := kv w; clock := clock w + took (granted h session w);
                calls := calls w ++ [refreshRequest h (refreshToken session)];
                net := net w; uuids := uuids w; drawn := drawn w; env := env w |}).
  assert (Hw1 : snd (fetch (refreshRequest h (refreshToken session)) w) = w1).
  { unfold fetch. fold (granted h session w). by destruct (reply (granted h session w)). }
  rewrite Hw1.
  unfold ensureValidToken. run. rewrite Hexp.
  unfold refreshAccessToken, fetch. run. fold (granted h session w). fold w1.
  destruct (deleteSession_calls (id session) w1) as (Hc & Hk & Hr).
  destruct (deleteSession (id session) w1) as [o w2] eqn:Hdel. simpl in Hc, Hk, Hr. subst o.
  destruct (reply (granted h session w)) as [msg|r] eqn:Hreply.
  { simpl. rewrite Hdel. split; [done|]. split; [done|]. split; [|done]. intros r t [=]. }
  destruct (ok r) eqn:Hok; cbn [negb].
  2: { simpl. rewrite Hdel. split; [done|]. split; [done|]. split; [|done].
       intros r' t [= <-]. congruence. }
  unfold token_json.
  destruct (parsed r) as [| | |t|] eqn:Hparsed; run;
    try (simpl; rewrite Hdel; split; [done|]; split; [done|]; split; [|done];
         intros r' t' [= <-] _; congruence).
  exists r, t. simpl. repeat split; reflexivity || done.
Qed.

(** X13.  ensureValidToken returns a session that is not within 5 minutes of
    expiry as it is, leaving the world unchanged. Otherwise it makes exactly
    one call, the refresh request, and a session it then returns keeps id,
    userId and createdAt, carries the access token of the reply, and keeps
    the old refresh token when the reply has none or an empty one, else
    takes the reply's. *)
Theorem ensureValidToken_refresh (h : OAuthHandler) (session : UserSession) (w : World) :
  (isTokenExpired (clock w) session = false →
     ensureValidToken h session w = (Return session, w))
  ∧ (isTokenExpired (clock w) session = true →
     calls (snd (ensureValidToken h session w))
     = calls w ++ [refreshRequest h (refreshToken session)]
     ∧ ∀ s, fst (ensureValidToken h session w) = Return s →
         id s = id session ∧ userId s = userId session ∧ createdAt s = createdAt session
         ∧ ∃ r t, reply (granted h session w) = NetOk r ∧ parsed r = PTokens t
             ∧ accessToken s = access_token t
             ∧ (falsy (tj_refresh_token t) = true → refreshToken s = refreshToken session)
             ∧ (falsy (tj_refresh_token t) = false → Some (refreshToken s) = tj_refresh_token t)).
Proof.
  split.
  - intros Hexp. unfold ensureValidToken. run. by rewrite Hexp.
  - intros Hexp. pose proof (ensureValidToken_expired h session w Hexp) as H.
    destruct (ensureValidToken h session w) as [[s|e] w']; simpl.
    + destruct H as (r & t & Hreply & Hok & Hp & -> & Hclock & Hcalls).
      split; [exact Hcalls|]. intros s' [= <-]. simpl.
      split; [done|]. split; [done|]. split; [done|].
      exists r, t. split; [done|]. split; [done|]. split; [done|].
      destruct (tj_refresh_token t) as [[|a rt]|]; simpl; split; done.
    + destruct H as (Hcalls & _). split; [exact Hcalls|]. intros s [=].
Qed.

Lemma ensureValidToken_refresh_witness :
  calls (snd (ensureValidToken handler0 session0 (signed_in (granting 3600))))
  = [refreshRequest handler0 "refresh"]
  ∧ ∀ s, fst (ensureValidToken handler0 session0 (signed_in (granting 3600))) = Return s →
      id s = "session-0" ∧ accessToken s = "access-b" ∧ refreshToken s = "refresh".
Proof.
  destruct (ensureValidToken_refresh handler0 session0 (signed_in (granting 3600))) as [_ H].
  destruct (H eq_refl) as [Hcalls Hs]. split; [exact Hcalls|].
  intros s Hrun. destruct (Hs s Hrun) as (Hid & _ & _ & r & t & Hr & Ht & Ha & Hkeep & _).
  vm_compute in Hr. injection Hr as <-. simpl in Ht. injection Ht as <-.
  split; [exact Hid|]. split; [exact Ha|]. apply Hkeep. reflexivity.
Defined.

(** X14.  If ensureValidToken returned a session, and any lifetime granted
    by the refresh is at least 300 seconds, then calling ensureValidToken on
    the returned session at once returns it again and leaves the world
    unchanged: there is no second refresh. *)
Theorem ensureValidToken_settles (h : OAuthHandler) (session s : UserSession) (w w' : World) :
  ensureValidToken h session w = (Return s, w') →
  (∀ r t, reply (granted h session w) = NetOk r → parsed r = PTokens t → 300 ≤ expires_in t) →
  ensureValidToken h s w' = (Return s, w').
Proof.
  intros Hrun Hlife.
  destruct (isTokenExpired (clock w) session) eqn:Hexp.
  - pose proof (ensureValidToken_expired h session w Hexp) as H. rewrite Hrun in H.
    destruct H as (r & t & Hreply & Hok & Hp & -> & Hclock & Hcalls).
    specialize (Hlife r t Hreply Hp).
    unfold ensureValidToken. run.
    assert (isTokenExpired (clock w')
              {| id := id session; userId := userId session; accessToken := access_token t;
                 refreshToken := str_or (tj_refresh_token t) (refreshToken session);
                 tokenExpiresAt := clock w + took (granted h session w) + expires_in t * 1000;
                 createdAt := createdAt session;
                 lastAccessed := clock w + took (granted h session w) |} = false) as ->.
    { unfold isTokenExpired, bufferTime. simpl. lia. }
    reflexivity.
  - unfold ensureValidToken in Hrun. revert Hrun. run. rewrite Hexp. intros [= <- <-].
    unfold ensureValidToken. run. by rewrite Hexp.
Qed.

Lemma ensureValidToken_settles_witness :
  ∃ s w', ensureValidToken handler0 session0 (signed_in (granting 3600)) = (Return s, w')
    ∧ ensureValidToken handler0 s w' = (Return s, w').
Proof.
  exists {| id := "session-0"; userId := "user-1"; accessToken := "access-b";
            refreshToken := "refresh"; tokenExpiresAt := 3600200; createdAt := 0;
            lastAccessed := 200 |},
         (snd (ensureValidToken handler0 session0 (signed_in (granting 3600)))).
  assert (Hrun : ensureValidToken handler0 session0 (signed_in (granting 3600))
                 = (Return {| id := "session-0"; userId := "user-1"; accessToken := "access-b";
                              refreshToken := "refresh"; tokenExpiresAt := 3600200;
                              createdAt := 0; lastAccessed := 200 |},
                    snd (ensureValidToken handler0 session0 (signed_in (granting 3600)))))
    by (vm_compute; reflexivity).
  split; [exact Hrun|].
  apply (ensureValidToken_settles handler0 session0 _ (signed_in (granting 3600)) _ Hrun).
  intros r t Hr Ht. vm_compute in Hr. injection Hr as <-. simpl in Ht. injection Ht as <-.
  simpl. lia.
Defined.

(** X15.  A GET on login with client id and secret configured (and a non-
    empty state drawn) redirects to the Google authorization URL whose query
    carries the freshly drawn state, the configured client_id, the
    redirect_uri (OAUTH_REDIRECT_URI, else origin + /api/auth/callback),
    response_type=code and access_type=offline, and no client_secret. The
    state is stored unused and is readable for less than 10 minutes. *)
Theorem login_redirect (req : Request) (w : World) :
  req_method req = "GET" → configured w → issuedState w ≠ EmptyString →
  ∃ params w',
    login req w = (Return (redirect (External "https://accounts.google.com/o/oauth2/v2/auth" params)), w')
    ∧ searchParam "state" params = Some (issuedState w)
    ∧ searchParam "client_id" params = env w "GOOGLE_CLIENT_ID"
    ∧ searchParam "redirect_uri" params
      = Some (str_or (env w "OAUTH_REDIRECT_URI") (origin req +:+ "/api/auth/callback"))
    ∧ searchParam "response_type" params = Some "code"
    ∧ searchParam "access_type" params = Some "offline"
    ∧ searchParam "client_secret" params = None
    ∧ (∀ dt, dt < 10 * 60 * 1000 →
         kv_get (oauth_states (kv w')) (issuedState w) (clock w + dt)
         = Some {| st_createdAt := clock w; used := false |}).
Proof.
  intros Hm [Hc Hs] Hne.
  assert (Hop : opt_param "state" (Some (issuedState w)) = [("state", issuedState w)]).
  { destruct (issuedState w); [done|reflexivity]. }
  exists ([("client_id", str_or (env w "GOOGLE_CLIENT_ID") "");
           ("redirect_uri",
            str_or (env w "OAUTH_REDIRECT_URI") (origin req +:+ "/api/auth/callback"));
           ("response_type", "code");
           ("scope", "https://www.googleapis.com/auth/youtube.readonly");
           ("access_type", "offline"); ("prompt", "consent"); ("state", issuedState w)]).
  unfold login. rewrite Hm. cbn [String.eqb Ascii.eqb Bool.eqb negb].
  unfold generateState, randomUUID. run. rewrite Hc, Hs. cbn [orb]. run.
  fold (issuedState w). unfold generateAuthUrl. rewrite Hop.
  eexists. split; [reflexivity|].
  split; [reflexivity|].
  split.
  { cbn. destruct (env w "GOOGLE_CLIENT_ID") as [[|a s]|]; done. }
  split; [reflexivity|]. split; [reflexivity|]. split; [reflexivity|].
  split; [reflexivity|].
  intros dt Hdt. simpl. unfold kv_get, kv_set. rewrite lookup_insert_eq. unfold live. simpl.
  unfold stateTTL. assert ((clock w + dt <? clock w + 10 * 60 * 1000) = true) as -> by lia.
  reflexivity.
Qed.

Lemma login_redirect_witness :
  ∃ params w',
    login login_request deployed
    = (Return (redirect (External "https://accounts.google.com/o/oauth2/v2/auth" params)), w')
    ∧ searchParam "state" params = Some "uuid-0"
    ∧ searchParam "redirect_uri" params = Some "https://app.example/api/auth/callback"
    ∧ searchParam "client_secret" params = None
    ∧ kv_get (oauth_states (kv w')) "uuid-0" 599999
      = Some {| st_createdAt := 0; used := false |}.
Proof.
  destruct (login_redirect login_request deployed)
    as (params & w' & Hrun & Hstate & _ & Huri & _ & _ & Hsecret & Hlive).
  - reflexivity.
  - split; reflexivity.
  - vm_compute. discriminate.
  - exists params, w'. split; [exact Hrun|]. split; [exact Hstate|]. split; [exact Huri|].
    split; [exact Hsecret|]. apply (Hlive 599999). lia.
Defined.

(** X16.  A login request that is not a GET, or made while the client id or
    the client secret is missing, is answered 405 or 500 without a redirect
    and leaves the world unchanged: no state is stored. *)
Theorem login_inert (req : Request) (w : World) :
  req_method req ≠ "GET"
  ∨ falsy (env w "GOOGLE_CLIENT_ID") = true
  ∨ falsy (env w "GOOGLE_CLIENT_SECRET") = true →
  ∃ resp, login req w = (Return resp, w)
    ∧ location resp = None
    ∧ (resp_status resp = 405 ∨ resp_status resp = 500).
Proof.
  intros H. unfold login.
  destruct (String.eqb (req_method req) "GET") eqn:Hm; cbn [negb].
  2: { eexists. split; [reflexivity|]. simpl. auto. }
  apply String.eqb_eq in Hm. run.
  destruct H as [H|[H|H]]; [done| |]; rewrite H, ?orb_true_r; cbn [orb];
    eexists; (split; [reflexivity|]); simpl; auto.
Qed.

Lemma login_inert_witness :
  ∃ resp, login {| req_method := "POST"; origin := "https://app.example"; searchParams := [] |}
            deployed = (Return resp, deployed)
    ∧ location resp = None
    ∧ (resp_status resp = 405 ∨ resp_status resp = 500).
Proof.
  apply (login_inert {| req_method := "POST"; origin := "https://app.example";
                        searchParams := [] |} deployed).
  left. discriminate.
Defined.

(** X17.  A callback request that is not a GET, carries an error parameter,
    or lacks the code or the state is answered 405, a redirect to
    /?error=oauth_error, or 400. It sets no session cookie and leaves the
    world unchanged: no state is consumed and no call is made. *)
Theorem callback_inert (rq : Request) (w : World) :
  req_method rq ≠ "GET"
  ∨ falsy (searchParam "error" (searchParams rq)) = false
  ∨ falsy (searchParam "code" (searchParams rq)) = true
  ∨ falsy (searchParam "state" (searchParams rq)) = true →
  ∃ resp, callback rq w = (Return resp, w)
    ∧ session_cookie resp = None
    ∧ (resp_status resp = 405
       ∨ resp = redirect (Path "/?error=oauth_error")
       ∨ resp_status resp = 400).
Proof.
  intros H. unfold callback.
  destruct (String.eqb (req_method rq) "GET") eqn:Hm; cbn [negb].
  2: { eexists. split; [reflexivity|]. simpl. auto. }
  apply String.eqb_eq in Hm. run.
  destruct (falsy (searchParam "error" (searchParams rq))) eqn:He; cbn [negb].
  2: { eexists. split; [reflexivity|]. simpl. auto. }
  destruct H as [H|[H|[H|H]]]; [done|done| |]; rewrite H, ?orb_true_r; cbn [orb];
    eexists; (split; [reflexivity|]); simpl; auto.
Qed.

Lemma callback_inert_witness :
  ∃ resp, callback {| req_method := "GET"; origin := "https://app.example";
                      searchParams := [("error", "access_denied"); ("state", "uuid-0")] |}
            (awaiting_callback google)
          = (Return resp, awaiting_callback google)
    ∧ session_cookie resp = None
    ∧ (resp_status resp = 405
       ∨ resp = redirect (Path "/?error=oauth_error")
       ∨ resp_status resp = 400).
Proof.
  apply (callback_inert {| req_method := "GET"; origin := "https://app.example";
                           searchParams := [("error", "access_denied"); ("state", "uuid-0")] |}
           (awaiting_callback google)).
  right. left. reflexivity.
Defined.

Lemma callback_reaches_exchange (rq : Request) (state code : string) (w : World)
    (stateData : StateData) :
  redeems rq state → state ≠ EmptyString → configured w →
  searchParam "code" (searchParams rq) = Some code →
  kv_get (oauth_states (kv w)) state (clock w) = Some stateData →
  used stateData = false →
  callback rq w
  = try_catch
      (let* tokens := exchangeCodeForTokens (routeHandler (origin rq) w) code in
       let* userInfoResponse := fetch (userInfoRequest (tr_access_token tokens)) in
       if negb (ok userInfoResponse) then throw (Error "Failed to fetch user info")
       else
         match parsed userInfoResponse with
         | PUserInfo userId =>
             let* sessionId := storeTokens userId tokens in
             ret {| resp_status := 302; resp_body := None;
                    location := Some (Path "/?auth=success");
                    session_cookie := Some sessionId |}
         | _ => throw (Error "Unexpected response body")
         end)
      (λ _, ret (redirect (Path "/?error=auth_failed")))
      (with_kv (with_oauth_states (λ m, kv_set m state (markUsed stateData) None (clock w))) w).
Proof.
  intros (Hm & He & Hc & Hs) Hne [Hcid Hsec] Hcode Hget Hunused. unfold callback.
  rewrite Hm. cbn [String.eqb Ascii.eqb Bool.eqb negb].
  run. rewrite He, Hc, Hs, (falsy_Some state Hne). cbn [negb orb].
  rewrite (str_or_Some state _ Hne). rewrite Hget, Hunused. simpl.
  rewrite Hcid, Hsec. cbn [orb]. rewrite Hcode in *.
  rewrite (str_or_Some code) by (intros ->; done).
  reflexivity.
Qed.

Lemma exchangeCodeForTokens_spec (h : OAuthHandler) (code : string) (w : World) :
  match exchangeCodeForTokens h code w with
  | (Return tokens, w') =>
      ∃ t, grants (net w (length (calls w)) (exchangeRequest h code)) = Some t
        ∧ tokens = {| tr_access_token := access_token t;
                      tr_refresh_token := str_or (tj_refresh_token t) "";
                      tr_expires_in := expires_in t;
                      tr_token_type := token_type t; tr_scope := scope t |}
  | (Throw e, w') => grants (net w (length (calls w)) (exchangeRequest h code)) = None
  end
  ∧ snd (exchangeCodeForTokens h code w)
    = {| kv := kv w;
         clock := clock w + took (net w (length (calls w)) (exchangeRequest h code));
         calls := calls w ++ [exchangeRequest h code];
         net := net w; uuids := uuids w; drawn := drawn w; env := env w |}.
Proof.
  unfold exchangeCodeForTokens, grants, fetch. run.
  fold (exchangeRequest h code).
  destruct (reply (net w (length (calls w)) (exchangeRequest h code))) as [msg|r]; [done|].
  destruct (ok r); cbn [negb]; [|done].
  unfold token_json. destruct (parsed r) as [| | |t|]; run; try done.
  split; [|done]. by exists t.
Qed.

(** X18.  When the callback presents a stored unused state but the token
    exchange fails (network failure or status outside 200..299), the answer
    is a redirect to /?error=auth_failed. No session or pointer is stored,
    only the exchange call is made, and the state is left marked used, so
    repeating the callback with that state is rejected with 400 at any later
    time. *)
Theorem callback_exchange_failure (rq : Request) (state code : string) (w : World)
    (stateData : StateData) :
  redeems rq state → state ≠ EmptyString → configured w →
  searchParam "code" (searchParams rq) = Some code →
  kv_get (oauth_states (kv w)) state (clock w) = Some stateData →
  used stateData = false →
  declines (net w (length (calls w)) (exchangeRequest (routeHandler (origin rq) w) code)) = true →
  ∃ w', callback rq w = (Return (redirect (Path "/?error=auth_failed")), w')
    ∧ sessions (kv w') = sessions (kv w)
    ∧ user_sessions (kv w') = user_sessions (kv w)
    ∧ calls w' = calls w ++ [exchangeRequest (routeHandler (origin rq) w) code]
    ∧ oauth_states (kv w') !! state
      = Some {| value := markUsed stateData; expireAt := None |}
    ∧ ∀ dt, callback rq (elapse dt w') = (Return rejected, elapse dt w').
Proof.
  intros Hr Hne Hcfg Hcode Hget Hunused Hgr. apply declines_grants in Hgr.
  rewrite (callback_reaches_exchange rq state code w stateData Hr Hne Hcfg Hcode Hget Hunused).
  set (wm := with_kv _ w).
  pose proof (exchangeCodeForTokens_spec (routeHandler (origin rq) w) code wm) as [Hx Hw].
  unfold try_catch. unfold bind at 1.
  destruct (exchangeCodeForTokens (routeHandler (origin rq) w) code wm) as [[tokens|e] w1].
  { destruct Hx as (t & Ht & _). simpl in Ht. congruence. }
  simpl in Hw. subst w1. eexists. split; [reflexivity|]. simpl.
  unfold kv_set. rewrite lookup_insert_eq.
  split; [done|]. split; [done|]. split; [done|]. split; [done|].
  intros dt. apply (callback_rejects rq state); [done|done|].
  simpl. unfold kv_get. rewrite lookup_insert_eq. reflexivity.
Qed.

Lemma callback_exchange_failure_witness :
  ∃ w', callback (callback_request "code-1" "uuid-0") (awaiting_callback refusing)
        = (Return (redirect (Path "/?error=auth_failed")), w')
    ∧ sessions (kv w') = sessions (kv (awaiting_callback refusing))
    ∧ user_sessions (kv w') = user_sessions (kv (awaiting_callback refusing))
    ∧ calls w' = calls (awaiting_callback refusing)
                 ++ [exchangeRequest (routeHandler "https://app.example"
                                        (awaiting_callback refusing)) "code-1"]
    ∧ oauth_states (kv w') !! "uuid-0"
      = Some {| value := {| st_createdAt := 0; used := true |}; expireAt := None |}
    ∧ ∀ dt, callback (callback_request "code-1" "uuid-0") (elapse dt w')
            = (Return rejected, elapse dt w').
Proof.
  apply (callback_exchange_failure (callback_request "code-1" "uuid-0") "uuid-0" "code-1"
           (awaiting_callback refusing) {| st_createdAt := 0; used := false |}).
  - repeat split; reflexivity.
  - discriminate.
  - split; reflexivity.
  - reflexivity.
  - vm_compute. reflexivity.
  - reflexivity.
  - reflexivity.
Defined.

(** X19.  When the exchange yields tokens and the userinfo call yields a
    user id, the callback redirects to /?auth=success with the session
    cookie set to the new session id. Exactly those two calls are made; the
    session stored under that id carries the user id, the exchanged access
    and refresh tokens and an expiry of now plus expires_in seconds; the
    user's pointer names it, and the state is marked used. *)
Theorem callback_success (rq : Request) (state code : string) (w : World)
    (stateData : StateData) (t : TokenJson) (user : string) :
  redeems rq state → state ≠ EmptyString → configured w →
  searchParam "code" (searchParams rq) = Some code →
  kv_get (oauth_states (kv w)) state (clock w) = Some stateData →
  used stateData = false →
  grants (net w (length (calls w)) (exchangeRequest (routeHandler (origin rq) w) code)) = Some t →
  identifies (net w (S (length (calls w))) (userInfoRequest (access_token t))) = Some user →
  ∃ w' session,
    callback rq w
    = (Return {| resp_status := 302; resp_body := None;
                 location := Some (Path "/?auth=success");
                 session_cookie := Some (uuids w (drawn w)) |}, w')
    ∧ calls w' = calls w ++ [exchangeRequest (routeHandler (origin rq) w) code;
                             userInfoRequest (access_token t)]
    ∧ kv_get (sessions (kv w')) (uuids w (drawn w)) (clock w') = Some session
    ∧ id session = uuids w (drawn w) ∧ userId session = user
    ∧ accessToken session = access_token t
    ∧ refreshToken session = str_or (tj_refresh_token t) ""
    ∧ tokenExpiresAt session = clock w' + expires_in t * 1000
    ∧ kv_get (user_sessions (kv w')) user (clock w') = Some (uuids w (drawn w))
    ∧ oauth_states (kv w') !! state = Some {| value := markUsed stateData; expireAt := None |}.
Proof.
  intros Hr Hne Hcfg Hcode Hget Hunused Hgr Hid.
  rewrite (callback_reaches_exchange rq state code w stateData Hr Hne Hcfg Hcode Hget Hunused).
  set (wm := with_kv _ w).
  pose proof (exchangeCodeForTokens_spec (routeHandler (origin rq) w) code wm) as [Hx Hw].
  unfold try_catch. unfold bind at 1.
  destruct (exchangeCodeForTokens (routeHandler (origin rq) w) code wm) as [[tokens|e] w1].
  2: { simpl in Hx. congruence. }
  destruct Hx as (t' & Ht & ->). simpl in Ht. rewrite Hgr in Ht. injection Ht as <-.
  simpl in Hw. subst w1. unfold bind at 1. unfold fetch at 1.
  cbn [calls tr_access_token net]. rewrite length_app. cbn [length].
  rewrite Nat.add_1_r. unfold identifies in Hid.
  destruct (reply (net w (S (length (calls w))) (userInfoRequest (access_token t))))
    as [msg|r2]; [done|].
  destruct (ok r2); [|done]. cbn [negb].
  destruct (parsed r2) as [| | | |u]; try done. injection Hid as ->.
  eexists _, _. split; [reflexivity|]. simpl.
  unfold kv_get, kv_set. rewrite !lookup_insert_eq. simpl.
  rewrite <- app_assoc. repeat split; reflexivity.
Qed.

Lemma callback_success_witness :
  ∃ w' session,
    callback (callback_request "code-1" "uuid-0") (awaiting_callback google)
    = (Return {| resp_status := 302; resp_body := None;
                 location := Some (Path "/?auth=success");
                 session_cookie := Some "uuid-1" |}, w')
    ∧ kv_get (sessions (kv w')) "uuid-1" (clock w') = Some session
    ∧ userId session = "user-1"
    ∧ accessToken session = "access-a"
    ∧ kv_get (user_sessions (kv w')) "user-1" (clock w') = Some "uuid-1".
Proof.
  destruct (callback_success (callback_request "code-1" "uuid-0") "uuid-0" "code-1"
              (awaiting_callback google) {| st_createdAt := 0; used := false |}
              {| access_token := "access-a"; tj_refresh_token := Some "refresh";
                 expires_in := 3600; token_type := "Bearer"; scope := "youtube.readonly" |}
              "user-1")
    as (w' & session & Hrun & _ & Hs & _ & Hu & Ha & _ & _ & Hp & _).
  - repeat split; reflexivity.
  - discriminate.
  - split; reflexivity.
  - reflexivity.
  - vm_compute. reflexivity.
  - reflexivity.
  - reflexivity.
  - reflexivity.
  - exists w', session. split; [exact Hrun|]. split; [exact Hs|]. split; [exact Hu|].
    split; [exact Ha|exact Hp].
Defined.

(** * The auth middleware and the routes behind it *)


Lemma cookie_session (req : CookieRequest) (sessionId : string) :
  getSessionFromCookies req = Some sessionId → sessionId ≠ EmptyString.
Proof.
  unfold getSessionFromCookies. destruct (cookies req !! "session_id") as [[|a s]|]; naive_solver.
Qed.

Lemma requireAuth_unknown (req : CookieRequest) (sessionId : string) (w : World)
    (handler : AuthenticatedRequest → M JsonResponse) :
  getSessionFromCookies req = Some sessionId →
  kv_get (sessions (kv w)) sessionId (clock w) = None →
  requireAuth req handler w = (Return (errorResponse 401 "Invalid session"), w).
Proof.
  intros Hc Hs. unfold requireAuth, getStoredTokens. run. by rewrite Hc, Hs.
Qed.

(** X20.  requireAuth answers 401 'Authentication required' when the request
    has no session_id cookie or an empty one, and 401 'Invalid session' when
    the cookie names no stored session. In both cases the answer does not
    depend on the handler and the world is unchanged. *)
Theorem requireAuth_rejects (req : CookieRequest) (w : World)
    (handler : AuthenticatedRequest → M JsonResponse) :
  (getSessionFromCookies req = None →
     requireAuth req handler w = (Return (errorResponse 401 "Authentication required"), w))
  ∧ (∀ sessionId, getSessionFromCookies req = Some sessionId →
       kv_get (sessions (kv w)) sessionId (clock w) = None →
       requireAuth req handler w = (Return (errorResponse 401 "Invalid session"), w)).
Proof.
  split.
  - intros Hc. unfold requireAuth. run. by rewrite Hc.
  - intros sid. apply requireAuth_unknown.
Qed.

Lemma requireAuth_rejects_witness :
  requireAuth (bare_request "GET") whoami logged_in
  = (Return (errorResponse 401 "Authentication required"), logged_in)
  ∧ requireAuth (cookie_request "GET" "uuid-7") whoami logged_in
    = (Return (errorResponse 401 "Invalid session"), logged_in).
Proof.
  split.
  - apply (proj1 (requireAuth_rejects (bare_request "GET") logged_in whoami)). reflexivity.
  - apply (proj2 (requireAuth_rejects (cookie_request "GET" "uuid-7") logged_in whoami) "uuid-7").
    + reflexivity.
    + vm_compute. reflexivity.
Defined.


Lemma requireAuth_stored (req : CookieRequest) (sessionId : string) (stored : UserSession)
    (w : World) (handler : AuthenticatedRequest → M JsonResponse) :
  getSessionFromCookies req = Some sessionId →
  kv_get (sessions (kv w)) sessionId (clock w) = Some stored →
  requireAuth req handler w
  = try_catch
      (let* validSession := ensureValidToken (middlewareHandler w) (touch stored (clock w)) in
       let* userInfoResponse := fetch (userInfoRequest (accessToken validSession)) in
       if negb (ok userInfoResponse) then throw (Error "Failed to fetch user info")
       else
         match parsed userInfoResponse with
         | PUserInfo userInfo =>
             handler {| areq := req; auth_session := Some validSession;
                        auth_user := Some userInfo |}
         | _ => throw (Error "Unexpected response body")
         end)
      (λ _, ret (errorResponse 401 "Token validation failed"))
      (stamped sessionId stored w).
Proof.
  intros Hc Hs. unfold requireAuth, getStoredTokens. unfold try_catch at 1.
  unfold bind at 1. unfold get_world at 1. cbn beta iota. rewrite Hc.
  unfold bind at 1. unfold bind at 1. unfold get_world at 1. cbn beta iota. rewrite Hs.
  unfold bind at 1. unfold modify_kv at 1. cbn beta iota. unfold ret at 1. cbn beta iota.
  fold (stamped sessionId stored w).
  destruct (try_catch _ _ (stamped sessionId stored w)) as [[r|e] w'] eqn:E; [reflexivity|].
  exfalso. revert E. unfold try_catch.
  match goal with |- context [match ?m with _ => _ end] => destruct m as [[?|?] ?] end;
    unfold ret; congruence.
Qed.

(** X21.  For a stored session that is not within 5 minutes of expiry and
    whose access token the userinfo endpoint answers with a user id,
    requireAuth makes the userinfo call and runs the handler on the request
    with the stored session (lastAccessed stamped) and the user id attached.
    What the handler returns is the answer; if the handler throws, the
    answer is 401 'Token validation failed'. *)
Theorem requireAuth_passes (req : CookieRequest) (sessionId : string) (stored : UserSession)
    (w : World) (user : string) (handler : AuthenticatedRequest → M JsonResponse) :
  getSessionFromCookies req = Some sessionId →
  kv_get (sessions (kv w)) sessionId (clock w) = Some stored →
  isTokenExpired (clock w) stored = false →
  identifies (net w (length (calls w)) (userInfoRequest (accessToken stored))) = Some user →
  ∃ w1, calls w1 = calls w ++ [userInfoRequest (accessToken stored)]
    ∧ kv w1 = kv (stamped sessionId stored w)
    ∧ requireAuth req handler w
      = match handler {| areq := req; auth_session := Some (touch stored (clock w));
                         auth_user := Some user |} w1 with
        | (Return r, w2) => (Return r, w2)
        | (Throw _, w2) => (Return (errorResponse 401 "Token validation failed"), w2)
        end.
Proof.
  intros Hc Hs Hexp Hid.
  rewrite (requireAuth_stored req sessionId stored w handler Hc Hs).
  unfold try_catch. unfold bind at 1.
  assert (Hv : ensureValidToken (middlewareHandler w) (touch stored (clock w)) (stamped sessionId stored w)
               = (Return (touch stored (clock w)), stamped sessionId stored w)).
  { unfold ensureValidToken. run.
    change (isTokenExpired (clock (stamped sessionId stored w)) (touch stored (clock w)))
      with (isTokenExpired (clock w) stored). by rewrite Hexp. }
  rewrite Hv. unfold bind at 1. unfold fetch.
  change (accessToken (touch stored (clock w))) with (accessToken stored).
  change (calls (stamped sessionId stored w)) with (calls w).
  change (net (stamped sessionId stored w)) with (net w).
  unfold identifies in Hid.
  destruct (reply (net w (length (calls w)) (userInfoRequest (accessToken stored))))
    as [msg|r]; [done|].
  destruct (ok r); [|done]. cbn [negb].
  destruct (parsed r) as [| | | |u]; try done. injection Hid as ->.
  eexists. split; [|split; [|reflexivity]]; reflexivity.
Qed.

Lemma requireAuth_passes_witness :
  fst (requireAuth (cookie_request "GET" "uuid-1") whoami logged_in)
  = Return (jsonResponse 200 (JObj [("user", JStr "user-1")])).
Proof.
  destruct (requireAuth_passes (cookie_request "GET" "uuid-1") "uuid-1" session1 logged_in
              "user-1" whoami) as (w1 & _ & _ & Hrun).
  - reflexivity.
  - vm_compute. reflexivity.
  - reflexivity.
  - reflexivity.
  - rewrite Hrun. reflexivity.
Defined.

(** X22.  If the stored session is within 5 minutes of expiry and the
    refresh call fails, requireAuth answers 401 'Token validation failed'
    after that one call, the session record and the user's pointer are
    deleted, and every later request with that cookie gets 401 'Invalid
    session', whatever the handler. *)
Theorem requireAuth_refresh_failure (req : CookieRequest) (sessionId : string)
    (stored : UserSession) (w : World) (handler : AuthenticatedRequest → M JsonResponse) :
  getSessionFromCookies req = Some sessionId →
  kv_get (sessions (kv w)) sessionId (clock w) = Some stored →
  id stored = sessionId →
  isTokenExpired (clock w) stored = true →
  declines (net w (length (calls w)) (refreshRequest (middlewareHandler w) (refreshToken stored)))
  = true →
  ∃ w', requireAuth req handler w
        = (Return (errorResponse 401 "Token validation failed"), w')
    ∧ sessions (kv w') !! sessionId = None
    ∧ user_sessions (kv w') !! userId stored = None
    ∧ calls w' = calls w ++ [refreshRequest (middlewareHandler w) (refreshToken stored)]
    ∧ ∀ dt handler', requireAuth req handler' (elapse dt w')
                     = (Return (errorResponse 401 "Invalid session"), elapse dt w').
Proof.
  intros Hc Hs Hid Hexp Hgr. apply declines_grants in Hgr.
  rewrite (requireAuth_stored req sessionId stored w handler Hc Hs).
  set (ws := stamped sessionId stored w). set (s := touch stored (clock w)).
  pose proof (ensureValidToken_expired (middlewareHandler w) s ws) as Hout.
  assert (Hexp' : isTokenExpired (clock ws) s = true) by exact Hexp.
  specialize (Hout Hexp').
  unfold try_catch. unfold bind at 1.
  destruct (ensureValidToken (middlewareHandler w) s ws) as [[s'|e] w'].
  { destruct Hout as (r & t & Hreply & Hok & Hp & _).
    unfold grants in Hgr. unfold granted in Hreply.
    change (net ws) with (net w) in Hreply. change (calls ws) with (calls w) in Hreply.
    change (refreshToken s) with (refreshToken stored) in Hreply.
    rewrite Hreply, Hok, Hp in Hgr. done. }
  destruct Hout as (Hcalls & Hclock & _ & Hdel).
  set (wf := snd (fetch (refreshRequest (middlewareHandler w) (refreshToken s)) ws)) in Hdel.
  destruct (deleteSession_stored (id s) wf s) as (w2 & Hrun & Hgone & Hptr & _).
  { unfold wf, fetch. destruct (reply _); simpl; unfold kv_get, kv_set;
      change (id s) with (id stored); rewrite Hid, lookup_insert_eq; reflexivity. }
  rewrite Hrun in Hdel. injection Hdel as <-.
  exists w2. split; [reflexivity|].
  change (id s) with (id stored) in Hgone. rewrite Hid in Hgone.
  split; [exact Hgone|]. split; [exact Hptr|]. split; [exact Hcalls|].
  intros dt handler'. apply (requireAuth_unknown req sessionId); [exact Hc|].
  apply kv_get_absent. exact Hgone.
Qed.

Lemma requireAuth_refresh_failure_witness :
  ∃ w', requireAuth (cookie_request "GET" "session-0") whoami (signed_in refusing)
        = (Return (errorResponse 401 "Token validation failed"), w')
    ∧ sessions (kv w') !! "session-0" = None
    ∧ user_sessions (kv w') !! "user-1" = None
    ∧ calls w' = [refreshRequest (middlewareHandler (signed_in refusing)) "refresh"]
    ∧ ∀ dt handler', requireAuth (cookie_request "GET" "session-0") handler' (elapse dt w')
                     = (Return (errorResponse 401 "Invalid session"), elapse dt w').
Proof.
  apply (requireAuth_refresh_failure (cookie_request "GET" "session-0") "session-0" session0
           (signed_in refusing) whoami).
  - reflexivity.
  - vm_compute. reflexivity.
  - reflexivity.
  - reflexivity.
  - reflexivity.
Defined.

Lemma optionalIdentity_returns (req : CookieRequest) (w : World) :
  ∃ a w1, optionalIdentity req w = (Return a, w1)
    ∧ areq a = req
    ∧ (getSessionFromCookies req = None → a = anonymous req ∧ w1 = w)
    ∧ (∀ sessionId, getSessionFromCookies req = Some sessionId →
         kv_get (sessions (kv w)) sessionId (clock w) = None → a = anonymous req ∧ w1 = w)
    ∧ (auth_session a = None ↔ auth_user a = None).
Proof.
  unfold optionalIdentity. unfold bind at 1. unfold get_world at 1. cbn beta iota.
  destruct (getSessionFromCookies req) as [sid|] eqn:Hc.
  2: { exists (anonymous req), w. split; [reflexivity|]. repeat split; done. }
  unfold try_catch.
  match goal with |- context [match ?m with _ => _ end] => destruct m as [[a|e] w1] eqn:E end.
  - exists a, w1. split; [reflexivity|].
    revert E. unfold getStoredTokens. unfold bind at 1. unfold bind at 1.
    unfold get_world at 1. cbn beta iota.
    destruct (kv_get (sessions (kv w)) sid (clock w)) as [stored|] eqn:Hs.
    + unfold bind at 1. unfold modify_kv at 1. cbn beta iota. unfold ret at 1. cbn beta iota.
      unfold bind at 1.
      destruct (ensureValidToken _ _ _) as [[v|e] w2]; cbn beta iota; [|intros; simplify_eq].
      unfold bind at 1. destruct (fetch _ w2) as [[r|e] w3]; cbn beta iota;
        [|intros; simplify_eq].
      destruct (ok r);
        [|unfold ret; intros; simplify_eq; repeat split; intros; simplify_eq;
          (done || congruence)].
      destruct (parsed r); unfold ret, throw; intros; simplify_eq; repeat split; intros;
        simplify_eq; (done || congruence).
    + unfold ret. intros [= <- <-]. repeat split; done.
  - exists (anonymous req), w1. split; [reflexivity|].
    split; [done|]. split; [done|]. split; [|done].
    intros sid' [= <-] Hs. revert E. unfold getStoredTokens. run. rewrite Hs. done.
Qed.

(** X23.  optionalAuth always runs the handler, on the original request with
    either both a session and a user attached or neither (neither, and with
    the world untouched, when there is no cookie or no stored session). If
    the handler throws, the handler is run a second time on the same
    request, in the world its first run left. *)
Theorem optionalAuth_runs_handler (req : CookieRequest) (w : World) :
  ∃ a w1,
    (∀ handler : AuthenticatedRequest → M JsonResponse,
       optionalAuth req handler w
       = match handler a w1 with
         | (Return r, w2) => (Return r, w2)
         | (Throw _, w2) => handler a w2
         end)
    ∧ areq a = req
    ∧ (auth_session a = None ↔ auth_user a = None)
    ∧ (getSessionFromCookies req = None → a = anonymous req ∧ w1 = w)
    ∧ (∀ sessionId, getSessionFromCookies req = Some sessionId →
         kv_get (sessions (kv w)) sessionId (clock w) = None → a = anonymous req ∧ w1 = w).
Proof.
  destruct (optionalIdentity_returns req w) as (a & w1 & Hrun & Hreq & Hnone & Hunk & Hiff).
  exists a, w1. split; [|done].
  intros handler. unfold optionalAuth. unfold bind at 1. rewrite Hrun.
  unfold try_catch. by destruct (handler a w1) as [[r|e] w2].
Qed.

Lemma optionalAuth_runs_handler_witness :
  optionalAuth (bare_request "GET") whoami logged_in
  = (Return (jsonResponse 200 (JObj [("user", JStr "")])), logged_in).
Proof.
  destruct (optionalAuth_runs_handler (bare_request "GET") logged_in)
    as (a & w1 & Hrun & _ & _ & Hnone & _).
  destruct (Hnone eq_refl) as [-> ->]. rewrite (Hrun whoami). reflexivity.
Defined.

(** ** Logout *)

Lemma logout_run (req : CookieRequest) (w : World) :
  req_method (request req) = "POST" →
  logout req w
  = (Return {| js_status := 200; js_body := JsonBody (JObj [("success", JBool true)]);
               js_headers := [("Content-Type", "application/json")];
               js_cookie := Some clearedCookie |},
     match getSessionFromCookies req with
     | Some sessionId => snd (deleteSession sessionId w)
     | None => w
     end).
Proof.
  intros Hm. unfold logout. rewrite Hm. cbn [String.eqb Ascii.eqb Bool.eqb negb].
  unfold try_catch, bind.
  destruct (getSessionFromCookies req) as [sid|]; [|reflexivity].
  destruct (deleteSession_calls sid w) as (_ & _ & Hr).
  destruct (deleteSession sid w) as [o w']. simpl in Hr. by subst o.
Qed.

(** X24.  A POST on logout with the cookie of a stored session answers 200
    with a cookie that clears session_id, makes no outbound call and deletes
    the session record and the user's pointer. From then on getUserSession
    finds nothing for the user and requireAuth answers 401 'Invalid session'
    to that cookie. *)
Theorem logout_ends_session (req : CookieRequest) (sessionId : string) (stored : UserSession)
    (w : World) :
  req_method (request req) = "POST" →
  getSessionFromCookies req = Some sessionId →
  kv_get (sessions (kv w)) sessionId (clock w) = Some stored →
  ∃ resp w', logout req w = (Return resp, w')
    ∧ js_status resp = 200
    ∧ js_cookie resp = Some clearedCookie
    ∧ calls w' = calls w
    ∧ sessions (kv w') !! sessionId = None
    ∧ user_sessions (kv w') !! userId stored = None
    ∧ (∀ dt, fst (getUserSession (userId stored) (elapse dt w')) = Return None)
    ∧ (∀ dt req' handler, getSessionFromCookies req' = Some sessionId →
         requireAuth req' handler (elapse dt w')
         = (Return (errorResponse 401 "Invalid session"), elapse dt w')).
Proof.
  intros Hm Hc Hs. rewrite (logout_run req w Hm), Hc.
  destruct (deleteSession_stored sessionId w stored Hs) as (w' & Hrun & Hgone & Hptr & _).
  destruct (deleteSession_calls sessionId w) as (Hcalls & _).
  rewrite Hrun in *. simpl in Hcalls. simpl.
  eexists _, w'. split; [reflexivity|]. simpl.
  split; [done|]. split; [done|]. split; [done|]. split; [done|]. split; [done|]. split.
  - intros dt. unfold getUserSession. run. unfold kv_get. simpl. by rewrite Hptr.
  - intros dt req' handler Hc'. apply (requireAuth_unknown req' sessionId); [done|].
    by apply kv_get_absent.
Qed.

Lemma logout_ends_session_witness :
  ∃ resp w', logout (cookie_request "POST" "uuid-1") logged_in = (Return resp, w')
    ∧ js_status resp = 200
    ∧ js_cookie resp = Some clearedCookie
    ∧ sessions (kv w') !! "uuid-1" = None
    ∧ user_sessions (kv w') !! "user-1" = None
    ∧ (∀ dt, requireAuth (cookie_request "GET" "uuid-1") whoami (elapse dt w')
             = (Return (errorResponse 401 "Invalid session"), elapse dt w')).
Proof.
  destruct (logout_ends_session (cookie_request "POST" "uuid-1") "uuid-1" session1 logged_in)
    as (resp & w' & Hrun & Hst & Hck & _ & Hs & Hp & _ & Hauth).
  - reflexivity.
  - reflexivity.
  - vm_compute. reflexivity.
  - exists resp, w'. split; [exact Hrun|]. split; [exact Hst|]. split; [exact Hck|].
    split; [exact Hs|]. split; [exact Hp|].
    intros dt. apply Hauth. reflexivity.
Defined.

(** X25.  A logout request that is not a POST is answered 405, sets no
    cookie and leaves the world unchanged. A POST without a session cookie
    is answered 200 with the clearing cookie and leaves the world unchanged. *)
Theorem logout_inert (req : CookieRequest) (w : World) :
  (req_method (request req) ≠ "POST" →
     ∃ resp, logout req w = (Return resp, w) ∧ js_status resp = 405 ∧ js_cookie resp = None)
  ∧ (req_method (request req) = "POST" → getSessionFromCookies req = None →
     ∃ resp, logout req w = (Return resp, w) ∧ js_status resp = 200
       ∧ js_cookie resp = Some clearedCookie).
Proof.
  split.
  - intros Hm. unfold logout.
    destruct (String.eqb (req_method (request req)) "POST") eqn:E.
    + by apply String.eqb_eq in E.
    + eexists. split; [reflexivity|]. done.
  - intros Hm Hc. rewrite (logout_run req w Hm), Hc. eexists. split; [reflexivity|]. done.
Qed.

Lemma logout_inert_witness :
  ∃ resp, logout (cookie_request "GET" "uuid-1") logged_in = (Return resp, logged_in)
    ∧ js_status resp = 405 ∧ js_cookie resp = None.
Proof.
  apply (proj1 (logout_inert (cookie_request "GET" "uuid-1") logged_in)). discriminate.
Defined.

(** ** The usage route *)

Lemma stats_authenticated (req : CookieRequest) (sessionId : string) (stored : UserSession)
    (w : World) :
  configured w →
  getSessionFromCookies req = Some sessionId →
  kv_get (sessions (kv w)) sessionId (clock w) = Some stored →
  stats req w
  = try_catch
      (if String.eqb (req_method (request req)) "GET" then
         let* usageStats := getUsageStats in
         ret {| js_status := 200;
                js_body := JsonBody (JObj
                  [("usageStats", usageJson usageStats);
                   ("quotaLimit", JNum 10000);
                   ("quotaRemaining",
                    JNum (match usageStats with
                          | Some r => 10000 - quotaUsed r
                          | None => 10000
                          end))]);
                js_headers := [("Content-Type", "application/json");
                               ("Cache-Control", "private, no-cache")];
                js_cookie := None |}
       else if String.eqb (req_method (request req)) "DELETE" then
         let pattern := searchParam "pattern" (searchParams (request req)) in
         do* clearCache (if falsy pattern then None else pattern) in
         ret (jsonResponse 200 (JObj
                [("message", JStr "Cache cleared successfully");
                 ("pattern", JStr (str_or pattern "all"))]))
       else
         ret {| js_status := 405; js_body := TextBody "Method not allowed";
                js_headers := []; js_cookie := None |})
      (λ error, ret (jsonResponse 500 (JObj
         [("error", JStr "Failed to process request");
          ("message", JStr (if String.eqb (message error) "" then "Unknown error"
                            else message error))])))
      (stamped sessionId stored w).
Proof.
  intros [Hcid Hsec] Hc Hs. unfold stats, getStoredTokens. run.
  rewrite Hcid, Hsec. cbn [orb]. rewrite Hc, Hs. reflexivity.
Qed.

(** X26.  For a configured deployment and the cookie of a stored session,
    GET on the usage route answers 200 with the day's usage record (null
    when there is none), quotaLimit 10000 and quotaRemaining equal to 10000
    minus the day's quotaUsed. The only change to the world is the
    lastAccessed stamp on the session. *)
Theorem stats_reports_usage (req : CookieRequest) (sessionId : string) (stored : UserSession)
    (w : World) :
  configured w →
  getSessionFromCookies req = Some sessionId →
  kv_get (sessions (kv w)) sessionId (clock w) = Some stored →
  req_method (request req) = "GET" →
  ∃ resp, stats req w = (Return resp, stamped sessionId stored w)
    ∧ js_status resp = 200
    ∧ js_body resp
      = JsonBody (JObj
          [("usageStats", usageJson (kv_get (api_usage (kv w)) (today (clock w)) (clock w)));
           ("quotaLimit", JNum 10000);
           ("quotaRemaining", JNum (10000 - fst (currentUsage (api_usage (kv w)) (clock w))))]).
Proof.
  intros Hcfg Hc Hs Hm. rewrite (stats_authenticated req sessionId stored w Hcfg Hc Hs), Hm.
  cbn [String.eqb Ascii.eqb Bool.eqb]. unfold try_catch, bind, getUsageStats, ret.
  eexists. split; [reflexivity|]. split; [reflexivity|]. simpl.
  unfold currentUsage.
  destruct (kv_get (api_usage (kv w)) (today (clock w)) (clock w)); reflexivity.
Qed.

Lemma stats_reports_usage_witness :
  ∃ resp, fst (stats (cookie_request "GET" "uuid-1") after_searches) = Return resp
    ∧ js_status resp = 200
    ∧ js_body resp
      = JsonBody (JObj
          [("usageStats", JObj [("quotaUsed", JNum 200);
                                ("resetTime", JStr "1970-01-02T00:00:05.000Z");
                                ("requestCount", JNum 2)]);
           ("quotaLimit", JNum 10000);
           ("quotaRemaining", JNum 9800)]).
Proof.
  destruct (stats_reports_usage (cookie_request "GET" "uuid-1") "uuid-1" session1 after_searches)
    as (resp & Hrun & Hst & Hbody).
  - split; reflexivity.
  - reflexivity.
  - vm_compute. reflexivity.
  - reflexivity.
  - exists resp. rewrite Hrun. split; [reflexivity|]. split; [exact Hst|].
    rewrite Hbody. vm_compute. reflexivity.
Defined.

(** X27.  DELETE on the usage route answers 200 with the message 'Cache
    cleared successfully' and the pattern parameter (or 'all'), and removes
    no cache entry: the cache is what it was, and every cache read returns
    what it returned before. *)
Theorem stats_delete_keeps_cache (req : CookieRequest) (sessionId : string)
    (stored : UserSession) (w : World) :
  configured w →
  getSessionFromCookies req = Some sessionId →
  kv_get (sessions (kv w)) sessionId (clock w) = Some stored →
  req_method (request req) = "DELETE" →
  ∃ w', stats req w
        = (Return (jsonResponse 200 (JObj
             [("message", JStr "Cache cleared successfully");
              ("pattern",
               JStr (str_or (searchParam "pattern" (searchParams (request req))) "all"))])), w')
    ∧ youtube_cache (kv w') = youtube_cache (kv w)
    ∧ ∀ key, fst (getFromCache key w') = fst (getFromCache key w).
Proof.
  intros Hcfg Hc Hs Hm. rewrite (stats_authenticated req sessionId stored w Hcfg Hc Hs), Hm.
  cbn [String.eqb Ascii.eqb Bool.eqb]. unfold try_catch, bind, clearCache, ret.
  eexists. split; [reflexivity|]. split; [reflexivity|].
  intros key. unfold getFromCache. simpl.
  destruct (kv_get (youtube_cache (kv w)) key (clock w)) as [e|]; [|reflexivity].
  by destruct (clock w >? expiresAt e).
Qed.

Lemma stats_delete_keeps_cache_witness :
  ∃ w', stats (cookie_request "DELETE" "uuid-1") logged_in
        = (Return (jsonResponse 200 (JObj
             [("message", JStr "Cache cleared successfully"); ("pattern", JStr "all")])), w')
    ∧ youtube_cache (kv w') = youtube_cache (kv logged_in)
    ∧ ∀ key, fst (getFromCache key w') = fst (getFromCache key logged_in).
Proof.
  apply (stats_delete_keeps_cache (cookie_request "DELETE" "uuid-1") "uuid-1" session1 logged_in).
  - split; reflexivity.
  - reflexivity.
  - vm_compute. reflexivity.
  - reflexivity.
Defined.
